(** * zonefmt: a shallow embedding of [main.go] and its specification

    The program reads a DNS zone file line by line, tracks the [$ORIGIN] and
    [$TTL] directives, parses every other line with one regular expression,
    sorts the records with [sort.Sort] and prints them in aligned columns.
    [init] reads the [--sort] flag into the table of scores, and [main] runs
    [formatZone] on every file of the command line, printing the result or
    writing it back.

    Go strings are byte strings: they are modelled by [string], whose
    characters are the 256 byte values.  Go's [int] is taken to be 64 bits
    wide.  The standard-library functions the program calls ([strings],
    [strconv], [unicode/utf8], [regexp], [fmt], [time], [bufio], [sort]) are
    modelled in the modules below, one module per package, with the names
    the packages use. *)

From Stdlib Require Import ZArith NArith Lia Bool List Ascii String.
From Stdlib Require Import Permutation Sorted SpecFloat.
From stdpp Require Import gmap strings sorting.

Local Open Scope string_scope.
Local Open Scope Z_scope.

(** stdpp keeps [simpl] from unfolding the append of strings; the proofs
    below compute with literal prefixes. *)
Arguments String.append !s1 s2 : simpl nomatch.

(** ** Results of fallible code

    A Go call either returns a value, returns a non-nil [error], or panics
    (here always with an index out of range). *)

Inductive error : Type :=
  | ErrSyntax (fn num : string)          (* strconv.NumError, ErrSyntax *)
  | ErrRange (fn num : string)           (* strconv.NumError, ErrRange *)
  | ErrInvalidDuration (orig : string)   (* time: invalid duration *)
  | ErrMissingUnit (orig : string)       (* time: missing unit in duration *)
  | ErrUnknownUnit (unit orig : string). (* time: unknown unit *)

Inductive result (A : Type) : Type :=
  | Ok (a : A)
  | Err (e : error)
  | Panic.

Arguments Ok {A} a.
Arguments Err {A} e.
Arguments Panic {A}.

Definition bind {A B : Type} (m : result A) (k : A -> result B) : result B :=
  match m with
  | Ok a => k a
  | Err e => Err e
  | Panic => Panic
  end.

Notation "'let*' x ':=' m 'in' k" := (bind m (fun x => k))
  (at level 10, x name, m at level 100, k at level 200).

(** ** Bytes and strings *)

Definition byteZ (c : ascii) : Z := Z.of_N (N_of_ascii c).
Definition byteOf (z : Z) : ascii := ascii_of_N (Z.to_N z).

Definition newline : ascii := "010"%char.
Definition carriageReturn : ascii := "013"%char.
Definition quoteChar : ascii := "034"%char.
Definition backslash : ascii := "092"%char.

Fixpoint repeatByte (c : ascii) (n : nat) : string :=
  match n with
  | O => ""
  | S n' => String c (repeatByte c n')
  end.

(** [s[i]] on a string: a panic when [i] is out of range. *)
Definition byteAt (s : string) (i : nat) : result ascii :=
  match String.get i s with
  | Some c => Ok c
  | None => Panic
  end.

(** [xs[i]] on a slice: a panic when [i] is out of range; the nil slice is
    the empty list. *)
Definition index {A : Type} (xs : list A) (i : nat) : result A :=
  match nth_error xs i with
  | Some x => Ok x
  | None => Panic
  end.

Module Strings.

(** [strings.HasSuffix(s, suffix)] for a one-byte suffix. *)
Fixpoint HasSuffixByte (s : string) (c : ascii) : bool :=
  match s with
  | "" => false
  | String a "" => Ascii.eqb a c
  | String _ s' => HasSuffixByte s' c
  end.

(** [strings.TrimLeft(s, cutset)] for a one-byte cutset: every leading
    occurrence of the byte is removed. *)
Fixpoint TrimLeftByte (s : string) (c : ascii) : string :=
  match s with
  | "" => ""
  | String a s' => if Ascii.eqb a c then TrimLeftByte s' c else s
  end.

(** [strings.Join(elems, sep)]. *)
Fixpoint Join (elems : list string) (sep : string) : string :=
  match elems with
  | nil => ""
  | e :: nil => e
  | e :: rest => e ++ sep ++ Join rest sep
  end.

(** The text before the first occurrence of the byte [c] and the text
    after it, when [c] occurs. *)
Fixpoint cutByte (s : string) (c : ascii) : option (string * string) :=
  match s with
  | "" => None
  | String a s' =>
      if Ascii.eqb a c then Some ("", s')
      else match cutByte s' c with
           | Some (before, after) => Some (String a before, after)
           | None => None
           end
  end.

(** [strings.SplitN(s, sep, 2)] for a one-byte separator: at most two
    substrings, the second holding the unsplit remainder. *)
Definition SplitN2 (s : string) (c : ascii) : list string :=
  match cutByte s c with
  | Some (before, after) => before :: after :: nil
  | None => s :: nil
  end.

(** [strings.Split(s, sep)] for a one-byte separator: the substrings
    between the separators, one more than there are separators, so the
    empty string gives one empty substring. *)
Fixpoint Split (s : string) (c : ascii) : list string :=
  match s with
  | "" => "" :: nil
  | String a s' =>
      if Ascii.eqb a c then "" :: Split s' c
      else match Split s' c with
           | piece :: pieces => String a piece :: pieces
           | nil => String a "" :: nil
           end
  end.

End Strings.

(** ** unicode/utf8 *)

Module Utf8.

Definition RuneError : Z := 65533.

(** The continuation byte of index [i] (1, 2 or 3) lies in [lo, hi]. *)
Definition contIn (s : string) (i : nat) (lo hi : Z) : option Z :=
  match String.get i s with
  | Some c => if (lo <=? byteZ c) && (byteZ c <=? hi) then Some (byteZ c) else None
  | None => None
  end.

(** [utf8.DecodeRuneInString]: the first rune of [s] and its width in
    bytes; an invalid or short encoding is [RuneError] of width 1, the
    empty string [RuneError] of width 0. *)
Definition DecodeRuneInString (s : string) : Z * nat :=
  match s with
  | "" => (RuneError, 0%nat)
  | String c _ =>
      let s0 := byteZ c in
      if s0 <? 128 then (s0, 1%nat)
      else if s0 <? 194 then (RuneError, 1%nat)
      else if s0 <? 224 then
        match contIn s 1 128 191 with
        | Some s1 => (Z.lor (Z.shiftl (Z.land s0 31) 6) (Z.land s1 63), 2%nat)
        | None => (RuneError, 1%nat)
        end
      else if s0 <? 240 then
        let lo := if s0 =? 224 then 160 else 128 in
        let hi := if s0 =? 237 then 159 else 191 in
        match contIn s 1 lo hi, contIn s 2 128 191 with
        | Some s1, Some s2 =>
            (Z.lor (Z.lor (Z.shiftl (Z.land s0 15) 12) (Z.shiftl (Z.land s1 63) 6))
                   (Z.land s2 63), 3%nat)
        | _, _ => (RuneError, 1%nat)
        end
      else if s0 <? 245 then
        let lo := if s0 =? 240 then 144 else 128 in
        let hi := if s0 =? 244 then 143 else 191 in
        match contIn s 1 lo hi, contIn s 2 128 191, contIn s 3 128 191 with
        | Some s1, Some s2, Some s3 =>
            (Z.lor (Z.lor (Z.lor (Z.shiftl (Z.land s0 7) 18) (Z.shiftl (Z.land s1 63) 12))
                          (Z.shiftl (Z.land s2 63) 6))
                   (Z.land s3 63), 4%nat)
        | _, _, _ => (RuneError, 1%nat)
        end
      else (RuneError, 1%nat)
  end.

(** [utf8.RuneCountInString]: [skip] bytes of the current rune are still
    to be passed over. *)
Fixpoint runeCountFrom (s : string) (skip : nat) : nat :=
  match s with
  | "" => 0%nat
  | String _ s' =>
      match skip with
      | S k => runeCountFrom s' k
      | O => S (runeCountFrom s' (Nat.pred (snd (DecodeRuneInString s))))
      end
  end.

Definition RuneCountInString (s : string) : nat := runeCountFrom s 0.

End Utf8.

(** ** strconv *)

Module Strconv.

Definition digitChar (d : Z) : ascii := byteOf (48 + d).

Definition isDigit (c : ascii) : bool := (48 <=? byteZ c) && (byteZ c <=? 57).

Definition digitVal (c : ascii) : Z := byteZ c - 48.

(** The loop of [formatBits] in base 10: the digits of [u], least
    significant first, are put in front of [acc]. *)
Fixpoint formatBits (fuel : nat) (u : Z) (acc : string) : string :=
  match fuel with
  | O => acc
  | S fuel' =>
      if u <? 10 then String (digitChar u) acc
      else formatBits fuel' (u / 10) (String (digitChar (u mod 10)) acc)
  end.

Definition FormatUint (u : Z) : string :=
  formatBits (S (Z.to_nat (Z.log2 u))) u "".

(** [strconv.FormatInt(i, 10)], which is also [strconv.Itoa]. *)
Definition FormatInt (i : Z) : string :=
  if i <? 0 then String "-" (FormatUint (- i)) else FormatUint i.

Definition Itoa (i : Z) : string := FormatInt i.

Definition maxUint64 : Z := 2 ^ 64 - 1.

(** The digit loop of [strconv.ParseUint(s, 10, 64)]; [n] is the value
    read so far. *)
Fixpoint parseUintLoop (fn orig : string) (s : string) (n : Z) : result Z :=
  match s with
  | "" => Ok n
  | String c s' =>
      if negb (isDigit c) then Err (ErrSyntax fn orig)
      else if maxUint64 / 10 + 1 <=? n then Err (ErrRange fn orig)
      else
        let n1 := n * 10 + digitVal c in
        if maxUint64 <? n1 then Err (ErrRange fn orig)
        else parseUintLoop fn orig s' n1
  end.

Definition parseUint (fn orig : string) (s : string) : result Z :=
  match s with
  | "" => Err (ErrSyntax fn orig)
  | _ => parseUintLoop fn orig s 0
  end.

(** [strconv.ParseUint(s, 10, 64)]. *)
Definition ParseUint (s : string) : result Z := parseUint "ParseUint" s s.

(** [strconv.ParseInt(s, 10, 64)]. *)
Definition ParseInt (s : string) : result Z :=
  match s with
  | "" => Err (ErrSyntax "ParseInt" s)
  | String c s' =>
      let neg := Ascii.eqb c "-" in
      let digits := if Ascii.eqb c "+" || neg then s' else s in
      let* un := parseUint "ParseInt" s digits in
      let cutoff := 2 ^ 63 in
      if negb neg && (cutoff <=? un) then Err (ErrRange "ParseInt" s)
      else if neg && (cutoff <? un) then Err (ErrRange "ParseInt" s)
      else Ok (if neg then - un else un)
  end.

Definition lowerhex (d : Z) : ascii :=
  if d <? 10 then byteOf (48 + d) else byteOf (87 + d).

(** [strconv.IsPrint]: the Latin-1 range is decided in the function
    itself; above it the answer is read from the Unicode tables of the
    package, which are the parameter [isPrintWide]. *)
Definition IsPrint (isPrintWide : Z -> bool) (r : Z) : bool :=
  if r <=? 255 then
    if (32 <=? r) && (r <=? 126) then true
    else if (161 <=? r) && (r <=? 255) then negb (r =? 173)
    else false
  else isPrintWide r.

Definition hexDigits (r : Z) (shifts : list Z) : string :=
  fold_right (fun sh acc => String (lowerhex (Z.land (Z.shiftr r sh) 15)) acc) "" shifts.

(** [appendEscapedRune] with the double quote as the quote character,
    neither ASCII-only nor graphic-only; [raw] holds the bytes the rune
    was decoded from. *)
Definition appendEscapedRune (isPrintWide : Z -> bool) (r : Z) (raw : string) : string :=
  if (r =? 34) || (r =? 92) then String backslash (String (byteOf r) "")
  else if IsPrint isPrintWide r then raw
  else if r =? 7 then "\a"
  else if r =? 8 then "\b"
  else if r =? 12 then "\f"
  else if r =? 10 then "\n"
  else if r =? 13 then "\r"
  else if r =? 9 then "\t"
  else if r =? 11 then "\v"
  else if (r <? 32) || (r =? 127) then "\x" ++ hexDigits r (4 :: 0 :: nil)
  else if negb ((0 <=? r) && (r <? 55296) || (57343 <? r) && (r <=? 1114111))
    then "\ufffd"
  else if r <? 65536 then "\u" ++ hexDigits r (12 :: 8 :: 4 :: 0 :: nil)
  else "\U" ++ hexDigits r (28 :: 24 :: 20 :: 16 :: 12 :: 8 :: 4 :: 0 :: nil).

(** The loop of [appendQuotedWith]: [skip] bytes of the rune just
    handled are still to be passed over. *)
Fixpoint quoteFrom (isPrintWide : Z -> bool) (s : string) (skip : nat) : string :=
  match s with
  | "" => ""
  | String c s' =>
      match skip with
      | S k => quoteFrom isPrintWide s' k
      | O =>
          let '(r, width) := Utf8.DecodeRuneInString s in
          let piece :=
            if (width =? 1)%nat && (r =? Utf8.RuneError) then
              "\x" ++ hexDigits (byteZ c) (4 :: 0 :: nil)
            else appendEscapedRune isPrintWide r (String.substring 0 width s) in
          piece ++ quoteFrom isPrintWide s' (Nat.pred width)
      end
  end.

(** [strconv.Quote], which is what the verb [%q] prints for a string. *)
Definition Quote (isPrintWide : Z -> bool) (s : string) : string :=
  String quoteChar (quoteFrom isPrintWide s 0 ++ String quoteChar "").

End Strconv.

(** ** regexp

    Go's [regexp] package returns the leftmost match and, among the matches
    that start there, the one a backtracking search finds first.  The
    matcher below lists the ways a pattern can match at a position in that
    order of preference, so the head of the list is the match Go reports.
    Every character class of the program's pattern consists of ASCII bytes
    or is the complement of such a set, and every boundary between two
    pieces of the pattern touches an ASCII byte, so matching byte by byte
    agrees with matching rune by rune. *)

Module Regexp.

Inductive regex : Type :=
  | Plus (cls : ascii -> bool)    (* c+ for a character class, greedy *)
  | Star (cls : ascii -> bool)    (* c* for a character class, greedy *)
  | Cat (r1 r2 : regex)
  | Quest (r : regex)             (* r?, greedy *)
  | Group (n : nat) (r : regex)   (* the n-th capturing group *)
  | BeginText                     (* ^ *)
  | EndText.                      (* $ *)

(** [\s] is [[\t\n\f\r ]]. *)
Definition space (c : ascii) : bool :=
  match c with
  | "009" | "010" | "012" | "013" | " " => true
  | _ => false
  end%char.

Definition notSpace (c : ascii) : bool := negb (space c).

Definition digit (c : ascii) : bool := Strconv.isDigit c.

(** [.] without the [s] flag. *)
Definition anyChar (c : ascii) : bool := negb (Ascii.eqb c newline).

Definition captures : Type := list (nat * string).

(** The ways [cls*] can match a prefix of [s], longest first, as pairs of
    the matched text and the text that follows. *)
Fixpoint splitsStar (cls : ascii -> bool) (s : string) : list (string * string) :=
  match s with
  | "" => ("", "") :: nil
  | String c s' =>
      if cls c then
        List.map (fun ms => (String c (fst ms), snd ms)) (splitsStar cls s') ++ ("", s) :: nil
      else ("", s) :: nil
  end.

Definition splitsPlus (cls : ascii -> bool) (s : string) : list (string * string) :=
  match s with
  | "" => nil
  | String c s' =>
      if cls c then List.map (fun ms => (String c (fst ms), snd ms)) (splitsStar cls s')
      else nil
  end.

Definition isEmpty (s : string) : bool :=
  match s with "" => true | _ => false end.

(** The ways [r] can match a prefix of [s], in order of preference:
    matched text, following text and groups captured so far.  [atStart]
    says that [s] is the whole text. *)
Fixpoint run (r : regex) (atStart : bool) (s : string) (cs : captures)
  : list (string * string * captures) :=
  match r with
  | Plus cls => List.map (fun ms => (fst ms, snd ms, cs)) (splitsPlus cls s)
  | Star cls => List.map (fun ms => (fst ms, snd ms, cs)) (splitsStar cls s)
  | Cat r1 r2 =>
      List.flat_map
        (fun m1 =>
           match m1 with
           | (t1, rest1, cs1) =>
               List.map (fun m2 => match m2 with
                                   | (t2, rest2, cs2) => (t1 ++ t2, rest2, cs2)
                                   end)
                        (run r2 (atStart && isEmpty t1) rest1 cs1)
           end)
        (run r1 atStart s cs)
  | Quest r' => run r' atStart s cs ++ ("", s, cs) :: nil
  | Group n r' =>
      List.map (fun m => match m with
                         | (t, rest, cs') => (t, rest, (n, t) :: cs')
                         end)
               (run r' atStart s cs)
  | BeginText => if atStart then ("", s, cs) :: nil else nil
  | EndText => if isEmpty s then ("", s, cs) :: nil else nil
  end.

(** The leftmost position at which [r] matches, with the preferred match
    there. *)
Fixpoint search (r : regex) (atStart : bool) (s : string) : option (string * captures) :=
  match run r atStart s nil with
  | (t, _, cs) :: _ => Some (t, cs)
  | nil =>
      match s with
      | "" => None
      | String _ s' => search r false s'
      end
  end.

Fixpoint NumSubexp (r : regex) : nat :=
  match r with
  | Cat r1 r2 => Nat.max (NumSubexp r1) (NumSubexp r2)
  | Quest r' => NumSubexp r'
  | Group n r' => Nat.max n (NumSubexp r')
  | _ => 0%nat
  end.

Fixpoint group (cs : captures) (n : nat) : string :=
  match cs with
  | nil => ""
  | (k, t) :: cs' => if Nat.eqb k n then t else group cs' n
  end.

(** [Regexp.FindStringSubmatch]: the whole match followed by the text
    of each group, the empty string for a group that took no part; the
    nil slice when there is no match. *)
Definition FindStringSubmatch (r : regex) (s : string) : list string :=
  match search r true s with
  | Some (t, cs) => t :: List.map (group cs) (List.seq 1 (NumSubexp r))
  | None => nil
  end.

End Regexp.

(** ** fmt

    The part of [Fprintf] that the format string of [formatZone] can reach
    for any column width: literal bytes, the flags [-] and [0], a decimal
    width, the verbs [s], [d] and [v] on strings and ints, and the error
    texts for a width that is too large, a missing operand, a verb of the
    wrong type and operands left over.  Other flags, precisions, argument
    indexes and other verbs are outside the model and print as a bad
    verb. *)

Module Fmt.

Inductive arg : Type :=
  | AString (s : string)
  | AInt (i : Z).

Inductive pstate : Type :=
  | Lit
  | Flags (minus zero : bool)
  | Width (minus zero : bool) (num : Z).

Definition spaces (n : nat) : string := repeatByte " " n.

(** [padString] and [pad] of the formatter: the width counts runes. *)
Definition pad (minus zero : bool) (wid : option Z) (s : string) : string :=
  match wid with
  | None => s
  | Some w =>
      if w =? 0 then s
      else
        let n := Z.to_nat (w - Z.of_nat (Utf8.RuneCountInString s)) in
        if minus then s ++ spaces n
        else if zero then repeatByte "0" n ++ s
        else spaces n ++ s
  end.

(** [fmtInteger] in base 10 without precision, plus or space. *)
Definition fmtInteger (minus zero : bool) (wid : option Z) (i : Z) : string :=
  let digits := Strconv.FormatUint (Z.abs i) in
  let sign := if i <? 0 then "-" else "" in
  match wid with
  | Some w =>
      if zero && negb minus then
        let prec := if i <? 0 then w - 1 else w in
        sign ++ repeatByte "0" (Z.to_nat (prec - Z.of_nat (String.length digits))) ++ digits
      else pad minus false wid (sign ++ digits)
  | None => sign ++ digits
  end.

Definition typeName (a : arg) : string :=
  match a with AString _ => "string" | AInt _ => "int" end.

Definition valueText (a : arg) : string :=
  match a with AString s => s | AInt i => Strconv.FormatInt i end.

(** [printArg]: one operand under one verb. *)
Definition printArg (minus zero : bool) (wid : option Z) (verb : ascii) (a : arg) : string :=
  match a with
  | AString s =>
      if Ascii.eqb verb "s" || Ascii.eqb verb "v" then pad minus zero wid s
      else "%!" ++ String verb ("(string=" ++ s ++ ")")
  | AInt i =>
      if Ascii.eqb verb "d" || Ascii.eqb verb "v" then fmtInteger minus zero wid i
      else "%!" ++ String verb ("(int=" ++ Strconv.FormatInt i ++ ")")
  end.

Definition printVerb (minus zero : bool) (wid : option Z) (verb : ascii) (a : list arg)
  : string * list arg :=
  match a with
  | nil => ("%!" ++ String verb "(MISSING)", nil)
  | x :: a' => (printArg minus zero wid verb x, a')
  end.

Fixpoint extraList (a : list arg) : string :=
  match a with
  | nil => ""
  | x :: nil => typeName x ++ "=" ++ valueText x
  | x :: a' => typeName x ++ "=" ++ valueText x ++ ", " ++ extraList a'
  end.

(** The operands no verb consumed. *)
Definition extra (a : list arg) : string :=
  match a with
  | nil => ""
  | _ => "%!(EXTRA " ++ extraList a ++ ")"
  end.

(** [tooLarge]: the bound of [parsenum] on a width read so far. *)
Definition tooLarge (x : Z) : bool := (1000000 <? x) || (x <? -1000000).

(** [doPrintf], one byte of the format at a time. *)
Fixpoint doPrintf (st : pstate) (format : string) (a : list arg) : string :=
  match format with
  | "" =>
      match st with
      | Lit => extra a
      | _ => "%!(NOVERB)" ++ extra a
      end
  | String c rest =>
      match st with
      | Lit =>
          if Ascii.eqb c "%" then doPrintf (Flags false false) rest a
          else String c (doPrintf Lit rest a)
      | Flags minus zero =>
          if Ascii.eqb c "-" then doPrintf (Flags true false) rest a
          else if Ascii.eqb c "0" then doPrintf (Flags minus (negb minus)) rest a
          else if Strconv.isDigit c then doPrintf (Width minus zero (Strconv.digitVal c)) rest a
          else
            let '(piece, a') := printVerb minus zero None c a in
            piece ++ doPrintf Lit rest a'
      | Width minus zero num =>
          if Strconv.isDigit c then
            if tooLarge num then "%!(NOVERB)" ++ extra a
            else doPrintf (Width minus zero (num * 10 + Strconv.digitVal c)) rest a
          else
            let '(piece, a') := printVerb minus zero (Some num) c a in
            piece ++ doPrintf Lit rest a'
      end
  end.

Definition Sprintf (format : string) (a : list arg) : string := doPrintf Lit format a.

End Fmt.

(** ** float64

    IEEE 754 binary64 with round to nearest even, by the executable
    specification of the Standard Library. *)

Module Float64.

Definition prec : Z := 53.
Definition emax : Z := 1024.

(** [float64(i)] for an integer [i]. *)
Definition ofInt (i : Z) : spec_float := binary_normalize prec emax i 0 false.

Definition add : spec_float -> spec_float -> spec_float := SFadd prec emax.
Definition mul : spec_float -> spec_float -> spec_float := SFmul prec emax.
Definition div : spec_float -> spec_float -> spec_float := SFdiv prec emax.

(** [int64(f)] and [uint64(f)] for a finite [f] whose integer part is in
    range: the fraction is discarded.  (Go leaves the other conversions
    to the implementation; the program never performs one.) *)
Definition toInt (f : spec_float) : Z :=
  match f with
  | S754_finite s m e =>
      let magnitude := if 0 <=? e then Z.pos m * 2 ^ e else Z.pos m / 2 ^ (- e) in
      if s then - magnitude else magnitude
  | _ => 0
  end.

End Float64.

(** ** time *)

Module Time.

Definition Second : Z := 1000000000.

Definition two63 : Z := 2 ^ 63.
Definition two64 : Z := 2 ^ 64.

(** [leadingInt]: the leading digits of [s] as a number, and the rest;
    [None] on overflow.  [x] is the value read so far. *)
Fixpoint leadingInt (s : string) (x : Z) : option (Z * string) :=
  match s with
  | "" => Some (x, "")
  | String c s' =>
      if negb (Strconv.isDigit c) then Some (x, s)
      else if two63 / 10 <? x then None
      else
        let x' := x * 10 + Strconv.digitVal c in
        if two63 <? x' then None else leadingInt s' x'
  end.

(** [leadingFraction]: the leading digits of [s] as a numerator [x] and a
    power of ten [scale]; digits that would overflow are dropped. *)
Fixpoint leadingFraction (s : string) (x : Z) (scale : spec_float) (overflow : bool)
  : Z * spec_float * string :=
  match s with
  | "" => (x, scale, "")
  | String c s' =>
      if negb (Strconv.isDigit c) then (x, scale, s)
      else if overflow then leadingFraction s' x scale true
      else if (two63 - 1) / 10 <? x then leadingFraction s' x scale true
      else
        let y := x * 10 + Strconv.digitVal c in
        if two63 <? y then leadingFraction s' x scale true
        else leadingFraction s' y (Float64.mul scale (Float64.ofInt 10)) false
  end.

(** The unit: the bytes up to the next [.] or digit. *)
Fixpoint unitText (s : string) : string * string :=
  match s with
  | "" => ("", "")
  | String c s' =>
      if Ascii.eqb c "." || Strconv.isDigit c then ("", s)
      else let '(u, rest) := unitText s' in (String c u, rest)
  end.

Definition micro : string := String (byteOf 194) (String (byteOf 181) "s"). (* U+00B5 *)
Definition mu : string := String (byteOf 206) (String (byteOf 188) "s").    (* U+03BC *)

Definition unitMap (u : string) : option Z :=
  if String.eqb u "ns" then Some 1
  else if String.eqb u "us" then Some 1000
  else if String.eqb u micro then Some 1000
  else if String.eqb u mu then Some 1000
  else if String.eqb u "ms" then Some 1000000
  else if String.eqb u "s" then Some Second
  else if String.eqb u "m" then Some (60 * Second)
  else if String.eqb u "h" then Some (3600 * Second)
  else None.

(** The loop of [ParseDuration] over the terms of the duration; [d] is
    the sum so far, a [uint64]. *)
Fixpoint parseTerms (fuel : nat) (orig s : string) (d : Z) : result Z :=
  match s with
  | "" => Ok d
  | String c _ =>
      match fuel with
      | O => Ok d
      | S fuel' =>
          if negb (Ascii.eqb c "." || Strconv.isDigit c) then Err (ErrInvalidDuration orig)
          else
            match leadingInt s 0 with
            | None => Err (ErrInvalidDuration orig)
            | Some (v, s1) =>
                let pre := negb (String.length s =? String.length s1)%nat in
                let '(f, scale, s2, post) :=
                  match s1 with
                  | String "." s1' =>
                      let '(f, scale, s2) := leadingFraction s1' 0 (Float64.ofInt 1) false in
                      (f, scale, s2, negb (String.length s1' =? String.length s2)%nat)
                  | _ => (0, Float64.ofInt 1, s1, false)
                  end in
                if negb pre && negb post then Err (ErrInvalidDuration orig)
                else
                  let '(u, s3) := unitText s2 in
                  if Regexp.isEmpty u then Err (ErrMissingUnit orig)
                  else
                    match unitMap u with
                    | None => Err (ErrUnknownUnit u orig)
                    | Some unit =>
                        if two63 / unit <? v then Err (ErrInvalidDuration orig)
                        else
                          let v1 := v * unit in
                          let v2 :=
                            if 0 <? f then
                              (v1 + Float64.toInt
                                      (Float64.mul (Float64.ofInt f)
                                         (Float64.div (Float64.ofInt unit) scale)))
                              mod two64
                            else v1 in
                          if two63 <? v2 then Err (ErrInvalidDuration orig)
                          else
                            let d' := (d + v2) mod two64 in
                            if two63 <? d' then Err (ErrInvalidDuration orig)
                            else parseTerms fuel' orig s3 d'
                    end
            end
      end
  end.

(** [time.ParseDuration]: the duration in nanoseconds. *)
Definition ParseDuration (orig : string) : result Z :=
  let '(neg, s) :=
    match orig with
    | String c s' =>
        if Ascii.eqb c "-" || Ascii.eqb c "+" then (Ascii.eqb c "-", s') else (false, orig)
    | "" => (false, orig)
    end in
  if String.eqb s "0" then Ok 0
  else if Regexp.isEmpty s then Err (ErrInvalidDuration orig)
  else
    let* d := parseTerms (String.length s) orig s 0 in
    if neg then Ok (- d)
    else if two63 - 1 <? d then Err (ErrInvalidDuration orig)
    else Ok d.

(** [Duration.Seconds]: [float64(d / Second) + float64(d % Second) / 1e9]. *)
Definition Seconds (d : Z) : spec_float :=
  Float64.add (Float64.ofInt (Z.quot d Second))
              (Float64.div (Float64.ofInt (Z.rem d Second)) (Float64.ofInt Second)).

End Time.

(** ** bufio *)

Module Bufio.

Definition MaxScanTokenSize : Z := 64 * 1024.

(** The input cut at every newline; a last line without a newline counts
    when it is not empty. *)
Fixpoint rawLines (s : string) : list string :=
  match s with
  | "" => nil
  | String c s' =>
      if Ascii.eqb c newline then "" :: rawLines s'
      else match rawLines s' with
           | nil => String c "" :: nil
           | l :: ls => String c l :: ls
           end
  end.

(** [dropCR]: one trailing carriage return is removed. *)
Fixpoint dropCR (s : string) : string :=
  match s with
  | "" => ""
  | String c "" => if Ascii.eqb c carriageReturn then "" else s
  | String c s' => String c (dropCR s')
  end.

(** A line fits when it and its newline fit in the scanner's buffer,
    which never grows beyond [MaxScanTokenSize]; a last line without a
    newline needs the same room for the end of the input to be seen. *)
Definition fits (l : string) : bool := Z.of_nat (String.length l) <? MaxScanTokenSize.

Fixpoint takeFitting (ls : list string) : list string :=
  match ls with
  | nil => nil
  | l :: ls' => if fits l then l :: takeFitting ls' else nil
  end.

(** The tokens that the calls of [Scan] deliver for a [Scanner] with the
    default split function [ScanLines]: [Scan] returns false at the end
    of the input and at the first line that does not fit (the program
    does not look at [Err]). *)
Definition scanLines (input : string) : list string :=
  List.map dropCR (takeFitting (rawLines input)).

End Bufio.

(** ** sort

    [sort.Sort] promises a result in ascending order by [Less] and nothing
    about the order of elements that compare equal; which permutation it
    returns depends on the release of Go.  The program is therefore
    modelled over any sorting function, and the theorems that rely on the
    result of the sort assume the contract [sorts].  [insertionSort] is the
    algorithm current releases run on up to twelve elements; it meets the
    contract and serves to evaluate the program. *)

Module GoSort.

Definition sorter : Type := forall A : Type, (A -> A -> bool) -> list A -> list A.

(** [less] is a strict weak order. *)
Record strictWeak {A : Type} (less : A -> A -> bool) : Prop := {
  sw_irrefl : forall a, less a a = false;
  sw_trans : forall a b c, less a b = true -> less b c = true -> less a c = true;
  sw_incomp : forall a b c, less a b = false -> less b c = false -> less a c = false
}.

(** No element is less than an earlier one. *)
Definition ascending {A : Type} (less : A -> A -> bool) (l : list A) : Prop :=
  StronglySorted (fun a b => less b a = false) l.

Definition sorts (srt : sorter) : Prop :=
  forall (A : Type) (less : A -> A -> bool) (l : list A),
    Permutation l (srt A less l) /\ (strictWeak less -> ascending less (srt A less l)).

(** [x] moves towards the front of the sorted prefix, kept in reverse,
    past every element it is less than. *)
Fixpoint insertBack {A : Type} (less : A -> A -> bool) (x : A) (revPrefix : list A) : list A :=
  match revPrefix with
  | nil => x :: nil
  | y :: ys => if less x y then y :: insertBack less x ys else x :: revPrefix
  end.

Definition insertionSort : sorter :=
  fun A less l => List.rev (List.fold_left (fun acc x => insertBack less x acc) l nil).

End GoSort.

(** ** The program *)

Record record : Type := {
  Name : string;
  TTL : Z;
  Class : string;
  RType : string;   (* the field [Type] *)
  Data : string
}.

(** The initial value of the package variable [sorting].  [init] overlays
    the pairs of the [--sort] flag, whose default repeats these three. *)
Definition defaultSorting : gmap string N :=
  <["SOA" := 0%N]> (<["NS" := 10%N]> (<["MX" := 20%N]> ∅)).

(** The score that [Less] gives a record: its entry in [sorting], or 100. *)
Definition score (sorting : gmap string N) (r : record) : N :=
  match sorting !! RType r with
  | Some sc => sc
  | None => 100%N
  end.

(** [records.Less] on the two records at the given indices. *)
Definition Less (sorting : gmap string N) (ri rj : record) : bool :=
  let sci := score sorting ri in
  let scj := score sorting rj in
  if negb (sci =? scj)%N then (sci <? scj)%N
  else String.ltb (Name ri) (Name rj).

(** [records.Len]. *)
Definition Len (r : list record) : Z := Z.of_nat (List.length r).

(** [r[i]] for an [int] index: a panic when [i] is negative or not below
    the length. *)
Definition elemAt (r : list record) (i : Z) : result record :=
  if (0 <=? i) && (i <? Len r) then
    match r !! Z.to_nat i with
    | Some x => Ok x
    | None => Panic
    end
  else Panic.

(** [records.Swap]: both elements are read, then [r[i]] and [r[j]] are
    written in that order; the slice after the call. *)
Definition Swap (r : list record) (i j : Z) : result (list record) :=
  let* rj := elemAt r j in
  let* ri := elemAt r i in
  Ok (<[Z.to_nat j := ri]> (<[Z.to_nat i := rj]> r)).

(** The pattern of [parseRecord], compiled by [regexp.MustCompile]: the
    anchor [^], the groups and separators
    [(\S+)\s+(?:([0-9]+)\s+)?(\S+)\s+(\S+)\s+], a fifth group holding any
    number of [.], and the anchor [$]. *)
Definition rex : Regexp.regex :=
  let seq := List.fold_right Regexp.Cat Regexp.EndText in
  seq (Regexp.BeginText
       :: Regexp.Group 1 (Regexp.Plus Regexp.notSpace)
       :: Regexp.Plus Regexp.space
       :: Regexp.Quest (Regexp.Cat (Regexp.Group 2 (Regexp.Plus Regexp.digit))
                                   (Regexp.Plus Regexp.space))
       :: Regexp.Group 3 (Regexp.Plus Regexp.notSpace)
       :: Regexp.Plus Regexp.space
       :: Regexp.Group 4 (Regexp.Plus Regexp.notSpace)
       :: Regexp.Plus Regexp.space
       :: Regexp.Group 5 (Regexp.Star Regexp.anyChar)
       :: nil).

Definition len (s : string) : Z := Z.of_nat (String.length s).

Definition withName (r : record) (n : string) : record :=
  {| Name := n; TTL := TTL r; Class := Class r; RType := RType r; Data := Data r |}.
Definition withTTL (r : record) (t : Z) : record :=
  {| Name := Name r; TTL := t; Class := Class r; RType := RType r; Data := Data r |}.
Definition withData (r : record) (d : string) : record :=
  {| Name := Name r; TTL := TTL r; Class := Class r; RType := RType r; Data := d |}.

Inductive logEntry : Type :=
  | WarnUnknownDirective (line : string)   (* Warn("Unknown directive") *)
  | ErrorUnparsable (e : error).           (* Error("Unparsable record, ignoring") *)

(** The variables of [formatZone] that the loop over the lines updates. *)
Record state : Type := {
  zone : string;
  ttl : Z;
  rr : list record
}.

Definition initial : state := {| zone := ""; ttl := 0; rr := nil |}.

(** *** Start-up

    The variable [cfg] as [rconfig.Parse] fills it from the command line. *)
Record config : Type := {
  SpecialSort : string;
  WriteBack : bool;
  VersionAndExit : bool
}.

(** What the program says when it ends the process itself. *)
Inductive message : Type :=
  | VersionText (text : string)                     (* printed on standard output *)
  | UnableToParseOptions                            (* Fatalf *)
  | ScoringEntryBroken (entry : string) (e : error) (* Fatal *)
  | UnableToOpenForRead (zf : string)               (* Fatal *)
  | UnableToFormat (e : error)                      (* Fatal *)
  | UnableToOpenForWrite (zf : string).             (* Fatal *)

(** A function of the program returns, ends the process with [os.Exit]
    (directly, or with status 1 from [log.Fatal]), or panics. *)
Inductive outcome (A : Type) : Type :=
  | Returns (a : A)
  | Exit (status : Z) (said : message)
  | Crash.

Arguments Returns {A} a.
Arguments Exit {A} status said.
Arguments Crash {A}.

(** One turn of the loop of [init] on the entry [scor] of the [--sort]
    flag: [parts[1]] is read before [parts[0]]. *)
Definition applyScore (sorting : gmap string N) (scor : string) : outcome (gmap string N) :=
  if String.eqb scor "" then Returns sorting
  else
    let parts := Strings.SplitN2 scor "=" in
    match index parts 1 with
    | Ok p1 =>
        match Strconv.ParseUint p1 with
        | Ok sc =>
            match index parts 0 with
            | Ok p0 => Returns (<[p0 := Z.to_N sc]> sorting)
            | _ => Crash
            end
        | Err e => Exit 1 (ScoringEntryBroken scor e)
        | Panic => Crash
        end
    | _ => Crash
    end.

Fixpoint applyScores (sorting : gmap string N) (entries : list string)
  : outcome (gmap string N) :=
  match entries with
  | nil => Returns sorting
  | scor :: rest =>
      match applyScore sorting scor with
      | Returns sorting' => applyScores sorting' rest
      | Exit status said => Exit status said
      | Crash => Crash
      end
  end.

(** [init]: the value of [sorting] when [init] returns.  [parsed] is the
    configuration, or [None] when [rconfig.Parse] returns an error;
    [version] is the package variable the linker sets. *)
Definition init (version : string) (parsed : option config) : outcome (gmap string N) :=
  match parsed with
  | None => Exit 1 UnableToParseOptions
  | Some cfg =>
      if VersionAndExit cfg then
        Exit 0 (VersionText (Fmt.Sprintf ("zonefmt %s" ++ String newline "")
                               (Fmt.AString version :: nil)))
      else applyScores defaultSorting (Strings.Split (SpecialSort cfg) ",")
  end.

(** *** The files

    The part of the operating system that [main] uses: the files by path,
    each with its content and whether it can be opened for writing, the
    text written to standard output and what [formatZone] logged. *)
Record file : Type := {
  content : string;
  writable : bool
}.

Record world : Type := {
  files : gmap string file;
  stdout : string;
  stderr : list logEntry
}.

(** ** Notions used in the statements *)

Definition startsWith (s : string) (c : ascii) : bool :=
  match s with
  | String a _ => Ascii.eqb a c
  | "" => false
  end.

(** The byte [c] does not occur in [s]. *)
Fixpoint noByte (c : ascii) (s : string) : bool :=
  match s with
  | "" => true
  | String a s' => negb (Ascii.eqb a c) && noByte c s'
  end.

(** The byte is printable ASCII other than the double quote and the
    backslash. *)
Definition plainByte (c : ascii) : bool :=
  (32 <=? byteZ c) && (byteZ c <=? 126) && negb (Ascii.eqb c quoteChar)
  && negb (Ascii.eqb c backslash).

Fixpoint allBytes (p : ascii -> bool) (s : string) : bool :=
  match s with
  | "" => true
  | String c s' => p c && allBytes p s'
  end.

(** The run produced no text: [formatZone] returned an error or panicked. *)
Definition noOutput (r : result string) : Prop := forall out, r <> Ok out.

Definition tab : ascii := "009"%char.

Fixpoint takeWhile (p : ascii -> bool) (s : string) : string :=
  match s with
  | "" => ""
  | String c s' => if p c then String c (takeWhile p s') else ""
  end.

Fixpoint dropWhile (p : ascii -> bool) (s : string) : string :=
  match s with
  | "" => ""
  | String c s' => if p c then dropWhile p s' else s
  end.

Definition startsIn (p : ascii -> bool) (s : string) : bool :=
  match s with
  | String c _ => p c
  | "" => false
  end.

(** The number that the decimal digits of [s] denote, after the digits
    that gave [acc]. *)
Fixpoint decimal (acc : Z) (s : string) : Z :=
  match s with
  | "" => acc
  | String c s' => decimal (acc * 10 + Strconv.digitVal c) s'
  end.

(** [s] followed by spaces up to [w] runes: left-justified in a column. *)
Definition padRight (w : Z) (s : string) : string :=
  s ++ Fmt.spaces (Z.to_nat (w - Z.of_nat (Utf8.RuneCountInString s))).

(** [s] preceded by spaces up to [w] runes: right-aligned in a column. *)
Definition padLeft (w : Z) (s : string) : string :=
  Fmt.spaces (Z.to_nat (w - Z.of_nat (Utf8.RuneCountInString s))) ++ s.

Definition asciiByte (c : ascii) : bool := byteZ c <? 128.

(** The line that the renderer writes for [r] when the name column is
    [w] wide: the five columns, one space between them, and a newline. *)
Definition columns (w : Z) (r : record) : string :=
  padRight w (Name r) ++ " " ++ padLeft 5 (Strconv.FormatInt (TTL r)) ++ " "
  ++ Class r ++ " " ++ padRight 5 (RType r) ++ " " ++ Data r ++ String newline "".

(** The answer of the Unicode tables is never asked for on ASCII input;
    this stand-in serves to evaluate the program on such input. *)
Definition noWideRunes : Z -> bool := fun _ => false.

Definition lf : string := String newline "".
Definition dq : string := String quoteChar "".
Definition bs : string := String backslash "".

(** The line of [columns] without its newline, with the blanks between two
    fields taken together. *)
Definition lineBody (w : Z) (r : record) : string :=
  Name r
  ++ (Fmt.spaces (Z.to_nat (w - Z.of_nat (Utf8.RuneCountInString (Name r)))) ++ " "
      ++ Fmt.spaces (Z.to_nat (5 - Z.of_nat (Utf8.RuneCountInString
                                               (Strconv.FormatInt (TTL r))))))
  ++ Strconv.FormatInt (TTL r)
  ++ " " ++ Class r
  ++ " " ++ RType r
  ++ (Fmt.spaces (Z.to_nat (5 - Z.of_nat (Utf8.RuneCountInString (RType r)))) ++ " ")
  ++ Data r.

(** What every record that [parseRecord] returns for a scanned line
    satisfies: class and type are words, the data is what follows the blanks
    after the type, up to the end of the line, and TXT data begins with a
    double quote. *)
Record fieldsFromLine (r : record) : Prop := {
  ffl_class : Class r <> "" /\ allBytes Regexp.notSpace (Class r) = true;
  ffl_type : RType r <> "" /\ allBytes Regexp.notSpace (RType r) = true;
  ffl_data_start : startsIn Regexp.space (Data r) = false;
  ffl_data_line : noByte newline (Data r) = true;
  ffl_txt : RType r = "TXT" -> startsWith (Data r) quoteChar = true
}.

(** What a record must satisfy besides for its rendered line to be read
    back as the same record when no directive precedes it: the name is a
    word that ends in a dot and does not begin with [$], the TTL is not
    negative, and the data does not end in a carriage return. *)
Record rereadable (r : record) : Prop := {
  rer_name_word : allBytes Regexp.notSpace (Name r) = true;
  rer_name_dot : Strings.HasSuffixByte (Name r) "." = true;
  rer_name_dollar : startsWith (Name r) "$" = false;
  rer_ttl : 0 <= TTL r < 2 ^ 63;
  rer_data_cr : Strings.HasSuffixByte (Data r) carriageReturn = false
}.

(** The sort returns a list that is in order as it is. *)
Definition keepsAscending (srt : GoSort.sorter) : Prop :=
  forall (A : Type) (less : A -> A -> bool) (l : list A),
    GoSort.ascending less l -> srt A less l = l.

(** No two different records have the same score and the same name. *)
Definition noTies (sorting : gmap string N) (records : list record) : Prop :=
  forall a b, In a records -> In b records ->
    score sorting a = score sorting b -> Name a = Name b -> a = b.

(** A word: a non-empty string without a blank.  Blanks: a non-empty
    string of blanks. *)
Definition isWord (s : string) : bool :=
  negb (Regexp.isEmpty s) && allBytes Regexp.notSpace s.

Definition isBlanks (s : string) : bool :=
  negb (Regexp.isEmpty s) && allBytes Regexp.space s.

(** A non-empty string of decimal digits. *)
Definition isNumber (s : string) : bool :=
  negb (Regexp.isEmpty s) && allBytes Strconv.isDigit s.

(** The text after the blanks of a line that is not taken apart further:
    it does not begin with a blank and holds no newline. *)
Definition isRest (s : string) : bool :=
  negb (startsIn Regexp.space s) && noByte newline s.

(** The owner name that [parseRecord] makes of the name field [n] under
    the origin [zone]. *)
Definition resolvedName (n zone : string) : string :=
  let n := if String.eqb n "@" then "" else n in
  if Strings.HasSuffixByte n "." then n
  else Strings.TrimLeftByte (n ++ "." ++ zone) ".".

Definition cr : string := String carriageReturn "".
Definition crlf : string := String carriageReturn (String newline "").

(** The text is empty or its last line is complete. *)
Definition wholeLines (s : string) : Prop :=
  s = "" \/ Strings.HasSuffixByte s newline = true.

(** The text of an entry of the [--sort] flag: a type, the sign [=] and a
    score in decimal digits, or nothing at all (as between two commas). *)
Definition entryText (item : option (string * Z)) : string :=
  match item with
  | Some (k, v) => k ++ "=" ++ Strconv.FormatUint v
  | None => ""
  end.

(** The flag that lists the entries, with commas between them. *)
Definition flagOf (items : list (option (string * Z))) : string :=
  Strings.Join (List.map entryText items) ",".

Definition scoresOf (items : list (option (string * Z))) : list (string * Z) :=
  List.flat_map (fun item => match item with Some p => p :: nil | None => nil end) items.

(** The table with the pairs written into it, one after the other. *)
Definition overlay (pairs : list (string * Z)) (table : gmap string N) : gmap string N :=
  List.fold_left (fun m p => <[fst p := Z.to_N (snd p)]> m) pairs table.

(** An entry the loop of [init] accepts: the type holds neither a comma
    nor the sign [=], and the score is below 2^64. *)
Definition goodItem (item : option (string * Z)) : Prop :=
  match item with
  | Some (k, v) => noByte "," k = true /\ noByte "=" k = true /\ 0 <= v < 2 ^ 64
  | None => True
  end.

(** The units of whole seconds that [time.ParseDuration] knows, and a
    duration written as numbers with such units, as in [1h30m]. *)
Inductive wholeUnit : Type := Hours | Minutes | Secs.

Definition unitName (u : wholeUnit) : string :=
  match u with Hours => "h" | Minutes => "m" | Secs => "s" end.

Definition unitSeconds (u : wholeUnit) : Z :=
  match u with Hours => 3600 | Minutes => 60 | Secs => 1 end.

Definition durationText (terms : list (string * wholeUnit)) : string :=
  List.fold_right (fun t rest => fst t ++ unitName (snd t) ++ rest) "" terms.

Definition durationSeconds (terms : list (string * wholeUnit)) : Z :=
  List.fold_right (fun t rest => decimal 0 (fst t) * unitSeconds (snd t) + rest) 0 terms.

(** Files to run [main] on: a zone file of two records, out of order, and
    one with a line of three fields. *)
Definition zoneDb : file :=
  {| content := "b. IN A 1.2.3.4" ++ lf ++ "a. IN A 1.2.3.4" ++ lf; writable := true |}.

Definition badDb : file := {| content := "www IN A" ++ lf; writable := true |}.

Definition someFiles : world :=
  {| files := <["zone.db" := zoneDb]> (<["bad.db" := badDb]> ∅); stdout := ""; stderr := nil |}.

(** The number of runes of [s], as [utf8.RuneCountInString] counts them. *)
Definition runes (s : string) : Z := Z.of_nat (Utf8.RuneCountInString s).

(** The letter e with an acute accent, U+00E9, in UTF-8: two bytes, one
    rune. *)
Definition eAcute : string := String (byteOf 195) (String (byteOf 169) "").

(** *** The pattern read as a scanner

    [tokenize] reads a record line field by field, the way the pattern of
    [parseRecord] does: a field is a run of bytes of one class that is
    followed by at least one blank. *)

Record tokens : Type := {
  tkName : string;
  tkTTL : string;    (* empty when the line has no TTL field *)
  tkClass : string;
  tkType : string;
  tkData : string
}.

(** A non-empty run of bytes in [cls] followed by a blank: the run and the
    text after the blanks. *)
Definition field (cls : ascii -> bool) (s : string) : option (string * string) :=
  if startsIn cls s && startsIn Regexp.space (dropWhile cls s)
  then Some (takeWhile cls s, dropWhile Regexp.space (dropWhile cls s))
  else None.

(** Class, type and data: the data runs to the end of the line and holds
    no newline. *)
Definition classTypeData (s : string) : option (string * string * string) :=
  match field Regexp.notSpace s with
  | Some (c, s1) =>
      match field Regexp.notSpace s1 with
      | Some (t, d) => if noByte newline d then Some (c, t, d) else None
      | None => None
      end
  | None => None
  end.

(** A numeric second field is the TTL when class, type and data follow it;
    otherwise the line is read without a TTL. *)
Definition tokenize (line : string) : option tokens :=
  match field Regexp.notSpace line with
  | None => None
  | Some (n, s1) =>
      let withTTL :=
        match field Regexp.digit s1 with
        | Some (t, s2) =>
            match classTypeData s2 with
            | Some ctd => Some (t, ctd)
            | None => None
            end
        | None => None
        end in
      match withTTL with
      | Some (t, (c, ty, d)) =>
          Some {| tkName := n; tkTTL := t; tkClass := c; tkType := ty; tkData := d |}
      | None =>
          match classTypeData s1 with
          | Some (c, ty, d) =>
              Some {| tkName := n; tkTTL := ""; tkClass := c; tkType := ty; tkData := d |}
          | None => None
          end
      end
  end.

(** The pieces of the pattern, from its end. *)
Definition rexData : Regexp.regex :=
  Regexp.Cat (Regexp.Group 5 (Regexp.Star Regexp.anyChar)) Regexp.EndText.
Definition rexType : Regexp.regex :=
  Regexp.Cat (Regexp.Group 4 (Regexp.Plus Regexp.notSpace))
             (Regexp.Cat (Regexp.Plus Regexp.space) rexData).
Definition rexClass : Regexp.regex :=
  Regexp.Cat (Regexp.Group 3 (Regexp.Plus Regexp.notSpace))
             (Regexp.Cat (Regexp.Plus Regexp.space) rexType).
Definition rexTTL : Regexp.regex :=
  Regexp.Quest (Regexp.Cat (Regexp.Group 2 (Regexp.Plus Regexp.digit))
                           (Regexp.Plus Regexp.space)).

Arguments rexData : simpl never.
Arguments rexType : simpl never.
Arguments rexClass : simpl never.
Arguments rexTTL : simpl never.

(** The pattern ends with [$]. *)
Fixpoint anchored (r : Regexp.regex) : bool :=
  match r with
  | Regexp.EndText => true
  | Regexp.Cat _ r2 => anchored r2
  | _ => false
  end.

(** The captures of the preferred match, when there is a match. *)
Definition firstCaps (r : Regexp.regex) (atStart : bool) (s : string) (cs : Regexp.captures)
  : option Regexp.captures :=
  option_map snd (hd_error (Regexp.run r atStart s cs)).

(** [r] matches nowhere at a position that holds a byte of [cls]. *)
Definition rejects (cls : ascii -> bool) (r : Regexp.regex) : Prop :=
  forall c s atStart cs, cls c = true -> Regexp.run r atStart (String c s) cs = nil.

Section Program.

(** The package variable [sorting], fixed once [init] has run. *)
Variable sorting : gmap string N.

(** The tables of [strconv.IsPrint] for the runes above U+00FF. *)
Variable isPrintWide : Z -> bool.

(** The algorithm behind [sort.Sort]. *)
Variable sortImpl : GoSort.sorter.

Definition parseRecord (line defaultZone : string) (defaultTTL : Z) : result record :=
  let matches := Regexp.FindStringSubmatch rex line in
  let* m2 := index matches 2 in
  let* ttl :=
    (if negb (String.eqb m2 "") then Strconv.ParseInt m2 else Ok defaultTTL) in
  let* m1 := index matches 1 in
  let* m3 := index matches 3 in
  let* m4 := index matches 4 in
  let* m5 := index matches 5 in
  let rec := {| Name := m1; TTL := ttl; Class := m3; RType := m4; Data := m5 |} in
  let rec := if String.eqb (Name rec) "@" then withName rec "" else rec in
  let rec :=
    if negb (Strings.HasSuffixByte (Name rec) ".")
    then withName rec
           (Strings.TrimLeftByte (Strings.Join (Name rec :: defaultZone :: nil) ".") ".")
    else rec in
  let rec := if TTL rec =? 0 then withTTL rec defaultTTL else rec in
  if String.eqb (RType rec) "TXT" then
    let* d0 := byteAt (Data rec) 0 in
    if negb (Ascii.eqb d0 quoteChar)
    then Ok (withData rec (Strconv.Quote isPrintWide (Data rec)))
    else Ok rec
  else Ok rec.

(** One turn of the loop of [formatZone] on the line [text]: the new
    state and what the turn logs. *)
Definition processLine (st : state) (text : string) : result (state * list logEntry) :=
  let* c0 := byteAt text 0 in
  if Ascii.eqb c0 "$" then
    let parts := Strings.SplitN2 text " " in
    let* p0 := index parts 0 in
    if String.eqb p0 "$ORIGIN" then
      let* p1 := index parts 1 in
      Ok ({| zone := p1; ttl := ttl st; rr := rr st |}, nil)
    else if String.eqb p0 "$TTL" then
      let* p1 := index parts 1 in
      let* t := Time.ParseDuration p1 in
      Ok ({| zone := zone st; ttl := Float64.toInt (Time.Seconds t); rr := rr st |}, nil)
    else Ok (st, WarnUnknownDirective text :: nil)
  else
    match parseRecord text (zone st) (ttl st) with
    | Ok rec => Ok ({| zone := zone st; ttl := ttl st; rr := (rr st ++ rec :: nil)%list |}, nil)
    | Err e => Ok (st, ErrorUnparsable e :: nil)
    | Panic => Panic
    end.

(** The loop over the scanned lines: what was logged, and the final
    state unless a line made the function return or panic. *)
Fixpoint scanLoop (st : state) (lines : list string) : list logEntry * result state :=
  match lines with
  | nil => (nil, Ok st)
  | text :: rest =>
      match processLine st text with
      | Ok (st', logged) =>
          let '(later, final) := scanLoop st' rest in ((logged ++ later)%list, final)
      | Err e => (nil, Err e)
      | Panic => (nil, Panic)
      end
  end.

Definition sortRecords (records : list record) : list record :=
  sortImpl record (Less sorting) records.

Definition maxNameLen (records : list record) : Z :=
  List.fold_left (fun maxLen r => if maxLen <? len (Name r) then len (Name r) else maxLen)
                 records 0.

Definition lineFormat (maxLen : Z) : string :=
  "%-" ++ Strconv.Itoa maxLen ++ "s %5d %s %-5s %s" ++ String newline "".

Definition renderLine (maxLen : Z) (r : record) : string :=
  Fmt.Sprintf (lineFormat maxLen)
    (Fmt.AString (Name r) :: Fmt.AInt (TTL r) :: Fmt.AString (Class r)
     :: Fmt.AString (RType r) :: Fmt.AString (Data r) :: nil).

(** The second half of [formatZone]: the text written to the buffer. *)
Definition render (records : list record) : string :=
  String.concat "" (List.map (renderLine (maxNameLen records)) records).

(** [formatZone]: what is logged, and the text of the returned reader or
    the returned error. *)
Definition formatZone (input : string) : list logEntry * result string :=
  match scanLoop initial (Bufio.scanLines input) with
  | (logged, Ok st) => (logged, Ok (render (sortRecords (rr st))))
  | (logged, Err e) => (logged, Err e)
  | (logged, Panic) => (logged, Panic)
  end.

(** The record that [parseRecord] builds from the five fields of a line
    the pattern matches. *)
Definition recordOfTokens (tk : tokens) (defaultZone : string) (defaultTTL : Z)
  : result record :=
  let* ttl :=
    (if negb (String.eqb (tkTTL tk) "") then Strconv.ParseInt (tkTTL tk) else Ok defaultTTL) in
  let rec := {| Name := tkName tk; TTL := ttl; Class := tkClass tk; RType := tkType tk;
                Data := tkData tk |} in
  let rec := if String.eqb (Name rec) "@" then withName rec "" else rec in
  let rec :=
    if negb (Strings.HasSuffixByte (Name rec) ".")
    then withName rec
           (Strings.TrimLeftByte (Strings.Join (Name rec :: defaultZone :: nil) ".") ".")
    else rec in
  let rec := if TTL rec =? 0 then withTTL rec defaultTTL else rec in
  if String.eqb (RType rec) "TXT" then
    let* d0 := byteAt (Data rec) 0 in
    if negb (Ascii.eqb d0 quoteChar)
    then Ok (withData rec (Strconv.Quote isPrintWide (Data rec)))
    else Ok rec
  else Ok rec.

(** One turn of the loop of [main] on the path [zf]: [os.Open] fails on a
    path that names no file; [os.Create] truncates the file and fails on a
    file that cannot be opened for writing; [io.Copy] writes the text that
    [formatZone] returned. *)
Definition formatFile (cfg : config) (w : world) (zf : string) : world * outcome unit :=
  match files w !! zf with
  | None => (w, Exit 1 (UnableToOpenForRead zf))
  | Some f =>
      let '(entries, zoneResult) := formatZone (content f) in
      let w1 := {| files := files w; stdout := stdout w;
                   stderr := (stderr w ++ entries)%list |} in
      match zoneResult with
      | Err e => (w1, Exit 1 (UnableToFormat e))
      | Panic => (w1, Crash)
      | Ok out =>
          if WriteBack cfg then
            if writable f then
              ({| files := <[zf := {| content := out; writable := true |}]> (files w1);
                  stdout := stdout w1; stderr := stderr w1 |}, Returns tt)
            else (w1, Exit 1 (UnableToOpenForWrite zf))
          else
            ({| files := files w1; stdout := stdout w1 ++ out; stderr := stderr w1 |},
             Returns tt)
      end
  end.

Fixpoint formatFiles (cfg : config) (w : world) (zfs : list string) : world * outcome unit :=
  match zfs with
  | nil => (w, Returns tt)
  | zf :: rest =>
      match formatFile cfg w zf with
      | (w', Returns _) => formatFiles cfg w' rest
      | stopped => stopped
      end
  end.

(** [main]: [args] is what [rconfig.Args] returns, the program name
    first; slicing it from 1 panics when it is empty. *)
Definition main (cfg : config) (args : list string) (w : world) : world * outcome unit :=
  match args with
  | nil => (w, Crash)
  | _ :: zfs => formatFiles cfg w zfs
  end.

(** The data that [parseRecord] stores for the data field [d] of a record
    of type [ty]. *)
Definition storedData (ty d : string) : string :=
  if String.eqb ty "TXT" && negb (startsWith d quoteChar)
  then Strconv.Quote isPrintWide d else d.

(** The records and the log entries that lines without a directive give
    under the origin [z] and the default TTL [t]. *)
Definition recordsOf (z : string) (t : Z) (lines : list string) : list record :=
  List.flat_map (fun l => match parseRecord l z t with
                          | Ok r => r :: nil
                          | _ => nil
                          end) lines.

Definition entriesOf (z : string) (t : Z) (lines : list string) : list logEntry :=
  List.flat_map (fun l => match parseRecord l z t with
                          | Err e => ErrorUnparsable e :: nil
                          | _ => nil
                          end) lines.

(** The loop gets past the line [l]. *)
Definition readable (z : string) (t : Z) (l : string) : Prop :=
  l <> "" /\ parseRecord l z t <> Panic.

(** What [formatZone] returns and logs for the file at the path [zf], and
    that it returns a text. *)
Definition outputOf (fs : gmap string file) (zf : string) : string :=
  match fs !! zf with
  | Some f => match snd (formatZone (content f)) with
              | Ok out => out
              | _ => ""
              end
  | None => ""
  end.

Definition entriesFor (fs : gmap string file) (zf : string) : list logEntry :=
  match fs !! zf with
  | Some f => fst (formatZone (content f))
  | None => nil
  end.

Definition formats (fs : gmap string file) (zf : string) : Prop :=
  exists f out, fs !! zf = Some f /\ snd (formatZone (content f)) = Ok out.

(** [main] cannot go on after the file at [zf]: the path names no file,
    [formatZone] returns an error or panics on its content, or the file is
    to be written back and cannot be opened for writing. *)
Definition fails (cfg : config) (fs : gmap string file) (zf : string) : Prop :=
  match fs !! zf with
  | None => True
  | Some f =>
      match snd (formatZone (content f)) with
      | Ok _ => WriteBack cfg = true /\ writable f = false
      | _ => True
      end
  end.

(** * Properties *)

(** *** The loop over the lines *)

Lemma scanLoop_app (st : state) (before after : list string) :
  scanLoop st (before ++ after)%list =
    match scanLoop st before with
    | (logged, Ok st') =>
        let '(later, final) := scanLoop st' after in ((logged ++ later)%list, final)
    | failed => failed
    end.
Proof.
  revert st; induction before as [|text before IH]; intros st; simpl.
  - destruct (scanLoop st after); reflexivity.
  - destruct (processLine st text) as [[st' logged]| |]; try reflexivity.
    rewrite IH. destruct (scanLoop st' before) as [logged' [st''| |]]; try reflexivity.
    destruct (scanLoop st'' after). rewrite app_assoc. reflexivity.
Qed.

(** A line on which the loop body fails is fatal wherever it stands: the
    loop ends without a final state, and with the failure of that line
    when the lines before it went through. *)
Lemma scanLoop_fatal (st : state) (before after : list string) (text : string) :
  (forall st', exists f, (f = Panic \/ exists e, f = Err e)
                         /\ scanLoop st' (text :: after) = (nil, f)) ->
  forall final, snd (scanLoop st (before ++ text :: after)%list) <> Ok final.
Proof.
  intros Hfatal final. rewrite scanLoop_app.
  destruct (scanLoop st before) as [logged [st'| |]]; [|simpl; discriminate..].
  destruct (Hfatal st') as [f [Hf Hrun]]. rewrite Hrun. simpl.
  destruct Hf as [->|[e ->]]; discriminate.
Qed.

Lemma formatZone_scanLoop (input : string) :
  formatZone input =
    match scanLoop initial (Bufio.scanLines input) with
    | (logged, Ok st) => (logged, Ok (render (sortRecords (rr st))))
    | (logged, Err e) => (logged, Err e)
    | (logged, Panic) => (logged, Panic)
    end.
Proof. reflexivity. Qed.

Lemma formatZone_noOutput (input : string) :
  (forall final, snd (scanLoop initial (Bufio.scanLines input)) <> Ok final) ->
  noOutput (snd (formatZone input)).
Proof.
  intros H out. rewrite formatZone_scanLoop.
  destruct (scanLoop initial (Bufio.scanLines input)) as [logged [st| |]]; simpl in *;
    try discriminate.
  exfalso. apply (H st). reflexivity.
Qed.

(** *** Empty lines *)

Lemma processLine_empty (st : state) : processLine st "" = Panic.
Proof. reflexivity. Qed.

(** C10. The loop body reads the first byte of the line before anything
    else, so on an empty line it panics whatever the state; an input with
    an empty line among its scanned lines never produces output, and
    panics at that line when the lines before it went through. *)
Theorem empty_line_out_of_range (input : string) (before after : list string) :
  Bufio.scanLines input = (before ++ "" :: after)%list ->
  (forall st, processLine st "" = Panic)
  /\ noOutput (snd (formatZone input))
  /\ (forall logged st, scanLoop initial before = (logged, Ok st) ->
      formatZone input = (logged, Panic)).
Proof.
  intros Hlines. split; [exact processLine_empty|]. split.
  - apply formatZone_noOutput. rewrite Hlines. apply scanLoop_fatal.
    intros st'. exists Panic. split; [left; reflexivity|reflexivity].
  - intros logged st Hbefore. rewrite formatZone_scanLoop, Hlines, scanLoop_app, Hbefore.
    cbn [scanLoop]. rewrite processLine_empty, app_nil_r. reflexivity.
Qed.

(** *** The [$TTL] directive *)

Lemma processLine_TTL (st : state) (arg : string) :
  processLine st ("$TTL " ++ arg) =
    match Time.ParseDuration arg with
    | Ok t => Ok ({| zone := zone st; ttl := Float64.toInt (Time.Seconds t); rr := rr st |}, nil)
    | Err e => Err e
    | Panic => Panic
    end.
Proof.
  unfold processLine. simpl.
  destruct (Time.ParseDuration arg); reflexivity.
Qed.

(** *** The pattern as a scanner *)

Lemma takeWhile_dropWhile (p : ascii -> bool) (s : string) :
  takeWhile p s ++ dropWhile p s = s.
Proof.
  induction s as [|c s IH]; simpl; [reflexivity|].
  destruct (p c); simpl; [rewrite IH|]; reflexivity.
Qed.

Lemma flat_map_map {A B C : Type} (f : B -> list C) (h : A -> B) (l : list A) :
  List.flat_map f (List.map h l) = List.flat_map (fun a => f (h a)) l.
Proof. induction l as [|a l IH]; simpl; [|rewrite IH]; reflexivity. Qed.

(** A continuation that fails wherever a byte of the class follows sees
    only the longest run. *)
Lemma flat_map_splitsStar {X : Type} (cls : ascii -> bool) (s : string)
    (g : string * string -> list X) :
  (forall m c r, cls c = true -> g (m, String c r) = nil) ->
  List.flat_map g (Regexp.splitsStar cls s) = g (takeWhile cls s, dropWhile cls s).
Proof.
  revert g; induction s as [|c s IH]; intros g Hg; simpl.
  - apply app_nil_r.
  - destruct (cls c) eqn:Hc; simpl.
    + rewrite flat_map_app, flat_map_map. simpl. rewrite (Hg "" c s Hc), !app_nil_r.
      rewrite (IH (fun ms => g (String c (fst ms), snd ms))); [reflexivity|].
      intros m c' r Hc'. simpl. apply Hg, Hc'.
    + apply app_nil_r.
Qed.

Lemma flat_map_splitsPlus {X : Type} (cls : ascii -> bool) (s : string)
    (g : string * string -> list X) :
  (forall m c r, cls c = true -> g (m, String c r) = nil) ->
  List.flat_map g (Regexp.splitsPlus cls s) =
    if startsIn cls s then g (takeWhile cls s, dropWhile cls s) else nil.
Proof.
  intros Hg. destruct s as [|c s]; simpl; [reflexivity|].
  destruct (cls c) eqn:Hc; [|reflexivity].
  rewrite flat_map_map.
  rewrite (flat_map_splitsStar cls s (fun ms => g (String c (fst ms), snd ms))); [reflexivity|].
  intros m c' r Hc'. simpl. apply Hg, Hc'.
Qed.

Lemma takeWhile_nonempty (cls : ascii -> bool) (s : string) :
  startsIn cls s = true -> Regexp.isEmpty (takeWhile cls s) = false.
Proof. destruct s as [|c s]; simpl; [discriminate|]. intros ->. reflexivity. Qed.

(** [cls+] before a piece that cannot start in [cls]: the run is the
    longest one. *)
Lemma run_Cat_Plus (cls : ascii -> bool) (r2 : Regexp.regex) (atStart : bool) (s : string)
    (cs : Regexp.captures) :
  rejects cls r2 ->
  Regexp.run (Regexp.Cat (Regexp.Plus cls) r2) atStart s cs =
    if startsIn cls s then
      List.map (fun m2 => match m2 with
                          | (t2, rest2, cs2) => (takeWhile cls s ++ t2, rest2, cs2)
                          end)
               (Regexp.run r2 false (dropWhile cls s) cs)
    else nil.
Proof.
  intros Hrej. simpl. rewrite flat_map_map. rewrite flat_map_splitsPlus.
  - destruct (startsIn cls s) eqn:Hs; [|reflexivity]. simpl.
    rewrite (takeWhile_nonempty cls s Hs), andb_false_r. reflexivity.
  - intros m c r Hc. simpl. rewrite Hrej by exact Hc. reflexivity.
Qed.

Lemma run_Cat_Group_Plus (n : nat) (cls : ascii -> bool) (r2 : Regexp.regex)
    (atStart : bool) (s : string) (cs : Regexp.captures) :
  rejects cls r2 ->
  Regexp.run (Regexp.Cat (Regexp.Group n (Regexp.Plus cls)) r2) atStart s cs =
    if startsIn cls s then
      List.map (fun m2 => match m2 with
                          | (t2, rest2, cs2) => (takeWhile cls s ++ t2, rest2, cs2)
                          end)
               (Regexp.run r2 false (dropWhile cls s) ((n, takeWhile cls s) :: cs))
    else nil.
Proof.
  intros Hrej. simpl. rewrite !flat_map_map. rewrite flat_map_splitsPlus.
  - destruct (startsIn cls s) eqn:Hs; [|reflexivity]. simpl.
    rewrite (takeWhile_nonempty cls s Hs), andb_false_r. reflexivity.
  - intros m c r Hc. simpl. rewrite Hrej by exact Hc. reflexivity.
Qed.

Lemma rejects_Cat_Plus (cls cls' : ascii -> bool) (r : Regexp.regex) :
  (forall c, cls c = true -> cls' c = false) ->
  rejects cls (Regexp.Cat (Regexp.Plus cls') r).
Proof. intros H c s atStart cs Hc. simpl. rewrite (H c Hc). reflexivity. Qed.

Lemma rejects_Cat_Group_Plus (cls cls' : ascii -> bool) (n : nat) (r : Regexp.regex) :
  (forall c, cls c = true -> cls' c = false) ->
  rejects cls (Regexp.Cat (Regexp.Group n (Regexp.Plus cls')) r).
Proof. intros H c s atStart cs Hc. simpl. rewrite (H c Hc). reflexivity. Qed.


Lemma rex_pieces :
  rex = Regexp.Cat Regexp.BeginText
          (Regexp.Cat (Regexp.Group 1 (Regexp.Plus Regexp.notSpace))
             (Regexp.Cat (Regexp.Plus Regexp.space) (Regexp.Cat rexTTL rexClass))).
Proof. reflexivity. Qed.

Lemma append_empty_r (s : string) : s ++ "" = s.
Proof. induction s as [|c s IH]; simpl; [|rewrite IH]; reflexivity. Qed.

Lemma takeWhile_anyChar (s : string) :
  noByte newline s = true -> takeWhile Regexp.anyChar s = s /\ dropWhile Regexp.anyChar s = "".
Proof.
  induction s as [|c s IH]; simpl; [split; reflexivity|].
  unfold Regexp.anyChar at 1 3. destruct (negb (Ascii.eqb c newline)); simpl; [|discriminate].
  intros H. destruct (IH H) as [-> ->]. split; reflexivity.
Qed.

Lemma dropWhile_anyChar (s : string) :
  noByte newline s = false -> Regexp.isEmpty (dropWhile Regexp.anyChar s) = false.
Proof.
  induction s as [|c s IH]; simpl; [discriminate|].
  unfold Regexp.anyChar at 1. destruct (negb (Ascii.eqb c newline)); simpl; [exact IH|reflexivity].
Qed.

(** The data group takes the rest of the line, which must hold no
    newline. *)
Lemma run_rexData (atStart : bool) (s : string) (cs : Regexp.captures) :
  Regexp.run rexData atStart s cs =
    if noByte newline s then (s, "", (5%nat, s) :: cs) :: nil else nil.
Proof.
  unfold rexData. simpl. rewrite !flat_map_map.
  rewrite flat_map_splitsStar by (intros; reflexivity). simpl.
  destruct (noByte newline s) eqn:Hs.
  - destruct (takeWhile_anyChar s Hs) as [-> ->]. simpl. rewrite append_empty_r. reflexivity.
  - rewrite (dropWhile_anyChar s Hs). reflexivity.
Qed.

Lemma hd_error_app_l {X : Type} (l1 l2 : list X) :
  hd_error (l1 ++ l2)%list =
    match hd_error l1 with
    | Some x => Some x
    | None => hd_error l2
    end.
Proof. destruct l1; reflexivity. Qed.

Lemma hd_error_nil {X : Type} (l : list X) : hd_error l = None -> l = nil.
Proof. destruct l; [reflexivity|discriminate]. Qed.

(** When the continuation fails after some text only if it fails after
    every longer text, the preferred result comes from the longest run. *)
Lemma hd_flat_map_splitsStar {X : Type} (cls : ascii -> bool) (ok : string -> bool)
    (s : string) (g : string * string -> list X) :
  (forall m rest, g (m, rest) = nil <-> ok rest = false) ->
  (forall c rest, ok rest = false -> ok (String c rest) = false) ->
  hd_error (List.flat_map g (Regexp.splitsStar cls s)) =
    hd_error (g (takeWhile cls s, dropWhile cls s)).
Proof.
  intros Hg Hok.
  assert (Hpre : forall pre rest, ok rest = false -> ok (pre ++ rest) = false).
  { induction pre as [|c pre IH]; intros rest H; simpl; [exact H|]. apply Hok, IH, H. }
  revert g Hg; induction s as [|c s IH]; intros g Hg; simpl.
  - rewrite app_nil_r. reflexivity.
  - destruct (cls c) eqn:Hc; simpl.
    + rewrite flat_map_app, flat_map_map, hd_error_app_l.
      rewrite (IH (fun ms => g (String c (fst ms), snd ms))) by (intros; apply Hg).
      simpl.
      destruct (hd_error (g (String c (takeWhile cls s), dropWhile cls s))) eqn:E;
        [reflexivity|].
      apply hd_error_nil, Hg in E.
      assert (Hall : g ("", String c s) = nil).
      { apply Hg. rewrite <- (takeWhile_dropWhile cls s).
        apply (Hpre (String c (takeWhile cls s))), E. }
      rewrite Hall. reflexivity.
    + rewrite app_nil_r. reflexivity.
Qed.

Lemma hd_flat_map_splitsPlus {X : Type} (cls : ascii -> bool) (ok : string -> bool)
    (s : string) (g : string * string -> list X) :
  (forall m rest, g (m, rest) = nil <-> ok rest = false) ->
  (forall c rest, ok rest = false -> ok (String c rest) = false) ->
  hd_error (List.flat_map g (Regexp.splitsPlus cls s)) =
    if startsIn cls s then hd_error (g (takeWhile cls s, dropWhile cls s)) else None.
Proof.
  intros Hg Hok. destruct s as [|c s]; simpl; [reflexivity|].
  destruct (cls c) eqn:Hc; [|reflexivity].
  rewrite flat_map_map.
  rewrite (hd_flat_map_splitsStar cls ok s (fun ms => g (String c (fst ms), snd ms)));
    [reflexivity| |exact Hok].
  intros m rest. apply Hg.
Qed.

Lemma firstCaps_map (r : Regexp.regex) (atStart : bool) (s : string) (cs : Regexp.captures)
    (t : string) :
  option_map snd
    (hd_error (List.map (fun m2 : string * string * Regexp.captures =>
                           match m2 with
                           | (t2, rest2, cs2) => (t ++ t2, rest2, cs2)
                           end)
                        (Regexp.run r atStart s cs)))
  = firstCaps r atStart s cs.
Proof.
  unfold firstCaps. destruct (Regexp.run r atStart s cs) as [|[[t2 rest2] cs2] l]; reflexivity.
Qed.

Lemma run_Cat_eq (r1 r2 : Regexp.regex) (atStart : bool) (s : string)
    (cs : Regexp.captures) :
  Regexp.run (Regexp.Cat r1 r2) atStart s cs =
    List.flat_map
      (fun m1 =>
         match m1 with
         | (t1, rest1, cs1) =>
             List.map (fun m2 => match m2 with
                                 | (t2, rest2, cs2) => (t1 ++ t2, rest2, cs2)
                                 end)
                      (Regexp.run r2 (atStart && Regexp.isEmpty t1) rest1 cs1)
         end)
      (Regexp.run r1 atStart s cs).
Proof. reflexivity. Qed.

Lemma run_Plus_eq (cls : ascii -> bool) (atStart : bool) (s : string)
    (cs : Regexp.captures) :
  Regexp.run (Regexp.Plus cls) atStart s cs =
    List.map (fun ms => (fst ms, snd ms, cs)) (Regexp.splitsPlus cls s).
Proof. reflexivity. Qed.

Lemma map_eq_nil_iff {X Y : Type} (f : X -> Y) (l : list X) :
  List.map f l = nil <-> l = nil.
Proof. destruct l; simpl; split; congruence. Qed.

(** Blanks, then the data. *)
Lemma firstCaps_blanks_data (atStart : bool) (s : string) (cs : Regexp.captures) :
  firstCaps (Regexp.Cat (Regexp.Plus Regexp.space) rexData) atStart s cs =
    if startsIn Regexp.space s && noByte newline (dropWhile Regexp.space s)
    then Some ((5%nat, dropWhile Regexp.space s) :: cs)
    else None.
Proof.
  unfold firstCaps. rewrite run_Cat_eq, run_Plus_eq, flat_map_map.
  rewrite (hd_flat_map_splitsPlus Regexp.space (noByte newline)).
  - destruct (startsIn Regexp.space s); [|reflexivity]. cbn [fst snd andb].
    rewrite run_rexData. destruct (noByte newline (dropWhile Regexp.space s)); reflexivity.
  - intros m rest. cbn [fst snd]. rewrite map_eq_nil_iff, run_rexData.
    destruct (noByte newline rest); split; congruence.
  - intros c rest H. simpl. rewrite H. apply andb_false_r.
Qed.

Lemma space_not_notSpace (c : ascii) : Regexp.space c = true -> Regexp.notSpace c = false.
Proof. unfold Regexp.notSpace. intros ->. reflexivity. Qed.

Lemma notSpace_not_space (c : ascii) : Regexp.notSpace c = true -> Regexp.space c = false.
Proof. unfold Regexp.notSpace. destruct (Regexp.space c); [discriminate|reflexivity]. Qed.

Lemma digit_not_space (c : ascii) : Regexp.digit c = true -> Regexp.space c = false.
Proof.
  destruct c as [[] [] [] [] [] [] [] []]; try reflexivity; vm_compute; discriminate.
Qed.

Lemma space_not_digit (c : ascii) : Regexp.space c = true -> Regexp.digit c = false.
Proof.
  destruct (Regexp.digit c) eqn:E; [|reflexivity].
  rewrite (digit_not_space c E). discriminate.
Qed.

(** Type, blanks, data. *)
Lemma firstCaps_rexType (atStart : bool) (s : string) (cs : Regexp.captures) :
  firstCaps rexType atStart s cs =
    match field Regexp.notSpace s with
    | Some (t, d) => if noByte newline d then Some ((5%nat, d) :: (4%nat, t) :: cs) else None
    | None => None
    end.
Proof.
  unfold firstCaps, rexType.
  rewrite run_Cat_Group_Plus by (apply rejects_Cat_Plus, notSpace_not_space).
  unfold field. destruct (startsIn Regexp.notSpace s); [|reflexivity].
  rewrite firstCaps_map, firstCaps_blanks_data. cbn [andb].
  destruct (startsIn Regexp.space (dropWhile Regexp.notSpace s)); reflexivity.
Qed.

(** Class, blanks, and the rest. *)
Lemma firstCaps_rexClass (atStart : bool) (s : string) (cs : Regexp.captures) :
  firstCaps rexClass atStart s cs =
    match classTypeData s with
    | Some (c, t, d) => Some ((5%nat, d) :: (4%nat, t) :: (3%nat, c) :: cs)
    | None => None
    end.
Proof.
  unfold firstCaps, rexClass.
  rewrite run_Cat_Group_Plus by (apply rejects_Cat_Plus, notSpace_not_space).
  unfold classTypeData, field at 1. destruct (startsIn Regexp.notSpace s); [|reflexivity].
  rewrite firstCaps_map. unfold firstCaps.
  rewrite run_Cat_Plus
    by (unfold rexType; apply rejects_Cat_Group_Plus, space_not_notSpace).
  cbn [andb].
  destruct (startsIn Regexp.space (dropWhile Regexp.notSpace s)); [|reflexivity].
  rewrite firstCaps_map, firstCaps_rexType.
  destruct (field Regexp.notSpace (dropWhile Regexp.space (dropWhile Regexp.notSpace s)))
    as [[t d]|]; [|reflexivity].
  destruct (noByte newline d); reflexivity.
Qed.

Lemma rejects_rexClass : rejects Regexp.space rexClass.
Proof. unfold rexClass. apply rejects_Cat_Group_Plus, space_not_notSpace. Qed.

Lemma run_rexTTL (atStart : bool) (s : string) (cs : Regexp.captures) :
  Regexp.run rexTTL atStart s cs =
    List.app
      (if startsIn Regexp.digit s then
         List.map (fun ms => (takeWhile Regexp.digit s ++ fst ms, snd ms,
                              (2%nat, takeWhile Regexp.digit s) :: cs))
                  (Regexp.splitsPlus Regexp.space (dropWhile Regexp.digit s))
       else nil)
      (("", s, cs) :: nil).
Proof.
  unfold rexTTL.
  change (Regexp.run (Regexp.Quest ?r) atStart s cs)
    with (Regexp.run r atStart s cs ++ ("", s, cs) :: nil)%list.
  rewrite run_Cat_Group_Plus
    by (intros c s' a cs' Hc; simpl; rewrite (digit_not_space c Hc); reflexivity).
  destruct (startsIn Regexp.digit s); [|reflexivity].
  rewrite run_Plus_eq, List.map_map. reflexivity.
Qed.

Lemma rejects_TTL_Class : rejects Regexp.space (Regexp.Cat rexTTL rexClass).
Proof.
  intros c s atStart cs Hc. rewrite run_Cat_eq, run_rexTTL.
  cbn [startsIn]. rewrite (space_not_digit c Hc).
  cbn [app List.flat_map]. rewrite rejects_rexClass by exact Hc. reflexivity.
Qed.

Lemma firstCaps_app (l1 l2 : list (string * string * Regexp.captures)) :
  option_map snd (hd_error (l1 ++ l2)%list) =
    match option_map snd (hd_error l1) with
    | Some found => Some found
    | None => option_map snd (hd_error l2)
    end.
Proof. destruct l1; reflexivity. Qed.

(** The optional TTL with its blanks, then class, type and data. *)
Lemma firstCaps_TTL_Class (atStart : bool) (s : string) (cs : Regexp.captures) :
  firstCaps (Regexp.Cat rexTTL rexClass) atStart s cs =
    match
      match field Regexp.digit s with
      | Some (t, s2) => firstCaps rexClass false s2 ((2%nat, t) :: cs)
      | None => None
      end
    with
    | Some found => Some found
    | None => firstCaps rexClass atStart s cs
    end.
Proof.
  unfold firstCaps at 1. rewrite run_Cat_eq, run_rexTTL.
  rewrite flat_map_app, firstCaps_app.
  cbn [List.flat_map]. rewrite app_nil_r, firstCaps_map.
  cbn [Regexp.isEmpty]. rewrite andb_true_r.
  unfold field. destruct (startsIn Regexp.digit s); cbn [andb]; [|reflexivity].
  rewrite flat_map_map, flat_map_splitsPlus.
  - destruct (startsIn Regexp.space (dropWhile Regexp.digit s)); [|reflexivity].
    cbn [fst snd]. rewrite firstCaps_map, !firstCaps_rexClass. reflexivity.
  - intros m c r Hc. cbn [fst snd]. rewrite rejects_rexClass by exact Hc. reflexivity.
Qed.

(** The whole pattern, read by [tokenize]. *)
Lemma firstCaps_rex (line : string) :
  firstCaps rex true line nil =
    match tokenize line with
    | Some tk =>
        Some ((5%nat, tkData tk) :: (4%nat, tkType tk) :: (3%nat, tkClass tk)
              :: (if Regexp.isEmpty (tkTTL tk) then nil else (2%nat, tkTTL tk) :: nil)
              ++ (1%nat, tkName tk) :: nil)%list
    | None => None
    end.
Proof.
  rewrite rex_pieces. unfold firstCaps at 1. rewrite run_Cat_eq.
  change (Regexp.run Regexp.BeginText true line nil) with (("", line, @nil (nat * string)) :: nil).
  cbn [List.flat_map]. rewrite app_nil_r, firstCaps_map. cbn [Regexp.isEmpty andb].
  unfold firstCaps.
  rewrite run_Cat_Group_Plus by (apply rejects_Cat_Plus, notSpace_not_space).
  unfold tokenize, field at 1.
  destruct (startsIn Regexp.notSpace line) eqn:Hn; [|reflexivity].
  rewrite firstCaps_map. unfold firstCaps.
  rewrite run_Cat_Plus by exact rejects_TTL_Class. cbn [andb].
  destruct (startsIn Regexp.space (dropWhile Regexp.notSpace line)); [|reflexivity].
  rewrite firstCaps_map, firstCaps_TTL_Class.
  destruct (field Regexp.digit _) as [[t s2]|] eqn:Hf.
  - rewrite !firstCaps_rexClass.
    destruct (classTypeData s2) as [[[c ty] d]|].
    + cbn [tkData tkType tkClass tkTTL tkName].
      assert (Ht : Regexp.isEmpty t = false).
      { unfold field in Hf.
        destruct (startsIn Regexp.digit _) eqn:Hd; [|discriminate].
        destruct (startsIn Regexp.space _); [|discriminate].
        injection Hf as <- _. apply takeWhile_nonempty, Hd. }
      rewrite Ht. reflexivity.
    + destruct (classTypeData _) as [[[c ty] d]|]; reflexivity.
  - rewrite !firstCaps_rexClass.
    destruct (classTypeData _) as [[[c ty] d]|]; reflexivity.
Qed.

Lemma append_assoc (a b c : string) : (a ++ b) ++ c = a ++ (b ++ c).
Proof. induction a as [|x a IH]; simpl; [|rewrite IH]; reflexivity. Qed.

Lemma isEmpty_true (s : string) : Regexp.isEmpty s = true -> s = "".
Proof. destruct s; [reflexivity|discriminate]. Qed.

Lemma splitsStar_sound (cls : ascii -> bool) (s m rest : string) :
  In (m, rest) (Regexp.splitsStar cls s) -> m ++ rest = s.
Proof.
  revert m rest; induction s as [|c s IH]; intros m rest; simpl.
  - intros [H|[]]. injection H as <- <-. reflexivity.
  - destruct (cls c).
    + rewrite in_app_iff, in_map_iff. intros [[[m' rest'] [H Hin]]|[H|[]]].
      * injection H as <- <-. simpl. rewrite (IH _ _ Hin). reflexivity.
      * injection H as <- <-. reflexivity.
    + intros [H|[]]. injection H as <- <-. reflexivity.
Qed.

Lemma splitsPlus_sound (cls : ascii -> bool) (s m rest : string) :
  In (m, rest) (Regexp.splitsPlus cls s) -> m ++ rest = s.
Proof.
  destruct s as [|c s]; simpl; [intros []|].
  destruct (cls c); [|intros []].
  rewrite in_map_iff. intros [[m' rest'] [H Hin]]. injection H as <- <-.
  simpl. rewrite (splitsStar_sound _ _ _ _ Hin). reflexivity.
Qed.

(** What a pattern matches and what is left make up the text it was run
    on. *)
Lemma run_sound (r : Regexp.regex) :
  forall atStart s cs t rest cs',
    In (t, rest, cs') (Regexp.run r atStart s cs) -> t ++ rest = s.
Proof.
  induction r as [cls|cls|r1 IH1 r2 IH2|r IH|n r IH| |]; intros atStart s cs t rest cs'; simpl.
  - rewrite in_map_iff. intros [[m rest'] [H Hin]]. injection H as <- <- _.
    apply (splitsPlus_sound _ _ _ _ Hin).
  - rewrite in_map_iff. intros [[m rest'] [H Hin]]. injection H as <- <- _.
    apply (splitsStar_sound _ _ _ _ Hin).
  - rewrite in_flat_map. intros [[[t1 rest1] cs1] [Hin1 Hin2]].
    rewrite in_map_iff in Hin2. destruct Hin2 as [[[t2 rest2] cs2] [H Hin2]].
    injection H as <- <- _. rewrite append_assoc, (IH2 _ _ _ _ _ _ Hin2).
    apply (IH1 _ _ _ _ _ _ Hin1).
  - rewrite in_app_iff. intros [Hin|[H|[]]].
    + apply (IH _ _ _ _ _ _ Hin).
    + injection H as <- <- _. reflexivity.
  - rewrite in_map_iff. intros [[[t' rest'] cs''] [H Hin]]. injection H as <- <- _.
    apply (IH _ _ _ _ _ _ Hin).
  - destruct atStart; [|intros []]. intros [H|[]]. injection H as <- <- _. reflexivity.
  - destruct (Regexp.isEmpty s); [|intros []]. intros [H|[]]. injection H as <- <- _.
    reflexivity.
Qed.

Lemma run_anchored (r : Regexp.regex) :
  anchored r = true ->
  forall atStart s cs t rest cs',
    In (t, rest, cs') (Regexp.run r atStart s cs) -> rest = "".
Proof.
  induction r as [cls|cls|r1 IH1 r2 IH2|r IH|n r IH| |]; simpl; try discriminate.
  - intros Ha atStart s cs t rest cs'. rewrite in_flat_map.
    intros [[[t1 rest1] cs1] [Hin1 Hin2]].
    rewrite in_map_iff in Hin2. destruct Hin2 as [[[t2 rest2] cs2] [H Hin2]].
    injection H as _ <- _. apply (IH2 Ha _ _ _ _ _ _ Hin2).
  - intros _ atStart s cs t rest cs'. destruct (Regexp.isEmpty s) eqn:E; [|intros []].
    intros [H|[]]. injection H as _ <- _. apply isEmpty_true, E.
Qed.

Lemma search_rex_later (s : string) : Regexp.search rex false s = None.
Proof. induction s as [|c s IH]; simpl; [reflexivity|exact IH]. Qed.

(** The pattern of [parseRecord] and [tokenize] read every line alike:
    the match consists of the line and the five fields, and there is no
    match exactly when [tokenize] fails. *)
Lemma FindStringSubmatch_rex (line : string) :
  Regexp.FindStringSubmatch rex line =
    match tokenize line with
    | Some tk => line :: tkName tk :: tkTTL tk :: tkClass tk :: tkType tk :: tkData tk :: nil
    | None => nil
    end.
Proof.
  unfold Regexp.FindStringSubmatch.
  assert (Hsearch : Regexp.search rex true line =
                    match Regexp.run rex true line nil with
                    | (t, _, cs) :: _ => Some (t, cs)
                    | nil => None
                    end).
  { destruct line as [|c line]; cbn [Regexp.search];
      destruct (Regexp.run rex true _ nil) as [|[[t rest] cs] l]; try reflexivity.
    apply search_rex_later. }
  rewrite Hsearch.
  pose proof (firstCaps_rex line) as Hcaps. unfold firstCaps in Hcaps.
  destruct (Regexp.run rex true line nil) as [|[[t rest] cs] l] eqn:Hrun.
  - simpl in Hcaps. destruct (tokenize line); [discriminate|reflexivity].
  - assert (Hin : In (t, rest, cs) (Regexp.run rex true line nil))
      by (rewrite Hrun; left; reflexivity).
    pose proof (run_anchored rex eq_refl _ _ _ _ _ _ Hin) as Hrest.
    pose proof (run_sound rex _ _ _ _ _ _ Hin) as Hwhole.
    rewrite Hrest, append_empty_r in Hwhole. subst t.
    simpl in Hcaps. destruct (tokenize line) as [tk|]; [|discriminate].
    injection Hcaps as ->. f_equal.
    change (Regexp.NumSubexp rex) with 5%nat.
    destruct (Regexp.isEmpty (tkTTL tk)) eqn:E; [|reflexivity].
    apply isEmpty_true in E. rewrite E. reflexivity.
Qed.

(** *** [parseRecord] on the fields of a line *)

Lemma parseRecord_tokens (line zone : string) (dttl : Z) :
  parseRecord line zone dttl =
    match tokenize line with
    | Some tk => recordOfTokens tk zone dttl
    | None => Panic
    end.
Proof.
  unfold parseRecord. rewrite FindStringSubmatch_rex.
  destruct (tokenize line) as [tk|]; [|reflexivity].
  unfold recordOfTokens. cbn [index nth_error bind].
  destruct (if negb (tkTTL tk =? "")%string then Strconv.ParseInt (tkTTL tk) else Ok dttl);
    reflexivity.
Qed.

(** A line the pattern does not match makes [parseRecord] panic: the
    match is the nil slice and [matches[2]] is out of range. *)
Lemma parseRecord_no_match (line zone : string) (dttl : Z) :
  tokenize line = None -> parseRecord line zone dttl = Panic.
Proof. intros H. rewrite parseRecord_tokens, H. reflexivity. Qed.

Lemma parseRecord_Ok_tokens (line zone : string) (dttl : Z) (rec : record) :
  parseRecord line zone dttl = Ok rec ->
  exists tk, tokenize line = Some tk /\ recordOfTokens tk zone dttl = Ok rec.
Proof.
  rewrite parseRecord_tokens. destruct (tokenize line) as [tk|]; [|discriminate].
  intros H. exists tk. split; [reflexivity|exact H].
Qed.

(** What a successful [parseRecord] returns, field by field. *)
Lemma recordOfTokens_Ok (tk : tokens) (zone : string) (dttl : Z) (rec : record) :
  recordOfTokens tk zone dttl = Ok rec ->
  exists ttl0,
    (if negb (String.eqb (tkTTL tk) "") then Strconv.ParseInt (tkTTL tk) else Ok dttl) = Ok ttl0
    /\ Name rec =
         (let n := if String.eqb (tkName tk) "@" then "" else tkName tk in
          if Strings.HasSuffixByte n "." then n
          else Strings.TrimLeftByte (n ++ "." ++ zone) ".")
    /\ TTL rec = (if ttl0 =? 0 then dttl else ttl0)
    /\ Class rec = tkClass tk
    /\ RType rec = tkType tk
    /\ Data rec =
         (if String.eqb (tkType tk) "TXT" && negb (startsWith (tkData tk) quoteChar)
          then Strconv.Quote isPrintWide (tkData tk) else tkData tk)
    /\ (tkType tk = "TXT" -> tkData tk <> "").
Proof.
  unfold recordOfTokens.
  destruct (if negb (tkTTL tk =? "")%string then Strconv.ParseInt (tkTTL tk) else Ok dttl)
    as [ttl0| |]; cbn [bind]; try discriminate.
  intros H. exists ttl0. split; [reflexivity|].
  cbn [Name TTL RType Data withName withTTL withData] in H.
  destruct (tkName tk =? "@")%string;
    cbn [Name TTL RType Data withName withTTL withData] in H |- *;
    destruct (Strings.HasSuffixByte _ ".") eqn:Hsuf;
    cbn [negb Name TTL RType Data withName withTTL withData Strings.Join] in H |- *;
    destruct (ttl0 =? 0);
    cbn [Name TTL RType Data withName withTTL withData] in H |- *;
    destruct (tkType tk =? "TXT")%string eqn:Htxt; cbn [andb];
    try (injection H as <-; cbn; repeat split; try reflexivity;
         intros E; rewrite E in Htxt; discriminate);
    (destruct (tkData tk) as [|d0 d] eqn:Hd; cbn [byteAt String.get bind] in H;
     [discriminate|];
     cbn [startsWith]; destruct (Ascii.eqb d0 quoteChar); cbn [negb] in H |- *;
     injection H as <-; cbn; repeat split; try reflexivity; intros _; discriminate).
Qed.

(** *** Lines the pattern does not match *)

(** C1, on the code.  The line [www IN A] has three fields; the pattern
    does not match it, [FindStringSubmatch] returns nil and [parseRecord]
    panics at [matches[2]] instead of returning an error, so the branch of
    [formatZone] that logs and skips the line is not reached and the
    valid line after it is never read. *)
Theorem malformed_line_panics :
  Regexp.FindStringSubmatch rex "www IN A" = nil
  /\ (forall zone dttl, parseRecord "www IN A" zone dttl = Panic)
  /\ (forall st, processLine st "www IN A" = Panic)
  /\ formatZone ("www IN A" ++ String newline "mail IN A 10.0.0.2" ++ String newline "")
     = (nil, Panic).
Proof. repeat split. Qed.

(** *** The TTL of a record *)

(** *** The name of a record *)

Lemma TrimLeftByte_other (s : string) (c : ascii) :
  startsWith s c = false -> Strings.TrimLeftByte s c = s.
Proof. destruct s as [|a s]; simpl; [reflexivity|]. intros ->. reflexivity. Qed.

(** C4, as amended.  The name field is the leading run of non-blank
    bytes; [@] stands for the empty name; a name that does not end in a
    dot is joined to the origin with a dot and every leading dot of the
    result is removed; a name that ends in a dot is kept.  So [@] gives
    the origin when the origin does not begin with a dot, and [sub] gives
    [sub.] followed by the origin. *)
Theorem record_name_resolution (line zone : string) (dttl : Z) (rec : record) :
  parseRecord line zone dttl = Ok rec ->
  exists tk,
    tokenize line = Some tk
    /\ tkName tk = takeWhile Regexp.notSpace line
    /\ (let n := if String.eqb (tkName tk) "@" then "" else tkName tk in
        (Strings.HasSuffixByte n "." = true -> Name rec = n)
        /\ (Strings.HasSuffixByte n "." = false ->
            Name rec = Strings.TrimLeftByte (n ++ "." ++ zone) "."))
    /\ (tkName tk = "@" -> startsWith zone "." = false -> Name rec = zone)
    /\ (tkName tk = "sub" -> Name rec = "sub." ++ zone).
Proof.
  intros Hok. destruct (parseRecord_Ok_tokens _ _ _ _ Hok) as [tk [Htk Hrec]].
  exists tk. split; [exact Htk|].
  destruct (recordOfTokens_Ok _ _ _ _ Hrec) as [ttl0 [_ [HN _]]].
  split; [|split; [|split]].
  - unfold tokenize in Htk. unfold field at 1 in Htk.
    destruct (startsIn Regexp.notSpace line && _); [|discriminate].
    destruct (field Regexp.digit _) as [[t s2]|].
    + destruct (classTypeData s2) as [[[c ty] d]|]; [injection Htk as <-; reflexivity|].
      destruct (classTypeData _) as [[[c ty] d]|]; [|discriminate].
      injection Htk as <-. reflexivity.
    + destruct (classTypeData _) as [[[c ty] d]|]; [|discriminate].
      injection Htk as <-. reflexivity.
  - cbv zeta in HN |- *. rewrite HN.
    destruct (Strings.HasSuffixByte _ "."); split; intros; try discriminate; reflexivity.
  - intros E Hz. rewrite HN, E. cbn. apply TrimLeftByte_other, Hz.
  - intros E. rewrite HN, E. reflexivity.
Qed.

(** *** Quoted TXT data *)

Lemma quoteFrom_plain (c : ascii) (s : string) :
  plainByte c = true ->
  Strconv.quoteFrom isPrintWide (String c s) 0 = String c (Strconv.quoteFrom isPrintWide s 0).
Proof.
  destruct c as [[] [] [] [] [] [] [] []]; intros H; vm_compute in H;
    first [discriminate H | destruct s; reflexivity].
Qed.

Lemma quoteFrom_quote (s : string) :
  Strconv.quoteFrom isPrintWide (String quoteChar s) 0 =
    String backslash (String quoteChar (Strconv.quoteFrom isPrintWide s 0)).
Proof. reflexivity. Qed.

Lemma quoteFrom_backslash (s : string) :
  Strconv.quoteFrom isPrintWide (String backslash s) 0 =
    String backslash (String backslash (Strconv.quoteFrom isPrintWide s 0)).
Proof. reflexivity. Qed.

Lemma Quote_plain (s : string) :
  allBytes plainByte s = true ->
  Strconv.Quote isPrintWide s = String quoteChar (s ++ String quoteChar "").
Proof.
  intros H. unfold Strconv.Quote. f_equal. f_equal.
  induction s as [|c s IH]; [reflexivity|].
  simpl in H. apply andb_prop in H. destruct H as [Hc Hs].
  rewrite (quoteFrom_plain c s Hc), (IH Hs). reflexivity.
Qed.

(** C2, as amended.  The data of a TXT record that [parseRecord] returns
    is not empty.  Data that begins with a double quote is kept.  Other
    data is replaced by [strconv.Quote] of it, the text that [%q] prints:
    the data between two double quotes, where a byte of printable ASCII
    stands for itself except that a double quote and a backslash are
    preceded by a backslash.  For data made of printable ASCII without
    double quote and backslash this is the data between two double
    quotes. *)
Theorem txt_data_quoted (line zone : string) (dttl : Z) (rec : record) :
  parseRecord line zone dttl = Ok rec ->
  RType rec = "TXT" ->
  exists tk,
    tokenize line = Some tk
    /\ tkData tk <> ""
    /\ (startsWith (tkData tk) quoteChar = true -> Data rec = tkData tk)
    /\ (startsWith (tkData tk) quoteChar = false ->
        Data rec = String quoteChar
                     (Strconv.quoteFrom isPrintWide (tkData tk) 0 ++ String quoteChar "")
        /\ (allBytes plainByte (tkData tk) = true ->
            Data rec = String quoteChar (tkData tk ++ String quoteChar "")))
    /\ (forall c s, plainByte c = true ->
        Strconv.quoteFrom isPrintWide (String c s) 0
        = String c (Strconv.quoteFrom isPrintWide s 0))
    /\ (forall s, Strconv.quoteFrom isPrintWide (String quoteChar s) 0
                  = String backslash (String quoteChar (Strconv.quoteFrom isPrintWide s 0)))
    /\ (forall s, Strconv.quoteFrom isPrintWide (String backslash s) 0
                  = String backslash (String backslash (Strconv.quoteFrom isPrintWide s 0))).
Proof.
  intros Hok Htxt. destruct (parseRecord_Ok_tokens _ _ _ _ Hok) as [tk [Htk Hrec]].
  exists tk. split; [exact Htk|].
  destruct (recordOfTokens_Ok _ _ _ _ Hrec) as [ttl0 [_ [_ [_ [_ [HT [HD Hne]]]]]]].
  rewrite Htxt in HT. rewrite <- HT in HD, Hne. cbn [String.eqb Ascii.eqb Bool.eqb andb] in HD.
  change (("TXT" =? "TXT")%string) with true in HD. cbn [andb] in HD.
  split; [apply Hne; reflexivity|].
  split; [intros Hq; rewrite Hq in HD; exact HD|].
  split; [|split; [exact quoteFrom_plain|split; [exact quoteFrom_quote|exact quoteFrom_backslash]]].
  intros Hq. rewrite Hq in HD. cbn [negb] in HD. split; [exact HD|].
  intros Hplain. rewrite HD. apply Quote_plain, Hplain.
Qed.

(** *** Directives *)

Lemma cutByte_none (c : ascii) (s : string) :
  noByte c s = true -> Strings.cutByte s c = None.
Proof.
  induction s as [|a s IH]; simpl; [reflexivity|].
  destruct (Ascii.eqb a c); simpl; [discriminate|]. intros H. rewrite (IH H). reflexivity.
Qed.

Lemma cutByte_first (c : ascii) (before after : string) :
  noByte c before = true -> Strings.cutByte (before ++ String c after) c = Some (before, after).
Proof.
  induction before as [|a s IH]; simpl.
  - rewrite Ascii.eqb_refl. reflexivity.
  - destruct (Ascii.eqb a c); simpl; [discriminate|]. intros H. rewrite (IH H). reflexivity.
Qed.

(** The first of the parts that [strings.SplitN(text, " ", 2)] returns
    for a text whose keyword [kw] holds no space and is followed by
    nothing or by a space. *)
Lemma SplitN2_keyword (kw rest : string) :
  noByte " " kw = true ->
  rest = "" \/ startsWith rest " " = true ->
  exists more, Strings.SplitN2 (kw ++ rest) " " = kw :: more.
Proof.
  intros Hkw [->|Hrest]; unfold Strings.SplitN2.
  - rewrite append_empty_r, (cutByte_none _ _ Hkw). exists nil. reflexivity.
  - destruct rest as [|c rest]; [discriminate|]. simpl in Hrest.
    apply Ascii.eqb_eq in Hrest. subst c.
    rewrite (cutByte_first _ _ _ Hkw). exists (rest :: nil). reflexivity.
Qed.

(** C9, as amended.  A directive line is cut at its first space (not at
    a tab).  [$ORIGIN], a space and an argument set the origin to the
    argument as it stands and change nothing else.  A line that begins
    with [$] and whose keyword is neither [$ORIGIN] nor [$TTL] is logged
    as an unknown directive, changes nothing, and lets the loop go on. *)
Theorem directive_cut_at_first_space (st : state) :
  (forall arg,
      processLine st ("$ORIGIN " ++ arg)
      = Ok ({| zone := arg; ttl := ttl st; rr := rr st |}, nil))
  /\ (forall kw rest,
      startsWith kw "$" = true ->
      noByte " " kw = true ->
      rest = "" \/ startsWith rest " " = true ->
      kw <> "$ORIGIN" -> kw <> "$TTL" ->
      processLine st (kw ++ rest) = Ok (st, WarnUnknownDirective (kw ++ rest) :: nil)
      /\ forall after,
          scanLoop st ((kw ++ rest)%string :: after)
          = (WarnUnknownDirective (kw ++ rest) :: fst (scanLoop st after),
             snd (scanLoop st after))).
Proof.
  split; [intros arg; reflexivity|].
  intros kw rest Hdollar Hkw Hrest Ho Ht.
  assert (Hline : processLine st (kw ++ rest) = Ok (st, WarnUnknownDirective (kw ++ rest) :: nil)).
  { unfold processLine.
    destruct kw as [|c kw]; [discriminate|]. simpl in Hdollar.
    apply Ascii.eqb_eq in Hdollar. subst c.
    change (byteAt (String "$" kw ++ rest) 0) with (@Ok ascii "$"%char).
    cbn [bind]. change (Ascii.eqb "$" "$") with true. cbv iota.
    destruct (SplitN2_keyword (String "$" kw) rest Hkw Hrest) as [more ->].
    cbn [index nth_error bind].
    destruct (String.eqb_spec (String "$" kw) "$ORIGIN") as [E|_]; [contradiction|].
    destruct (String.eqb_spec (String "$" kw) "$TTL") as [E|_]; [contradiction|].
    reflexivity. }
  split; [exact Hline|].
  intros after. cbn [scanLoop]. rewrite Hline.
  destruct (scanLoop st after). reflexivity.
Qed.

(** *** The order of the records *)

Lemma ltb_leb (a b : string) : String.ltb a b = negb (String.leb b a).
Proof.
  unfold String.ltb, String.leb. rewrite (String.compare_antisym a b).
  destruct (String.compare b a); reflexivity.
Qed.

Lemma leb_trans (a b c : string) :
  String.leb a b = true -> String.leb b c = true -> String.leb a c = true.
Proof.
  intros H1 H2. apply Is_true_true. apply Is_true_true in H1, H2.
  exact (transitivity (R := String.le) H1 H2).
Qed.

Lemma leb_refl (a : string) : String.leb a a = true.
Proof. apply Is_true_true. exact (reflexivity (R := String.le) a). Qed.

(** [Less] compares the scores and, when they are equal, the names. *)
Lemma Less_spec (a b : record) :
  Less sorting a b = true <->
    (score sorting a < score sorting b)%N
    \/ (score sorting a = score sorting b /\ String.ltb (Name a) (Name b) = true).
Proof.
  unfold Less. destruct (N.eqb_spec (score sorting a) (score sorting b)) as [E|E]; cbn [negb].
  - rewrite E. split; [intros H; right; split; [reflexivity|exact H]|].
    intros [H|[_ H]]; [lia|exact H].
  - rewrite N.ltb_lt. split; [intros H; left; exact H|].
    intros [H|[H _]]; [exact H|contradiction].
Qed.

(** No record is placed before one it is not less than: the negation of
    [Less], with the arguments exchanged. *)
Lemma not_Less_spec (a b : record) :
  Less sorting b a = false <->
    (score sorting a < score sorting b)%N
    \/ (score sorting a = score sorting b /\ String.leb (Name a) (Name b) = true).
Proof.
  unfold Less. destruct (N.eqb_spec (score sorting b) (score sorting a)) as [E|E]; cbn [negb].
  - rewrite E, ltb_leb, negb_false_iff.
    split; [intros H; right; split; [reflexivity|exact H]|].
    intros [H|[_ H]]; [lia|exact H].
  - rewrite N.ltb_ge. split; [intros H; left; lia|].
    intros [H|[H _]]; [lia|]. congruence.
Qed.

Lemma Less_strictWeak : GoSort.strictWeak (Less sorting).
Proof.
  split.
  - intros a. destruct (Less sorting a a) eqn:E; [|reflexivity].
    apply Less_spec in E. destruct E as [E|[_ E]]; [lia|].
    rewrite ltb_leb, leb_refl in E. discriminate.
  - intros a b c Hab Hbc. apply Less_spec in Hab, Hbc. apply Less_spec.
    destruct Hab as [Hab|[Eab Hab]], Hbc as [Hbc|[Ebc Hbc]].
    + left; lia.
    + left; lia.
    + left; lia.
    + right. split; [congruence|]. rewrite ltb_leb, negb_true_iff in Hab, Hbc |- *.
      destruct (String.leb (Name c) (Name a)) eqn:Hca; [|reflexivity].
      destruct (String.leb_total (Name a) (Name b)) as [Hle|Hle]; [|congruence].
      rewrite (leb_trans _ _ _ Hca Hle) in Hbc. discriminate.
  - intros a b c Hab Hbc. apply not_Less_spec in Hab, Hbc. apply not_Less_spec.
    destruct Hab as [Hab|[Eab Hab]], Hbc as [Hbc|[Ebc Hbc]].
    + left; lia.
    + left; lia.
    + left; lia.
    + right. split; [congruence|]. exact (leb_trans _ _ _ Hbc Hab).
Qed.

Lemma StronglySorted_nth {A : Type} (R : A -> A -> Prop) (l : list A) :
  StronglySorted R l ->
  forall i j a b, (i < j)%nat -> nth_error l i = Some a -> nth_error l j = Some b -> R a b.
Proof.
  induction 1 as [|x l Hl IH Hx]; intros i j a b Hij Hi Hj.
  - destruct i; discriminate.
  - destruct j as [|j]; [lia|]. destruct i as [|i].
    + injection Hi as <-. rewrite List.Forall_forall in Hx. apply Hx.
      apply (nth_error_In l j). exact Hj.
    + apply (IH i j); [lia|exact Hi|exact Hj].
Qed.

(** The scores of the default table. *)
Lemma score_default (r : record) :
  score defaultSorting r =
    if String.eqb (RType r) "SOA" then 0%N
    else if String.eqb (RType r) "NS" then 10%N
    else if String.eqb (RType r) "MX" then 20%N
    else 100%N.
Proof.
  unfold score, defaultSorting.
  destruct (String.eqb_spec (RType r) "SOA") as [->|H1]; [reflexivity|].
  rewrite lookup_insert_ne by congruence.
  destruct (String.eqb_spec (RType r) "NS") as [->|H2]; [reflexivity|].
  rewrite lookup_insert_ne by congruence.
  destruct (String.eqb_spec (RType r) "MX") as [->|H3]; [reflexivity|].
  rewrite lookup_insert_ne by congruence.
  rewrite lookup_empty. reflexivity.
Qed.

(** C5. [Less] looks each type up in the table, 100 standing for a type
    that is not in it, puts the lower score first and, between equal
    scores, the name that is smaller in byte order.  [sort.Sort] returns
    the records rearranged so that every record has a lower score than
    each record after it, or the same score and a name that is not
    greater.  Under the default table the scores are 0 for SOA, 10 for
    NS, 20 for MX and 100 for every other type. *)
Theorem records_sorted_by_score_then_name (records : list record) :
  GoSort.sorts sortImpl ->
  (forall a b,
      Less sorting a b = true <->
        (score sorting a < score sorting b)%N
        \/ (score sorting a = score sorting b /\ String.ltb (Name a) (Name b) = true))
  /\ (forall r sc, sorting !! RType r = Some sc -> score sorting r = sc)
  /\ (forall r, sorting !! RType r = None -> score sorting r = 100%N)
  /\ Permutation records (sortRecords records)
  /\ (forall i j a b,
      (i < j)%nat ->
      nth_error (sortRecords records) i = Some a ->
      nth_error (sortRecords records) j = Some b ->
      (score sorting a < score sorting b)%N
      \/ (score sorting a = score sorting b /\ String.leb (Name a) (Name b) = true))
  /\ (forall r,
      score defaultSorting r =
        if String.eqb (RType r) "SOA" then 0%N
        else if String.eqb (RType r) "NS" then 10%N
        else if String.eqb (RType r) "MX" then 20%N
        else 100%N).
Proof.
  intros Hsort. destruct (Hsort record (Less sorting) records) as [Hperm Hasc].
  split; [exact Less_spec|].
  split; [intros r sc H; unfold score; rewrite H; reflexivity|].
  split; [intros r H; unfold score; rewrite H; reflexivity|].
  split; [exact Hperm|].
  split; [|exact score_default].
  intros i j a b Hij Hi Hj. apply not_Less_spec.
  exact (StronglySorted_nth _ _ (Hasc Less_strictWeak) i j a b Hij Hi Hj).
Qed.

(** *** Insertion sort meets the contract of [sort.Sort] *)

Section InsertionSort.

Context {A : Type} (less : A -> A -> bool).

(** The prefix sorted so far, kept in reverse: no element is less than
    a later one. *)
Let descending (l : list A) : Prop := StronglySorted (fun a b => less a b = false) l.

Lemma insertBack_perm (x : A) (l : list A) :
  Permutation (x :: l) (GoSort.insertBack less x l).
Proof.
  induction l as [|y l IH]; simpl; [reflexivity|].
  destruct (less x y); [|reflexivity].
  rewrite perm_swap. apply perm_skip, IH.
Qed.

Lemma insertBack_descending (x : A) (l : list A) :
  GoSort.strictWeak less -> descending l -> descending (GoSort.insertBack less x l).
Proof.
  intros [Hirr Htrans Hinc]. unfold descending.
  induction l as [|y l IH]; intros Hl; simpl.
  - constructor; constructor.
  - apply StronglySorted_inv in Hl. destruct Hl as [Hl Hy].
    rewrite List.Forall_forall in Hy.
    destruct (less x y) eqn:Hxy.
    + constructor; [apply IH, Hl|].
      rewrite List.Forall_forall. intros z Hz.
      apply (Permutation_in z (Permutation_sym (insertBack_perm x l))) in Hz.
      destruct Hz as [<-|Hz]; [|apply Hy, Hz].
      destruct (less y x) eqn:Hyx; [|reflexivity].
      pose proof (Htrans x y x Hxy Hyx) as C. rewrite Hirr in C. discriminate.
    + constructor; [constructor; [exact Hl|rewrite List.Forall_forall; exact Hy]|].
      rewrite List.Forall_forall. intros z [<-|Hz]; [exact Hxy|].
      apply (Hinc x y z Hxy), Hy, Hz.
Qed.

Lemma fold_insertBack_perm (l acc : list A) :
  Permutation (l ++ acc)
    (List.fold_left (fun acc x => GoSort.insertBack less x acc) l acc).
Proof.
  revert acc; induction l as [|x l IH]; intros acc; simpl; [reflexivity|].
  rewrite <- IH. rewrite <- insertBack_perm. apply Permutation_middle.
Qed.

Lemma fold_insertBack_descending (l acc : list A) :
  GoSort.strictWeak less -> descending acc ->
  descending (List.fold_left (fun acc x => GoSort.insertBack less x acc) l acc).
Proof.
  intros Hsw. revert acc; induction l as [|x l IH]; intros acc Hacc; simpl; [exact Hacc|].
  apply IH, insertBack_descending; assumption.
Qed.

Lemma descending_rev (l : list A) : descending l -> GoSort.ascending less (List.rev l).
Proof.
  unfold descending, GoSort.ascending. induction 1 as [|x l Hl IH Hx]; simpl.
  - constructor.
  - apply StronglySorted_app. split; [|split; [exact IH|repeat constructor]].
    intros a b Ha Hb. apply list_elem_of_In in Ha, Hb. destruct Hb as [<-|[]].
    rewrite List.Forall_forall in Hx. apply Hx. apply in_rev. exact Ha.
Qed.

End InsertionSort.

Lemma insertionSort_sorts : GoSort.sorts GoSort.insertionSort.
Proof.
  intros A less l. unfold GoSort.insertionSort. split.
  - rewrite <- Permutation_rev. rewrite <- (app_nil_r l) at 1. apply fold_insertBack_perm.
  - intros Hsw. apply descending_rev, fold_insertBack_descending; [exact Hsw|constructor].
Qed.

(** *** Decimal numbers *)

Lemma digitChar_digit (d : Z) :
  0 <= d <= 9 ->
  Strconv.isDigit (Strconv.digitChar d) = true /\ Strconv.digitVal (Strconv.digitChar d) = d.
Proof.
  intros H.
  assert (E : d = 0 \/ d = 1 \/ d = 2 \/ d = 3 \/ d = 4 \/ d = 5 \/ d = 6 \/ d = 7 \/ d = 8 \/ d = 9)
    by lia.
  repeat (destruct E as [->|E]; [split; reflexivity|]). subst d. split; reflexivity.
Qed.

Lemma decimal_app (acc : Z) (s1 s2 : string) :
  decimal acc (s1 ++ s2) = decimal (decimal acc s1) s2.
Proof. revert acc; induction s1 as [|c s1 IH]; intros acc; simpl; [reflexivity|apply IH]. Qed.

Lemma allBytes_app (p : ascii -> bool) (s1 s2 : string) :
  allBytes p (s1 ++ s2) = allBytes p s1 && allBytes p s2.
Proof.
  induction s1 as [|c s1 IH]; simpl; [reflexivity|]. rewrite IH, andb_assoc. reflexivity.
Qed.

(** [formatBits] writes the decimal digits of [u], without a leading
    zero unless [u] is zero. *)
Lemma formatBits_S (fuel : nat) (u : Z) (acc : string) :
  Strconv.formatBits (S fuel) u acc =
    if u <? 10 then String (Strconv.digitChar u) acc
    else Strconv.formatBits fuel (u / 10) (String (Strconv.digitChar (u mod 10)) acc).
Proof. reflexivity. Qed.

Lemma formatBits_digits (fuel : nat) :
  forall u acc, 0 <= u < 2 ^ Z.of_nat (S fuel) ->
  exists ds,
    Strconv.formatBits (S fuel) u acc = ds ++ acc
    /\ allBytes Strconv.isDigit ds = true
    /\ decimal 0 ds = u
    /\ exists c ds', ds = String c ds' /\ (0 < u -> 1 <= Strconv.digitVal c).
Proof.
  assert (Hsmall : forall u acc, 0 <= u < 10 ->
            exists ds,
              String (Strconv.digitChar u) acc = ds ++ acc
              /\ allBytes Strconv.isDigit ds = true
              /\ decimal 0 ds = u
              /\ exists c ds', ds = String c ds' /\ (0 < u -> 1 <= Strconv.digitVal c)).
  { intros u acc Hu. destruct (digitChar_digit u ltac:(lia)) as [Hd Hv].
    exists (String (Strconv.digitChar u) ""). cbn. rewrite Hd, Hv.
    repeat split. exists (Strconv.digitChar u), "". split; [reflexivity|lia]. }
  induction fuel as [|fuel IH]; intros u acc Hu;
    rewrite formatBits_S; destruct (Z.ltb_spec u 10) as [Hlt|Hge];
    try (apply Hsmall; lia).
  - change (2 ^ Z.of_nat 1) with 2 in Hu. lia.
  - assert (Hpos : 0 < 2 ^ Z.of_nat (S fuel)) by (apply Z.pow_pos_nonneg; lia).
    assert (Hq : 0 <= u / 10 < 2 ^ Z.of_nat (S fuel)).
    { rewrite (Nat2Z.inj_succ (S fuel)), Z.pow_succ_r in Hu by lia.
      split; [apply Z.div_pos; lia|]. apply Z.div_lt_upper_bound; lia. }
    destruct (IH (u / 10) (String (Strconv.digitChar (u mod 10)) acc) Hq)
      as [ds [Hds [Hall [Hval [c [ds' [Hc Hlead]]]]]]].
    destruct (digitChar_digit (u mod 10) ltac:(pose proof (Z.mod_pos_bound u 10); lia))
      as [Hd Hv].
    exists (ds ++ String (Strconv.digitChar (u mod 10)) "").
    split; [rewrite Hds, append_assoc; reflexivity|].
    split; [rewrite allBytes_app, Hall; cbn; rewrite Hd; reflexivity|].
    split; [rewrite decimal_app, Hval; cbn; rewrite Hv;
            pose proof (Z.div_mod u 10); lia|].
    exists c, (ds' ++ String (Strconv.digitChar (u mod 10)) "").
    split; [rewrite Hc; reflexivity|].
    intros _. apply Hlead. apply Z.div_str_pos. lia.
Qed.

Lemma FormatUint_digits (u : Z) :
  0 <= u ->
  allBytes Strconv.isDigit (Strconv.FormatUint u) = true
  /\ decimal 0 (Strconv.FormatUint u) = u
  /\ exists c ds', Strconv.FormatUint u = String c ds' /\ (0 < u -> 1 <= Strconv.digitVal c).
Proof.
  intros Hu. unfold Strconv.FormatUint.
  assert (Hfuel : 0 <= u < 2 ^ Z.of_nat (S (Z.to_nat (Z.log2 u)))).
  { split; [exact Hu|]. rewrite Nat2Z.inj_succ, Z2Nat.id by apply Z.log2_nonneg.
    destruct (Z.eq_dec u 0) as [->|Hne]; [reflexivity|].
    apply Z.log2_spec. lia. }
  destruct (formatBits_digits _ u "" Hfuel) as [ds [Hds [Hall [Hval Hlead]]]].
  rewrite Hds, append_empty_r. repeat split; assumption.
Qed.

(** *** The format of a line *)

Lemma isDigit_val (c : ascii) : Strconv.isDigit c = true -> 0 <= Strconv.digitVal c <= 9.
Proof. unfold Strconv.isDigit, Strconv.digitVal. intros H. apply andb_prop in H. lia. Qed.

Lemma decimal_mono (s : string) :
  forall acc, 0 <= acc -> allBytes Strconv.isDigit s = true -> acc <= decimal acc s.
Proof.
  induction s as [|c s IH]; intros acc Hacc Hall; simpl; [lia|].
  simpl in Hall. apply andb_prop in Hall. destruct Hall as [Hc Hs].
  pose proof (isDigit_val c Hc).
  assert (acc * 10 + Strconv.digitVal c <= decimal (acc * 10 + Strconv.digitVal c) s)
    by (apply IH; [lia|exact Hs]).
  lia.
Qed.

(** A width of at most a million is read digit by digit to its value. *)
Lemma doPrintf_width (minus zero : bool) (rest : string) (a : list Fmt.arg) (ds : string) :
  forall num,
    allBytes Strconv.isDigit ds = true ->
    0 <= num -> decimal num ds <= 1000000 ->
    Fmt.doPrintf (Fmt.Width minus zero num) (ds ++ rest) a
    = Fmt.doPrintf (Fmt.Width minus zero (decimal num ds)) rest a.
Proof.
  induction ds as [|c ds IH]; intros num Hall Hnum Hle; [reflexivity|].
  simpl in Hall. apply andb_prop in Hall. destruct Hall as [Hc Hs].
  pose proof (isDigit_val c Hc) as Hv.
  cbn [decimal] in Hle.
  assert (Hstep : num * 10 + Strconv.digitVal c
                  <= decimal (num * 10 + Strconv.digitVal c) ds)
    by (apply decimal_mono; [lia|exact Hs]).
  change (String c ds ++ rest) with (String c (ds ++ rest)).
  cbn [Fmt.doPrintf]. rewrite Hc.
  assert (Hsmall : Fmt.tooLarge num = false) by (unfold Fmt.tooLarge; lia).
  rewrite Hsmall. apply IH; [exact Hs|lia|exact Hle].
Qed.

Lemma digit_not_flag (c : ascii) :
  Strconv.isDigit c = true -> 1 <= Strconv.digitVal c ->
  Ascii.eqb c "-" = false /\ Ascii.eqb c "0" = false.
Proof.
  destruct c as [[] [] [] [] [] [] [] []]; intros H1 H2; vm_compute in H1, H2;
    first [discriminate H1 | split; reflexivity | exfalso; apply H2; reflexivity].
Qed.

(** The first directive of the line format prints the name
    left-justified in a column of [w] runes. *)
Lemma doPrintf_name (w : Z) (name rest : string) (a : list Fmt.arg) :
  0 <= w <= 1000000 ->
  Fmt.doPrintf Fmt.Lit ("%-" ++ Strconv.Itoa w ++ String "s" rest) (Fmt.AString name :: a)
  = padRight w name ++ Fmt.doPrintf Fmt.Lit rest a.
Proof.
  intros Hw.
  change (Fmt.doPrintf Fmt.Lit ("%-" ++ Strconv.Itoa w ++ String "s" rest) (Fmt.AString name :: a))
    with (Fmt.doPrintf (Fmt.Flags true false) (Strconv.Itoa w ++ String "s" rest)
            (Fmt.AString name :: a)).
  unfold Strconv.Itoa, Strconv.FormatInt.
  destruct (Z.ltb_spec w 0) as [Hneg|_]; [lia|].
  destruct (FormatUint_digits w ltac:(lia)) as [Hall [Hval [c [ds [Hds Hlead]]]]].
  destruct (Z.eq_dec w 0) as [->|Hpos].
  - change (Strconv.FormatUint 0) with "0". unfold padRight.
    change (Fmt.doPrintf (Fmt.Flags true false) ("0" ++ String "s" rest) (Fmt.AString name :: a))
      with (name ++ Fmt.doPrintf Fmt.Lit rest a).
    replace (Z.to_nat (0 - Z.of_nat (Utf8.RuneCountInString name))) with O by lia.
    cbn [Fmt.spaces repeatByte]. rewrite append_empty_r. reflexivity.
  - rewrite Hds in Hall, Hval |- *. simpl in Hall. apply andb_prop in Hall.
    destruct Hall as [Hc Hs]. specialize (Hlead ltac:(lia)).
    destruct (digit_not_flag c Hc Hlead) as [Hm Hz].
    change (String c ds ++ String "s" rest) with (String c (ds ++ String "s" rest)).
    cbn [Fmt.doPrintf]. rewrite Hm, Hz, Hc.
    cbn [decimal] in Hval. rewrite Z.mul_0_l, Z.add_0_l in Hval.
    rewrite doPrintf_width by (try exact Hs; lia). rewrite Hval.
    cbn [Fmt.doPrintf]. change (Strconv.isDigit "s") with false. cbv iota.
    cbn [Fmt.printVerb Fmt.printArg]. change (Ascii.eqb "s" "s") with true.
    cbn [orb]. unfold Fmt.pad, padRight.
    destruct (Z.eqb_spec w 0) as [C|_]; [contradiction|]. reflexivity.
Qed.

Lemma fmtInteger_width5 (i : Z) :
  Fmt.fmtInteger false false (Some 5) i = padLeft 5 (Strconv.FormatInt i).
Proof.
  unfold Fmt.fmtInteger, Strconv.FormatInt, padLeft, Fmt.pad. cbn [andb negb].
  change (5 =? 0) with false. cbv iota.
  destruct (Z.ltb_spec i 0) as [Hneg|Hpos].
  - rewrite Z.abs_neq by lia. reflexivity.
  - rewrite Z.abs_eq by lia. reflexivity.
Qed.

(** One line of the output, column by column. *)
Lemma renderLine_columns (w : Z) (r : record) :
  0 <= w <= 1000000 ->
  renderLine w r = columns w r.
Proof.
  intros Hw. unfold columns, renderLine, lineFormat, Fmt.Sprintf.
  change ("s %5d %s %-5s %s" ++ String newline "")
    with (String "s" (" %5d %s %-5s %s" ++ String newline "")).
  rewrite doPrintf_name by exact Hw. f_equal.
  change (Fmt.doPrintf Fmt.Lit (" %5d %s %-5s %s" ++ String newline "")
            (Fmt.AInt (TTL r) :: Fmt.AString (Class r) :: Fmt.AString (RType r)
             :: Fmt.AString (Data r) :: nil))
    with (String " " (Fmt.fmtInteger false false (Some 5) (TTL r)
                      ++ String " " (Class r
                      ++ String " " (Fmt.pad true false (Some 5) (RType r)
                      ++ String " " (Data r ++ String newline ""))))).
  rewrite fmtInteger_width5. reflexivity.
Qed.

(** *** The width of the name column *)

Lemma fold_max_spec (l : list record) :
  forall m0,
    let m := List.fold_left
               (fun maxLen r => if maxLen <? len (Name r) then len (Name r) else maxLen) l m0 in
    m0 <= m
    /\ (forall r, In r l -> len (Name r) <= m)
    /\ (m = m0 \/ exists r, In r l /\ len (Name r) = m).
Proof.
  induction l as [|x l IH]; intros m0; cbn zeta.
  - cbn. split; [lia|]. split; [intros r []|left; reflexivity].
  - cbn [List.fold_left]. specialize (IH (if m0 <? len (Name x) then len (Name x) else m0)).
    cbn zeta in IH. destruct IH as [H1 [H2 H3]].
    destruct (Z.ltb_spec m0 (len (Name x))) as [Hlt|Hge].
    + split; [lia|]. split.
      * intros r [<-|Hr]; [exact H1|apply H2, Hr].
      * right. destruct H3 as [H3|[r [Hr H3]]].
        -- exists x. split; [left; reflexivity|]. symmetry. exact H3.
        -- exists r. split; [right; exact Hr|exact H3].
    + split; [exact H1|]. split.
      * intros r [<-|Hr]; [lia|apply H2, Hr].
      * destruct H3 as [H3|[r [Hr H3]]]; [left; exact H3|].
        right. exists r. split; [right; exact Hr|exact H3].
Qed.

Lemma maxNameLen_spec (records : list record) :
  0 <= maxNameLen records
  /\ (forall r, In r records -> len (Name r) <= maxNameLen records)
  /\ (records <> nil -> exists r, In r records /\ len (Name r) = maxNameLen records).
Proof.
  unfold maxNameLen. destruct (fold_max_spec records 0) as [H1 [H2 H3]].
  split; [exact H1|]. split; [exact H2|].
  intros Hne. destruct H3 as [H3|H3]; [|exact H3].
  destruct records as [|x l]; [contradiction|].
  exists x. split; [left; reflexivity|].
  pose proof (H2 x (or_introl eq_refl)). unfold len in *. lia.
Qed.

Lemma length_append (s1 s2 : string) :
  String.length (s1 ++ s2) = (String.length s1 + String.length s2)%nat.
Proof. induction s1 as [|c s1 IH]; simpl; [|rewrite IH]; reflexivity. Qed.

Lemma length_repeatByte (c : ascii) (n : nat) : String.length (repeatByte c n) = n.
Proof. induction n as [|n IH]; simpl; [|rewrite IH]; reflexivity. Qed.

(** In a string of ASCII bytes every byte is a rune. *)
Lemma runeCount_ascii (s : string) :
  allBytes asciiByte s = true -> Utf8.RuneCountInString s = String.length s.
Proof.
  unfold Utf8.RuneCountInString. induction s as [|c s IH]; [reflexivity|].
  cbn [allBytes]. intros H. apply andb_prop in H. destruct H as [Hc Hs].
  cbn [Utf8.runeCountFrom Utf8.DecodeRuneInString String.length].
  unfold asciiByte in Hc. rewrite Hc. cbn [snd Nat.pred]. rewrite (IH Hs). reflexivity.
Qed.

Lemma concat_map_ext {X : Type} (f g : X -> string) (l : list X) :
  (forall x, In x l -> f x = g x) ->
  String.concat "" (List.map f l) = String.concat "" (List.map g l).
Proof.
  intros H. induction l as [|x l IH]; [reflexivity|].
  cbn [List.map]. rewrite (H x (or_introl eq_refl)).
  assert (IH' : String.concat "" (List.map f l) = String.concat "" (List.map g l))
    by (apply IH; intros y Hy; apply H; right; exact Hy).
  destruct l as [|y l]; [reflexivity|].
  cbn [List.map String.concat] in IH' |- *. rewrite IH'. reflexivity.
Qed.

(** *** Reading a rendered line back *)

Lemma startsIn_all (p : ascii -> bool) (s : string) :
  s <> "" -> allBytes p s = true -> startsIn p s = true.
Proof.
  destruct s as [|c s]; [contradiction|]. simpl. intros _ H.
  apply andb_prop in H. exact (proj1 H).
Qed.

Lemma startsIn_app (p : ascii -> bool) (s rest : string) :
  s <> "" -> startsIn p (s ++ rest) = startsIn p s.
Proof. destruct s as [|c s]; [contradiction|reflexivity]. Qed.

Lemma takeWhile_stop (p : ascii -> bool) (s : string) :
  startsIn p s = false -> takeWhile p s = "" /\ dropWhile p s = s.
Proof. destruct s as [|c s]; simpl; [split; reflexivity|]. intros ->. split; reflexivity. Qed.

Lemma takeWhile_app (p : ascii -> bool) (tok rest : string) :
  allBytes p tok = true -> startsIn p rest = false ->
  takeWhile p (tok ++ rest) = tok /\ dropWhile p (tok ++ rest) = rest.
Proof.
  intros Htok Hrest. induction tok as [|c tok IH]; simpl.
  - apply takeWhile_stop, Hrest.
  - simpl in Htok. apply andb_prop in Htok. destruct Htok as [Hc Htok].
    rewrite Hc. destruct (IH Htok) as [-> ->]. split; reflexivity.
Qed.

(** A word, blanks, and text that does not begin with a blank. *)
Lemma field_word (cls : ascii -> bool) (tok blanks rest : string) :
  (forall c, Regexp.space c = true -> cls c = false) ->
  tok <> "" -> allBytes cls tok = true ->
  blanks <> "" -> allBytes Regexp.space blanks = true ->
  startsIn Regexp.space rest = false ->
  field cls (tok ++ blanks ++ rest) = Some (tok, rest).
Proof.
  intros Hcls Htok Hall Hb Hball Hrest. unfold field.
  assert (Hstop : startsIn cls (blanks ++ rest) = false).
  { rewrite startsIn_app by exact Hb. destruct blanks as [|c b]; [contradiction|].
    simpl in Hball |- *. apply andb_prop in Hball. apply Hcls. exact (proj1 Hball). }
  destruct (takeWhile_app cls tok (blanks ++ rest) Hall Hstop) as [-> ->].
  rewrite startsIn_app by exact Htok. rewrite (startsIn_all cls tok Htok Hall).
  rewrite startsIn_app by exact Hb. rewrite (startsIn_all _ blanks Hb Hball).
  destruct (takeWhile_app Regexp.space blanks rest Hball Hrest) as [_ ->].
  reflexivity.
Qed.

Lemma allBytes_spaces (n : nat) : allBytes Regexp.space (Fmt.spaces n) = true.
Proof. induction n as [|n IH]; [reflexivity|exact IH]. Qed.

Lemma word_not_blank_start (s : string) :
  s <> "" -> allBytes Regexp.notSpace s = true -> startsIn Regexp.space s = false.
Proof.
  destruct s as [|c s]; [contradiction|]. simpl. intros _ H.
  apply andb_prop in H. apply notSpace_not_space. exact (proj1 H).
Qed.

Lemma digits_not_blank_start (s : string) :
  s <> "" -> allBytes Strconv.isDigit s = true -> startsIn Regexp.space s = false.
Proof.
  destruct s as [|c s]; [contradiction|]. simpl. intros _ H.
  apply andb_prop in H. apply digit_not_space. exact (proj1 H).
Qed.

Lemma FormatInt_digits (i : Z) :
  0 <= i ->
  Strconv.FormatInt i <> ""
  /\ allBytes Strconv.isDigit (Strconv.FormatInt i) = true
  /\ decimal 0 (Strconv.FormatInt i) = i.
Proof.
  intros Hi. unfold Strconv.FormatInt. destruct (Z.ltb_spec i 0) as [Hneg|_]; [lia|].
  destruct (FormatUint_digits i Hi) as [Hall [Hval [c [ds [Hds _]]]]].
  split; [rewrite Hds; discriminate|]. split; assumption.
Qed.

Lemma HasSuffixByte_nonempty (s : string) (c : ascii) :
  Strings.HasSuffixByte s c = true -> s <> "".
Proof. destruct s; [discriminate|discriminate]. Qed.

(** The line rendered for a record is read by [tokenize] as the five
    fields of the record. *)
Lemma tokenize_lineBody (w : Z) (r : record) :
  fieldsFromLine r -> rereadable r ->
  tokenize (lineBody w r)
  = Some {| tkName := Name r; tkTTL := Strconv.FormatInt (TTL r); tkClass := Class r;
            tkType := RType r; tkData := Data r |}.
Proof.
  intros [[Hc1 Hc2] [Ht1 Ht2] Hd1 Hd2 _] [Hn1 Hn2 _ [Httl _] _].
  pose proof (HasSuffixByte_nonempty _ _ Hn2) as Hn0.
  destruct (FormatInt_digits (TTL r) Httl) as [Hf0 [Hf1 _]].
  unfold tokenize, lineBody.
  rewrite (field_word Regexp.notSpace (Name r)); try assumption;
    [|exact space_not_notSpace|destruct (Fmt.spaces _); discriminate
     |rewrite !allBytes_app, !allBytes_spaces; reflexivity
     |rewrite startsIn_app by exact Hf0; apply digits_not_blank_start; assumption].
  change (Strconv.FormatInt (TTL r) ++ " " ++ Class r ++ " " ++ RType r
          ++ (Fmt.spaces (Z.to_nat (5 - Z.of_nat (Utf8.RuneCountInString (RType r)))) ++ " ")
          ++ Data r)
    with (Strconv.FormatInt (TTL r) ++ " "
          ++ (Class r ++ " " ++ RType r
              ++ (Fmt.spaces (Z.to_nat (5 - Z.of_nat (Utf8.RuneCountInString (RType r)))) ++ " ")
              ++ Data r)).
  rewrite (field_word Regexp.digit (Strconv.FormatInt (TTL r)) " "); try assumption;
    [|exact space_not_digit|discriminate|reflexivity
     |rewrite startsIn_app by exact Hc1; apply word_not_blank_start; assumption].
  unfold classTypeData.
  change (Class r ++ " " ++ RType r
          ++ (Fmt.spaces (Z.to_nat (5 - Z.of_nat (Utf8.RuneCountInString (RType r)))) ++ " ")
          ++ Data r)
    with (Class r ++ " "
          ++ (RType r
              ++ (Fmt.spaces (Z.to_nat (5 - Z.of_nat (Utf8.RuneCountInString (RType r)))) ++ " ")
              ++ Data r)).
  rewrite (field_word Regexp.notSpace (Class r) " "); try assumption;
    [|exact space_not_notSpace|discriminate|reflexivity
     |rewrite startsIn_app by exact Ht1; apply word_not_blank_start; assumption].
  rewrite (field_word Regexp.notSpace (RType r)); try assumption;
    [|exact space_not_notSpace|destruct (Fmt.spaces _); discriminate
     |rewrite allBytes_app, allBytes_spaces; reflexivity].
  rewrite Hd2. reflexivity.
Qed.


Lemma parseUintLoop_digits (fn orig : string) (s : string) :
  forall n,
    allBytes Strconv.isDigit s = true -> 0 <= n -> decimal n s < 2 ^ 63 ->
    Strconv.parseUintLoop fn orig s n = Ok (decimal n s).
Proof.
  induction s as [|c s IH]; intros n Hall Hn Hlt; [reflexivity|].
  simpl in Hall. apply andb_prop in Hall. destruct Hall as [Hc Hs].
  pose proof (isDigit_val c Hc) as Hv. cbn [decimal] in Hlt |- *.
  assert (Hstep : n * 10 + Strconv.digitVal c <= decimal (n * 10 + Strconv.digitVal c) s)
    by (apply decimal_mono; [lia|exact Hs]).
  cbn [Strconv.parseUintLoop]. rewrite Hc. cbn [negb].
  change (Strconv.maxUint64 / 10 + 1) with 1844674407370955162.
  change Strconv.maxUint64 with 18446744073709551615.
  change (2 ^ 63) with 9223372036854775808 in Hlt.
  destruct (Z.leb_spec 1844674407370955162 n) as [Hbig|_]; [lia|].
  destruct (Z.ltb_spec 18446744073709551615 (n * 10 + Strconv.digitVal c)) as [Hbig|_]; [lia|].
  apply IH; [exact Hs|lia|exact Hlt].
Qed.

Lemma digit_not_sign (c : ascii) :
  Strconv.isDigit c = true -> Ascii.eqb c "+" = false /\ Ascii.eqb c "-" = false.
Proof.
  destruct c as [[] [] [] [] [] [] [] []]; intros H; vm_compute in H;
    first [discriminate H | split; reflexivity].
Qed.

(** [strconv.ParseInt] reads back what [strconv.FormatInt] wrote for a
    number that is not negative. *)
Lemma ParseInt_FormatInt (i : Z) :
  0 <= i < 2 ^ 63 -> Strconv.ParseInt (Strconv.FormatInt i) = Ok i.
Proof.
  intros [Hi Hlt]. destruct (FormatInt_digits i Hi) as [Hne [Hall Hval]].
  destruct (Strconv.FormatInt i) as [|c ds] eqn:E; [contradiction|].
  unfold Strconv.ParseInt.
  pose proof Hall as Hall'. simpl in Hall'. apply andb_prop in Hall'.
  destruct (digit_not_sign c (proj1 Hall')) as [-> ->]. cbn [orb].
  unfold Strconv.parseUint.
  rewrite parseUintLoop_digits by (try exact Hall; rewrite ?Hval; lia).
  rewrite Hval. cbn [bind negb andb].
  destruct (Z.leb_spec (2 ^ 63) i) as [Hbig|_]; [lia|]. reflexivity.
Qed.

(** [parseRecord], with no origin and no default TTL, returns the record
    whose line it is given. *)
Lemma recordOfTokens_record (r : record) :
  fieldsFromLine r -> rereadable r ->
  recordOfTokens {| tkName := Name r; tkTTL := Strconv.FormatInt (TTL r); tkClass := Class r;
                    tkType := RType r; tkData := Data r |} "" 0
  = Ok r.
Proof.
  intros [_ _ _ _ Htxt] [_ Hdot _ Httl _].
  destruct (FormatInt_digits (TTL r) (proj1 Httl)) as [Hne _].
  destruct r as [n t c ty d]. cbn [Name TTL Class RType Data] in *.
  unfold recordOfTokens. cbn [tkName tkTTL tkClass tkType tkData].
  destruct (String.eqb_spec (Strconv.FormatInt t) "") as [E|_]; [contradiction|].
  cbn [negb]. rewrite (ParseInt_FormatInt _ Httl). cbn [bind Name].
  destruct (String.eqb_spec n "@") as [E|_]; [rewrite E in Hdot; discriminate|].
  cbn [Name]. rewrite Hdot. cbn [negb TTL withTTL RType Data Name Class].
  assert (Heta : (if t =? 0
                  then withTTL {| Name := n; TTL := t; Class := c; RType := ty; Data := d |} 0
                  else {| Name := n; TTL := t; Class := c; RType := ty; Data := d |})
                 = {| Name := n; TTL := t; Class := c; RType := ty; Data := d |})
    by (destruct (Z.eqb_spec t 0) as [->|_]; reflexivity).
  rewrite Heta. cbn [RType Data].
  destruct (String.eqb_spec ty "TXT") as [E|_]; [|reflexivity].
  specialize (Htxt E). destruct d as [|d0 d]; [discriminate|].
  simpl in Htxt. cbn [byteAt String.get bind]. rewrite Htxt. reflexivity.
Qed.

Lemma lineBody_first (w : Z) (r : record) :
  rereadable r ->
  exists c rest, lineBody w r = String c rest /\ Ascii.eqb c "$" = false.
Proof.
  intros [_ Hdot Hdollar _ _]. unfold lineBody.
  destruct (Name r) as [|c n]; [discriminate|].
  exists c. eexists. split; [reflexivity|exact Hdollar].
Qed.

(** A rendered line adds its record to the records read so far. *)
Lemma processLine_lineBody (w : Z) (r : record) (acc : list record) :
  fieldsFromLine r -> rereadable r ->
  processLine {| zone := ""; ttl := 0; rr := acc |} (lineBody w r)
  = Ok ({| zone := ""; ttl := 0; rr := (acc ++ r :: nil)%list |}, nil).
Proof.
  intros Hf Hr. unfold processLine.
  destruct (lineBody_first w r Hr) as [c [rest [E Hc]]].
  assert (Hfirst : byteAt (lineBody w r) 0 = Ok c) by (rewrite E; reflexivity).
  rewrite Hfirst. cbn [bind]. rewrite Hc. cbn [zone ttl rr].
  rewrite parseRecord_tokens, (tokenize_lineBody w r Hf Hr), (recordOfTokens_record r Hf Hr).
  reflexivity.
Qed.

Lemma scanLoop_lineBodies (w : Z) (records : list record) :
  forall acc,
    Forall fieldsFromLine records -> Forall rereadable records ->
    scanLoop {| zone := ""; ttl := 0; rr := acc |} (List.map (lineBody w) records)
    = (nil, Ok {| zone := ""; ttl := 0; rr := (acc ++ records)%list |}).
Proof.
  induction records as [|r records IH]; intros acc Hf Hr.
  - cbn. rewrite app_nil_r. reflexivity.
  - apply Forall_cons_iff in Hf, Hr. destruct Hf as [Hf Hfs], Hr as [Hr Hrs].
    cbn [List.map scanLoop]. rewrite (processLine_lineBody w r acc Hf Hr).
    rewrite (IH _ Hfs Hrs), <- app_assoc. reflexivity.
Qed.


(** *** Scanning rendered text *)

Lemma columns_lineBody (w : Z) (r : record) : columns w r = lineBody w r ++ lf.
Proof.
  unfold columns, lineBody, padRight, padLeft, lf.
  repeat rewrite append_assoc. reflexivity.
Qed.

Lemma rawLines_line (l rest : string) :
  noByte newline l = true ->
  Bufio.rawLines (l ++ String newline rest) = l :: Bufio.rawLines rest.
Proof.
  induction l as [|c l IH]; intros H.
  - reflexivity.
  - simpl in H. apply andb_prop in H. destruct H as [Hc Hl].
    change (String c l ++ String newline rest) with (String c (l ++ String newline rest)).
    cbn [Bufio.rawLines]. apply negb_true_iff in Hc. rewrite Hc, (IH Hl). reflexivity.
Qed.

Lemma rawLines_concat (ls : list string) :
  Forall (fun l => noByte newline l = true) ls ->
  Bufio.rawLines (String.concat "" (List.map (fun l => l ++ lf) ls)) = ls.
Proof.
  induction 1 as [|l ls Hl Hls IH]; [reflexivity|].
  cbn [List.map]. destruct ls as [|l' ls].
  - cbn [List.map String.concat]. unfold lf. rewrite (rawLines_line l "" Hl). reflexivity.
  - cbn [List.map String.concat] in IH |- *.
    unfold lf at 1. rewrite append_assoc.
    change (String newline "" ++ "" ++ ?x) with (String newline x).
    rewrite (rawLines_line l _ Hl), IH. reflexivity.
Qed.

Lemma takeFitting_all (ls : list string) :
  Forall (fun l => Bufio.fits l = true) ls -> Bufio.takeFitting ls = ls.
Proof.
  induction 1 as [|l ls Hl Hls IH]; [reflexivity|].
  cbn [Bufio.takeFitting]. rewrite Hl, IH. reflexivity.
Qed.

Lemma dropCR_keeps (s : string) :
  Strings.HasSuffixByte s carriageReturn = false -> Bufio.dropCR s = s.
Proof.
  induction s as [|c s IH]; [reflexivity|].
  destruct s as [|c' s].
  - cbn. intros ->. reflexivity.
  - intros H. change (Bufio.dropCR (String c (String c' s)))
      with (String c (Bufio.dropCR (String c' s))).
    rewrite IH; [reflexivity|exact H].
Qed.

Lemma noByte_app (c : ascii) (a b : string) :
  noByte c (a ++ b) = noByte c a && noByte c b.
Proof. induction a as [|x a IH]; simpl; [reflexivity|]. rewrite IH, andb_assoc. reflexivity. Qed.

Lemma noByte_of_all (p : ascii -> bool) (c : ascii) (s : string) :
  p c = false -> allBytes p s = true -> noByte c s = true.
Proof.
  intros Hc. induction s as [|x s IH]; [reflexivity|]. simpl. intros H.
  apply andb_prop in H. destruct H as [Hx Hs]. rewrite (IH Hs), andb_true_r.
  destruct (Ascii.eqb_spec x c) as [->|_]; [congruence|reflexivity].
Qed.

Lemma HasSuffixByte_app (a b : string) (c : ascii) :
  b <> "" -> Strings.HasSuffixByte (a ++ b) c = Strings.HasSuffixByte b c.
Proof.
  intros Hb. induction a as [|x a IH]; [reflexivity|].
  change (String x a ++ b) with (String x (a ++ b)).
  destruct (a ++ b) as [|y rest] eqn:E.
  - destruct a; [simpl in E; contradiction|discriminate].
  - rewrite <- IH. reflexivity.
Qed.

Lemma noByte_spaces (n : nat) : noByte newline (Fmt.spaces n) = true.
Proof. induction n as [|n IH]; [reflexivity|exact IH]. Qed.

(** A rendered line holds no newline and does not end in a carriage
    return. *)
Lemma lineBody_one_line (w : Z) (r : record) :
  fieldsFromLine r -> rereadable r ->
  noByte newline (lineBody w r) = true
  /\ Strings.HasSuffixByte (lineBody w r) carriageReturn = false.
Proof.
  intros [[_ Hc] [_ Ht] _ Hd _] [Hn _ _ [Httl _] Hcr].
  destruct (FormatInt_digits (TTL r) Httl) as [_ [Hf _]].
  unfold lineBody. split.
  - rewrite !noByte_app, !noByte_spaces.
    rewrite (noByte_of_all Regexp.notSpace newline _ eq_refl Hn).
    rewrite (noByte_of_all Strconv.isDigit newline _ eq_refl Hf).
    rewrite (noByte_of_all Regexp.notSpace newline _ eq_refl Hc).
    rewrite (noByte_of_all Regexp.notSpace newline _ eq_refl Ht).
    rewrite Hd. reflexivity.
  - rewrite <- !append_assoc. rewrite (append_assoc _ " " (Data r)).
    rewrite HasSuffixByte_app by discriminate.
    destruct (Data r) as [|d0 d]; [reflexivity|exact Hcr].
Qed.

(** The scanner delivers the lines of rendered text as they were
    rendered. *)
Lemma scanLines_render (w : Z) (records : list record) :
  Forall fieldsFromLine records -> Forall rereadable records ->
  Forall (fun r => len (columns w r) <= Bufio.MaxScanTokenSize) records ->
  Bufio.scanLines (String.concat "" (List.map (columns w) records))
  = List.map (lineBody w) records.
Proof.
  intros Hf Hr Hfit. unfold Bufio.scanLines.
  rewrite (concat_map_ext (columns w) (fun r => lineBody w r ++ lf))
    by (intros; apply columns_lineBody).
  rewrite <- (List.map_map (lineBody w) (fun l => l ++ lf)).
  rewrite rawLines_concat.
  - rewrite takeFitting_all.
    + rewrite <- (List.map_id (List.map (lineBody w) records)) at 2.
      apply List.map_ext_in. intros l Hl. apply in_map_iff in Hl.
      destruct Hl as [r [<- Hin]]. rewrite List.Forall_forall in Hf, Hr.
      apply dropCR_keeps. exact (proj2 (lineBody_one_line w r (Hf r Hin) (Hr r Hin))).
    + rewrite List.Forall_forall. intros l Hl. apply in_map_iff in Hl.
      destruct Hl as [r [<- Hin]]. rewrite List.Forall_forall in Hfit.
      specialize (Hfit r Hin). rewrite columns_lineBody in Hfit.
      unfold len in Hfit. rewrite length_append in Hfit.
      unfold Bufio.fits. change Bufio.MaxScanTokenSize with 65536 in Hfit |- *.
      change (String.length lf) with 1%nat in Hfit.
      apply Z.ltb_lt. lia.
  - rewrite List.Forall_forall. intros l Hl. apply in_map_iff in Hl.
    destruct Hl as [r [<- Hin]]. rewrite List.Forall_forall in Hf, Hr.
    exact (proj1 (lineBody_one_line w r (Hf r Hin) (Hr r Hin))).
Qed.

(** *** Sorting what is sorted *)

Lemma leb_antisym_eq (a b : string) :
  String.leb a b = true -> String.leb b a = true -> a = b.
Proof. intros H1 H2. apply String.leb_antisym; assumption. Qed.

Lemma sortRecords_ascending (records : list record) :
  GoSort.sorts sortImpl ->
  keepsAscending sortImpl \/ noTies sorting records ->
  sortRecords (sortRecords records) = sortRecords records.
Proof.
  intros Hsort Hstable. unfold sortRecords.
  destruct (Hsort record (Less sorting) records) as [Hperm Hasc].
  specialize (Hasc Less_strictWeak).
  destruct Hstable as [Hkeep|Hties]; [apply Hkeep, Hasc|].
  destruct (Hsort record (Less sorting) (sortImpl record (Less sorting) records))
    as [Hperm' Hasc'].
  specialize (Hasc' Less_strictWeak).
  apply (StronglySorted_unique_strong (fun a b => Less sorting b a = false));
    [|exact Hasc'|exact Hasc|symmetry; exact Hperm'].
  intros x1 x2 Hx1 Hx2 H12 H21. apply list_elem_of_In in Hx1, Hx2.
  apply not_Less_spec in H12, H21.
  apply (Permutation_in _ (Permutation_sym Hperm')) in Hx1.
  apply (Permutation_in _ (Permutation_sym Hperm)) in Hx1, Hx2.
  destruct H12 as [H12|[E12 L12]], H21 as [H21|[E21 L21]]; try lia.
  apply Hties; [exact Hx1|exact Hx2|exact E12|apply leb_antisym_eq; assumption].
Qed.

Lemma insertionSort_keepsAscending : keepsAscending GoSort.insertionSort.
Proof.
  intros A less l Hl. unfold GoSort.insertionSort.
  assert (Hfold : forall pre rest,
             GoSort.ascending less (pre ++ rest) ->
             List.fold_left (fun acc x => GoSort.insertBack less x acc) rest (List.rev pre)
             = List.rev (pre ++ rest)).
  { intros pre rest. revert pre; induction rest as [|x rest IH]; intros pre Hasc.
    - rewrite app_nil_r. reflexivity.
    - cbn [List.fold_left].
      assert (Hins : GoSort.insertBack less x (List.rev pre) = List.rev (pre ++ x :: nil)).
      { rewrite rev_app_distr. cbn [List.rev List.app].
        destruct (List.rev pre) as [|y ys] eqn:E; [reflexivity|].
        cbn [GoSort.insertBack].
        assert (Hy : less x y = false).
        { apply StronglySorted_app in Hasc. destruct Hasc as [Hcross _].
          apply Hcross; apply list_elem_of_In; [|left; reflexivity].
          apply in_rev. rewrite E. left. reflexivity. }
        rewrite Hy. reflexivity. }
      rewrite Hins. rewrite (IH (pre ++ x :: nil)%list).
      + rewrite <- app_assoc. reflexivity.
      + rewrite <- app_assoc. exact Hasc. }
  specialize (Hfold nil l Hl). cbn [List.rev List.app] in Hfold.
  rewrite Hfold. apply rev_involutive.
Qed.

(** *** The records of a run *)

Lemma high_not_newline (b : ascii) : 128 <= byteZ b -> Ascii.eqb b newline = false.
Proof.
  intros H. destruct (Ascii.eqb_spec b newline) as [->|_]; [|reflexivity].
  vm_compute in H. exfalso. apply H. reflexivity.
Qed.

Lemma substring_high (w : nat) :
  forall s,
    (forall i, (i < w)%nat -> exists b, String.get i s = Some b /\ 128 <= byteZ b) ->
    noByte newline (String.substring 0 w s) = true.
Proof.
  induction w as [|w IH]; intros s H.
  - destruct s; reflexivity.
  - destruct (H O ltac:(lia)) as [b [Hb Hhigh]].
    destruct s as [|c s]; [discriminate|]. injection Hb as ->.
    cbn [String.substring noByte]. rewrite (high_not_newline b Hhigh). cbn [negb andb].
    apply IH. intros i Hi. exact (H (S i) ltac:(lia)).
Qed.

Lemma contIn_high (s : string) (i : nat) (lo hi v : Z) :
  128 <= lo -> Utf8.contIn s i lo hi = Some v ->
  exists b, String.get i s = Some b /\ 128 <= byteZ b.
Proof.
  unfold Utf8.contIn. intros Hlo. destruct (String.get i s) as [b|]; [|discriminate].
  destruct (Z.leb_spec lo (byteZ b)) as [Hb|_]; cbn [andb]; [|discriminate].
  intros _. exists b. split; [reflexivity|lia].
Qed.

(** The bytes of a rune that [strconv.IsPrint] accepts hold no newline. *)
Lemma printable_rune_one_line (s : string) :
  Strconv.IsPrint isPrintWide (fst (Utf8.DecodeRuneInString s)) = true ->
  noByte newline (String.substring 0 (snd (Utf8.DecodeRuneInString s)) s) = true.
Proof.
  destruct s as [|c s]; [reflexivity|].
  unfold Utf8.DecodeRuneInString.
  destruct (Z.ltb_spec (byteZ c) 128) as [Hlow|Hhigh].
  - cbn [fst snd]. intros Hprint.
    destruct (Ascii.eqb_spec c newline) as [->|Hc]; [vm_compute in Hprint; discriminate|].
    destruct s; cbn; apply Ascii.eqb_neq in Hc; rewrite Hc; reflexivity.
  - intros _. apply substring_high.
    assert (H0 : exists b, String.get 0 (String c s) = Some b /\ 128 <= byteZ b)
      by (exists c; split; [reflexivity|exact Hhigh]).
    assert (Hlo1 : 128 <= (if byteZ c =? 224 then 160 else 128))
      by (destruct (byteZ c =? 224); lia).
    assert (Hlo2 : 128 <= (if byteZ c =? 240 then 144 else 128))
      by (destruct (byteZ c =? 240); lia).
    destruct (byteZ c <? 194); [intros [|i] Hi; [exact H0|cbn in Hi; lia]|].
    destruct (byteZ c <? 224).
    { destruct (Utf8.contIn (String c s) 1 128 191) eqn:E1;
        intros [|[|i]] Hi; cbn [snd] in Hi; try lia; try exact H0.
      eapply contIn_high; [|exact E1]; lia. }
    destruct (byteZ c <? 240).
    { destruct (Utf8.contIn (String c s) 1 _ _) eqn:E1;
        [destruct (Utf8.contIn (String c s) 2 128 191) eqn:E2|];
        intros [|[|[|i]]] Hi; cbn [snd] in Hi; try lia; try exact H0.
      - eapply contIn_high; [|exact E1]; exact Hlo1.
      - eapply contIn_high; [|exact E2]; lia. }
    destruct (byteZ c <? 245).
    { destruct (Utf8.contIn (String c s) 1 _ _) eqn:E1;
        [destruct (Utf8.contIn (String c s) 2 128 191) eqn:E2;
         [destruct (Utf8.contIn (String c s) 3 128 191) eqn:E3|]|];
        intros [|[|[|[|i]]]] Hi; cbn [snd] in Hi; try lia; try exact H0.
      - eapply contIn_high; [|exact E1]; exact Hlo2.
      - eapply contIn_high; [|exact E2]; lia.
      - eapply contIn_high; [|exact E3]; lia. }
    intros [|i] Hi; [exact H0|cbn in Hi; lia].
Qed.

Lemma lowerhex_one_line (x : Z) : Ascii.eqb (Strconv.lowerhex (Z.land x 15)) newline = false.
Proof.
  change 15 with (Z.ones 4). rewrite Z.land_ones by lia.
  pose proof (Z.mod_pos_bound x (2 ^ 4) ltac:(lia)) as H.
  change (2 ^ 4) with 16 in *.
  assert (E : x mod 16 = 0 \/ x mod 16 = 1 \/ x mod 16 = 2 \/ x mod 16 = 3 \/ x mod 16 = 4
              \/ x mod 16 = 5 \/ x mod 16 = 6 \/ x mod 16 = 7 \/ x mod 16 = 8 \/ x mod 16 = 9
              \/ x mod 16 = 10 \/ x mod 16 = 11 \/ x mod 16 = 12 \/ x mod 16 = 13
              \/ x mod 16 = 14 \/ x mod 16 = 15) by lia.
  repeat (destruct E as [->|E]; [reflexivity|]). rewrite E. reflexivity.
Qed.

Lemma hexDigits_one_line (r : Z) (shifts : list Z) :
  noByte newline (Strconv.hexDigits r shifts) = true.
Proof.
  induction shifts as [|sh shifts IH]; [reflexivity|].
  cbn [Strconv.hexDigits fold_right noByte] in IH |- *.
  rewrite lowerhex_one_line. exact IH.
Qed.

Lemma appendEscapedRune_one_line (r : Z) (raw : string) :
  (Strconv.IsPrint isPrintWide r = true -> noByte newline raw = true) ->
  noByte newline (Strconv.appendEscapedRune isPrintWide r raw) = true.
Proof.
  intros Hraw. unfold Strconv.appendEscapedRune.
  destruct (Z.eqb_spec r 34) as [->|_]; [reflexivity|].
  destruct (Z.eqb_spec r 92) as [->|_]; [reflexivity|]. cbn [orb].
  destruct (Strconv.IsPrint isPrintWide r); [apply Hraw; reflexivity|].
  repeat match goal with
         | |- context [if ?b then _ else _] => destruct b; [try reflexivity|]
         end;
    try reflexivity;
    rewrite ?noByte_app, ?hexDigits_one_line; reflexivity.
Qed.

Lemma quoteFrom_one_line (s : string) :
  forall skip, noByte newline (Strconv.quoteFrom isPrintWide s skip) = true.
Proof.
  induction s as [|c s IH]; intros skip; [reflexivity|].
  cbn [Strconv.quoteFrom]. destruct skip as [|k]; [|apply IH].
  pose proof (printable_rune_one_line (String c s)) as Hraw.
  destruct (Utf8.DecodeRuneInString (String c s)) as [r width]. cbn [fst snd] in Hraw.
  rewrite noByte_app, IH, andb_true_r.
  destruct ((width =? 1)%nat && (r =? Utf8.RuneError)).
  - rewrite noByte_app, hexDigits_one_line. reflexivity.
  - apply appendEscapedRune_one_line, Hraw.
Qed.

Lemma Quote_one_line (s : string) : noByte newline (Strconv.Quote isPrintWide s) = true.
Proof.
  unfold Strconv.Quote. cbn [noByte]. rewrite noByte_app, quoteFrom_one_line. reflexivity.
Qed.

Lemma allBytes_takeWhile (p : ascii -> bool) (s : string) : allBytes p (takeWhile p s) = true.
Proof.
  induction s as [|c s IH]; [reflexivity|]. simpl. destruct (p c) eqn:E; [|reflexivity].
  simpl. rewrite E, IH. reflexivity.
Qed.

Lemma startsIn_dropWhile (p : ascii -> bool) (s : string) : startsIn p (dropWhile p s) = false.
Proof.
  induction s as [|c s IH]; [reflexivity|]. simpl. destruct (p c) eqn:E; [exact IH|].
  simpl. exact E.
Qed.

Lemma field_Some (cls : ascii -> bool) (s tok rest : string) :
  field cls s = Some (tok, rest) ->
  tok <> "" /\ allBytes cls tok = true /\ startsIn Regexp.space rest = false.
Proof.
  unfold field. destruct (startsIn cls s) eqn:Hs; [|discriminate].
  destruct (startsIn Regexp.space (dropWhile cls s)); [|discriminate].
  cbn [andb]. intros H. injection H as <- <-.
  split; [|split; [apply allBytes_takeWhile|apply startsIn_dropWhile]].
  destruct s as [|c s]; [discriminate|]. simpl in Hs |- *. rewrite Hs. discriminate.
Qed.

Lemma classTypeData_Some (s c t d : string) :
  classTypeData s = Some (c, t, d) ->
  (c <> "" /\ allBytes Regexp.notSpace c = true)
  /\ (t <> "" /\ allBytes Regexp.notSpace t = true)
  /\ startsIn Regexp.space d = false
  /\ noByte newline d = true.
Proof.
  unfold classTypeData.
  destruct (field Regexp.notSpace s) as [[c' s1]|] eqn:E1; [|discriminate].
  destruct (field Regexp.notSpace s1) as [[t' d']|] eqn:E2; [|discriminate].
  destruct (noByte newline d') eqn:E3; [|discriminate].
  intros H. injection H as <- <- <-.
  destruct (field_Some _ _ _ _ E1) as [H1 [H2 _]].
  destruct (field_Some _ _ _ _ E2) as [H3 [H4 H5]].
  repeat split; assumption.
Qed.

Lemma tokenize_Some (line : string) (tk : tokens) :
  tokenize line = Some tk ->
  (tkClass tk <> "" /\ allBytes Regexp.notSpace (tkClass tk) = true)
  /\ (tkType tk <> "" /\ allBytes Regexp.notSpace (tkType tk) = true)
  /\ startsIn Regexp.space (tkData tk) = false
  /\ noByte newline (tkData tk) = true.
Proof.
  unfold tokenize. destruct (field Regexp.notSpace line) as [[n s1]|]; [|discriminate].
  destruct (field Regexp.digit s1) as [[t s2]|].
  - destruct (classTypeData s2) as [[[c ty] d]|] eqn:E.
    + intros H. injection H as <-. exact (classTypeData_Some _ _ _ _ E).
    + destruct (classTypeData s1) as [[[c ty] d]|] eqn:E'; [|discriminate].
      intros H. injection H as <-. exact (classTypeData_Some _ _ _ _ E').
  - destruct (classTypeData s1) as [[[c ty] d]|] eqn:E'; [|discriminate].
    intros H. injection H as <-. exact (classTypeData_Some _ _ _ _ E').
Qed.

(** Every record that [parseRecord] returns has the shape of the fields of
    a line. *)
Lemma parseRecord_fields (line zone : string) (dttl : Z) (r : record) :
  parseRecord line zone dttl = Ok r -> fieldsFromLine r.
Proof.
  intros Hok. destruct (parseRecord_Ok_tokens _ _ _ _ Hok) as [tk [Htk Hrec]].
  destruct (tokenize_Some _ _ Htk) as [Hc [Ht [Hd1 Hd2]]].
  destruct (recordOfTokens_Ok _ _ _ _ Hrec) as [_ [_ [_ [_ [HC [HT [HD Hne]]]]]]].
  split.
  - rewrite HC. exact Hc.
  - rewrite HT. exact Ht.
  - rewrite HD. destruct (_ && _); [reflexivity|exact Hd1].
  - rewrite HD. destruct (_ && _); [apply Quote_one_line|exact Hd2].
  - intros E. rewrite HD. rewrite HT in E. rewrite E.
    change (("TXT" =? "TXT")%string) with true. cbn [andb].
    destruct (startsWith (tkData tk) quoteChar) eqn:Hq; [exact Hq|reflexivity].
Qed.

Lemma processLine_records (P : record -> Prop) (st st' : state) (text : string)
    (logged : list logEntry) :
  (forall line zone dttl r, parseRecord line zone dttl = Ok r -> P r) ->
  processLine st text = Ok (st', logged) ->
  Forall P (rr st) -> Forall P (rr st').
Proof.
  intros HP. unfold processLine.
  destruct (byteAt text 0) as [c0| |]; cbn [bind]; try discriminate.
  destruct (Ascii.eqb c0 "$").
  - destruct (index (Strings.SplitN2 text " ") 0) as [p0| |]; cbn [bind]; try discriminate.
    destruct (String.eqb p0 "$ORIGIN").
    + destruct (index (Strings.SplitN2 text " ") 1) as [p1| |]; cbn [bind]; try discriminate.
      intros H. injection H as <- _. exact (fun x => x).
    + destruct (String.eqb p0 "$TTL").
      * destruct (index (Strings.SplitN2 text " ") 1) as [p1| |]; cbn [bind]; try discriminate.
        destruct (Time.ParseDuration p1) as [t| |]; cbn [bind]; try discriminate.
        intros H. injection H as <- _. exact (fun x => x).
      * intros H. injection H as <- _. exact (fun x => x).
  - destruct (parseRecord text (zone st) (ttl st)) as [rec|e|] eqn:E; try discriminate.
    + intros H. injection H as <- _. cbn [rr]. intros Hall.
      apply Forall_app. split; [exact Hall|]. constructor; [|constructor].
      exact (HP _ _ _ _ E).
    + intros H. injection H as <- _. exact (fun x => x).
Qed.

Lemma scanLoop_records (P : record -> Prop) (lines : list string) :
  (forall line zone dttl r, parseRecord line zone dttl = Ok r -> P r) ->
  forall st st' logged,
    scanLoop st lines = (logged, Ok st') -> Forall P (rr st) -> Forall P (rr st').
Proof.
  intros HP. induction lines as [|text lines IH]; intros st st' logged.
  - cbn. intros H. injection H as _ <-. exact (fun x => x).
  - cbn [scanLoop]. destruct (processLine st text) as [[st1 lg]| |] eqn:E; try discriminate.
    destruct (scanLoop st1 lines) as [later final] eqn:E'.
    intros H. injection H as _ ->. intros Hall.
    apply (IH st1 st' later E'). exact (processLine_records P st st1 text lg HP E Hall).
Qed.

(** *** Formatting the output again *)

Lemma maxNameLen_perm (l l' : list record) :
  Permutation l l' -> maxNameLen l = maxNameLen l'.
Proof.
  intros Hperm.
  destruct (maxNameLen_spec l) as [H0 [Hle Hmax]].
  destruct (maxNameLen_spec l') as [H0' [Hle' Hmax']].
  destruct l as [|x l].
  - apply Permutation_nil in Hperm. subst l'. reflexivity.
  - assert (Hne : (x :: l)%list <> nil) by discriminate.
    assert (Hne' : l' <> nil).
    { intros ->. apply Permutation_sym, Permutation_nil in Hperm. discriminate. }
    destruct (Hmax Hne) as [r [Hr Hlen]]. destruct (Hmax' Hne') as [r' [Hr' Hlen']].
    pose proof (Hle' r (Permutation_in _ Hperm Hr)).
    pose proof (Hle r' (Permutation_in _ (Permutation_sym Hperm) Hr')).
    lia.
Qed.

Lemma len_columns_name (w : Z) (r : record) : len (Name r) <= len (columns w r).
Proof.
  unfold columns, padRight, len. rewrite <- append_assoc, !length_append. lia.
Qed.

(** A name column wider than a line of the scanner is never asked for
    when every rendered line fits the scanner. *)
Lemma maxNameLen_fits (records : list record) :
  Forall (fun r => len (columns (maxNameLen records) r) <= Bufio.MaxScanTokenSize) records ->
  0 <= maxNameLen records <= 1000000.
Proof.
  intros Hfit. destruct (maxNameLen_spec records) as [H0 [_ Hmax]].
  split; [exact H0|].
  destruct records as [|x l]; [cbn; lia|].
  destruct (Hmax ltac:(discriminate)) as [r [Hr Hlen]].
  rewrite List.Forall_forall in Hfit. specialize (Hfit r Hr).
  pose proof (len_columns_name (maxNameLen (x :: l)) r).
  change Bufio.MaxScanTokenSize with 65536 in Hfit. lia.
Qed.

Lemma Forall_perm {X : Type} (P : X -> Prop) (l l' : list X) :
  Permutation l l' -> Forall P l -> Forall P l'.
Proof.
  intros Hperm Hall. rewrite List.Forall_forall in Hall |- *.
  intros x Hx. apply Hall. exact (Permutation_in _ (Permutation_sym Hperm) Hx).
Qed.

(** C3, as amended. When the first run goes through, every record it
    collects has a name that is a word ending in a dot and not beginning
    with a dollar sign, a TTL that is not negative and data that does not
    end in a carriage return, every rendered line fits the scanner (64 KiB),
    and the sort either leaves a list that is in order as it is or no two
    different records have the same score and name, then formatting the
    output of the first run yields that output again, byte for byte, and
    logs nothing. *)
Theorem format_output_again (input : string) (logged : list logEntry) (st : state) :
  GoSort.sorts sortImpl ->
  keepsAscending sortImpl \/ noTies sorting (rr st) ->
  scanLoop initial (Bufio.scanLines input) = (logged, Ok st) ->
  Forall rereadable (rr st) ->
  Forall (fun r => len (columns (maxNameLen (rr st)) r) <= Bufio.MaxScanTokenSize) (rr st) ->
  exists out,
    formatZone input = (logged, Ok out)
    /\ out = String.concat "" (List.map (columns (maxNameLen (rr st))) (sortRecords (rr st)))
    /\ formatZone out = (nil, Ok out).
Proof.
  intros Hsort Hstable Hrun Hread Hfit.
  pose proof (scanLoop_records fieldsFromLine _ parseRecord_fields _ _ _ Hrun
                (List.Forall_nil _)) as Hfields.
  destruct (Hsort record (Less sorting) (rr st)) as [Hperm _].
  fold (sortRecords (rr st)) in Hperm.
  pose proof (maxNameLen_fits _ Hfit) as Hw.
  rewrite (maxNameLen_perm _ _ Hperm) in Hw, Hfit |- *.
  apply (Forall_perm _ _ _ Hperm) in Hfields, Hread, Hfit.
  assert (Hout : render (sortRecords (rr st))
                 = String.concat "" (List.map (columns (maxNameLen (sortRecords (rr st))))
                                       (sortRecords (rr st)))).
  { unfold render. apply concat_map_ext. intros r _. apply renderLine_columns. exact Hw. }
  exists (render (sortRecords (rr st))).
  split; [rewrite formatZone_scanLoop, Hrun; reflexivity|].
  split; [exact Hout|].
  rewrite formatZone_scanLoop. rewrite Hout at 1.
  rewrite (scanLines_render _ _ Hfields Hread Hfit).
  unfold initial.
  rewrite (scanLoop_lineBodies _ _ nil Hfields Hread).
  cbn [rr List.app]. rewrite (sortRecords_ascending _ Hsort Hstable). reflexivity.
Qed.

(** *** Lines by their fields *)

Lemma isWord_spec (s : string) :
  isWord s = true -> s <> "" /\ allBytes Regexp.notSpace s = true.
Proof.
  unfold isWord. intros H. apply andb_prop in H. destruct H as [H1 H2].
  split; [|exact H2]. intros ->. discriminate.
Qed.

Lemma isBlanks_spec (s : string) :
  isBlanks s = true -> s <> "" /\ allBytes Regexp.space s = true.
Proof.
  unfold isBlanks. intros H. apply andb_prop in H. destruct H as [H1 H2].
  split; [|exact H2]. intros ->. discriminate.
Qed.

Lemma isNumber_spec (s : string) :
  isNumber s = true -> s <> "" /\ allBytes Strconv.isDigit s = true.
Proof.
  unfold isNumber. intros H. apply andb_prop in H. destruct H as [H1 H2].
  split; [|exact H2]. intros ->. discriminate.
Qed.

Lemma isRest_spec (s : string) :
  isRest s = true -> startsIn Regexp.space s = false /\ noByte newline s = true.
Proof.
  unfold isRest. intros H. apply andb_prop in H. destruct H as [H1 H2].
  split; [|exact H2]. destruct (startsIn Regexp.space s); [discriminate|reflexivity].
Qed.

Lemma allBytes_impl (p q : ascii -> bool) (s : string) :
  (forall c, p c = true -> q c = true) -> allBytes p s = true -> allBytes q s = true.
Proof.
  intros Hpq. induction s as [|c s IH]; [reflexivity|]. cbn [allBytes]. intros H.
  apply andb_prop in H. destruct H as [Hc Hs]. rewrite (Hpq c Hc), (IH Hs). reflexivity.
Qed.

Lemma digit_notSpace (c : ascii) : Strconv.isDigit c = true -> Regexp.notSpace c = true.
Proof.
  intros H. unfold Regexp.notSpace. rewrite (digit_not_space c H). reflexivity.
Qed.

Lemma isNumber_isWord (s : string) : isNumber s = true -> isWord s = true.
Proof.
  unfold isNumber, isWord. intros H. apply andb_prop in H. destruct H as [H1 H2].
  rewrite H1. cbn [andb]. exact (allBytes_impl _ _ s digit_notSpace H2).
Qed.

Lemma isWord_isRest (s : string) : isWord s = true -> isRest s = true.
Proof.
  intros H. destruct (isWord_spec s H) as [Hne Hall]. unfold isRest.
  rewrite (word_not_blank_start s Hne Hall). cbn [negb andb].
  apply (noByte_of_all Regexp.notSpace); [reflexivity|exact Hall].
Qed.

(** What is left of a word when a run of bytes is taken from its front
    does not begin with a blank. *)
Lemma word_suffix (cls : ascii -> bool) (w : string) :
  allBytes Regexp.notSpace w = true -> startsIn Regexp.space (dropWhile cls w) = false.
Proof.
  induction w as [|c w IH]; [reflexivity|]. cbn [allBytes dropWhile]. intros H.
  apply andb_prop in H. destruct H as [Hc Hw]. destruct (cls c); [exact (IH Hw)|].
  cbn [startsIn]. exact (notSpace_not_space c Hc).
Qed.

(** No field ends at the end of the text. *)
Lemma field_of_word (cls : ascii -> bool) (w : string) :
  allBytes Regexp.notSpace w = true -> field cls w = None.
Proof.
  intros H. unfold field. rewrite (word_suffix cls w H), andb_false_r. reflexivity.
Qed.

Lemma field_notSpace_word (w b rest : string) :
  isWord w = true -> isBlanks b = true -> startsIn Regexp.space rest = false ->
  field Regexp.notSpace (w ++ b ++ rest) = Some (w, rest).
Proof.
  intros Hw Hb Hrest. destruct (isWord_spec w Hw) as [Hne Hall].
  destruct (isBlanks_spec b Hb) as [Hbne Hball].
  apply field_word; try assumption. exact space_not_notSpace.
Qed.

Lemma nondigit_word_suffix (w rest : string) :
  allBytes Regexp.notSpace w = true -> allBytes Strconv.isDigit w = false ->
  startsIn Regexp.space (dropWhile Regexp.digit (w ++ rest)) = false.
Proof.
  induction w as [|c w IH]; [discriminate|]. cbn [allBytes]. intros Hw Hd.
  apply andb_prop in Hw. destruct Hw as [Hc Hw].
  change (String c w ++ rest) with (String c (w ++ rest)). cbn [dropWhile].
  unfold Regexp.digit at 1. destruct (Strconv.isDigit c); cbn [andb] in Hd.
  - exact (IH Hw Hd).
  - cbn [startsIn]. exact (notSpace_not_space c Hc).
Qed.

(** A second field is a TTL field when it is a number. *)
Lemma field_digit_word (w b rest : string) :
  isWord w = true -> isBlanks b = true -> startsIn Regexp.space rest = false ->
  field Regexp.digit (w ++ b ++ rest) = if allBytes Strconv.isDigit w then Some (w, rest) else None.
Proof.
  intros Hw Hb Hrest. destruct (isWord_spec w Hw) as [Hne Hall].
  destruct (isBlanks_spec b Hb) as [Hbne Hball].
  destruct (allBytes Strconv.isDigit w) eqn:Hd.
  - apply field_word; try assumption. exact space_not_digit.
  - unfold field. rewrite (nondigit_word_suffix w (b ++ rest) Hall Hd), andb_false_r.
    reflexivity.
Qed.

Lemma word_starts (w rest : string) :
  isWord w = true -> startsIn Regexp.space (w ++ rest) = false.
Proof.
  intros Hw. destruct (isWord_spec w Hw) as [Hne Hall].
  rewrite (startsIn_app _ w rest Hne). exact (word_not_blank_start w Hne Hall).
Qed.

Lemma classTypeData_fields (c b1 t b2 d : string) :
  isWord c = true -> isBlanks b1 = true -> isWord t = true -> isBlanks b2 = true ->
  isRest d = true ->
  classTypeData (c ++ b1 ++ t ++ b2 ++ d) = Some (c, t, d).
Proof.
  intros Hc Hb1 Ht Hb2 Hd. destruct (isRest_spec d Hd) as [Hd1 Hd2].
  unfold classTypeData.
  rewrite (field_notSpace_word c b1 (t ++ b2 ++ d) Hc Hb1 (word_starts t _ Ht)).
  rewrite (field_notSpace_word t b2 d Ht Hb2 Hd1), Hd2. reflexivity.
Qed.

Lemma classTypeData_one_word (w : string) : isWord w = true -> classTypeData w = None.
Proof.
  intros Hw. unfold classTypeData.
  rewrite (field_of_word _ w (proj2 (isWord_spec w Hw))). reflexivity.
Qed.

Lemma classTypeData_two_words (c b t : string) :
  isWord c = true -> isBlanks b = true -> isWord t = true ->
  classTypeData (c ++ b ++ t) = None.
Proof.
  intros Hc Hb Ht. unfold classTypeData.
  rewrite (field_notSpace_word c b t Hc Hb (word_not_blank_start t (proj1 (isWord_spec t Ht))
                                              (proj2 (isWord_spec t Ht)))).
  rewrite (field_of_word _ t (proj2 (isWord_spec t Ht))). reflexivity.
Qed.

(** The record that [parseRecord] builds from the fields, in one piece. *)
Lemma recordOfTokens_eq (tk : tokens) (zone : string) (dttl : Z) :
  recordOfTokens tk zone dttl =
    match (if negb (String.eqb (tkTTL tk) "") then Strconv.ParseInt (tkTTL tk) else Ok dttl) with
    | Ok ttl0 =>
        if String.eqb (tkType tk) "TXT" && Regexp.isEmpty (tkData tk) then Panic
        else Ok {| Name := resolvedName (tkName tk) zone;
                   TTL := if ttl0 =? 0 then dttl else ttl0;
                   Class := tkClass tk; RType := tkType tk;
                   Data := storedData (tkType tk) (tkData tk) |}
    | Err e => Err e
    | Panic => Panic
    end.
Proof.
  unfold recordOfTokens, resolvedName, storedData.
  destruct (if negb (tkTTL tk =? "")%string then Strconv.ParseInt (tkTTL tk) else Ok dttl)
    as [ttl0| |]; cbn [bind]; try reflexivity.
  cbn [Name TTL RType Data withName withTTL withData].
  destruct (tkName tk =? "@")%string;
    cbn [Name TTL RType Data withName withTTL withData];
    destruct (Strings.HasSuffixByte _ ".") eqn:Hsuf;
    cbn [negb Name TTL RType Data withName withTTL withData Strings.Join];
    destruct (ttl0 =? 0);
    cbn [Name TTL RType Data withName withTTL withData];
    destruct (tkType tk =? "TXT")%string eqn:Htxt; cbn [andb]; try reflexivity;
    (destruct (tkData tk) as [|d0 d] eqn:Hd; cbn [byteAt String.get bind Regexp.isEmpty];
     [reflexivity|];
     cbn [startsWith]; destruct (Ascii.eqb d0 quoteChar); cbn [negb]; reflexivity).
Qed.

Lemma parseUintLoop_number (fn orig : string) (s : string) :
  forall n,
    allBytes Strconv.isDigit s = true -> 0 <= n <= Strconv.maxUint64 ->
    Strconv.parseUintLoop fn orig s n =
      if decimal n s <=? Strconv.maxUint64 then Ok (decimal n s) else Err (ErrRange fn orig).
Proof.
  induction s as [|c s IH]; intros n Hall Hn.
  - cbn [Strconv.parseUintLoop decimal].
    destruct (Z.leb_spec n Strconv.maxUint64) as [_|Hbig]; [reflexivity|lia].
  - simpl in Hall. apply andb_prop in Hall. destruct Hall as [Hc Hs].
    pose proof (isDigit_val c Hc) as Hv. cbn [decimal].
    assert (Hstep : n * 10 + Strconv.digitVal c <= decimal (n * 10 + Strconv.digitVal c) s)
      by (apply decimal_mono; [lia|exact Hs]).
    cbn [Strconv.parseUintLoop]. rewrite Hc. cbn [negb].
    change (Strconv.maxUint64 / 10 + 1) with 1844674407370955162.
    change Strconv.maxUint64 with 18446744073709551615 in Hn, IH |- *.
    destruct (Z.leb_spec 1844674407370955162 n) as [Hbig|Hsmall].
    + destruct (Z.leb_spec (decimal (n * 10 + Strconv.digitVal c) s) 18446744073709551615);
        [lia|reflexivity].
    + destruct (Z.ltb_spec 18446744073709551615 (n * 10 + Strconv.digitVal c)) as [Hbig|Hfit].
      * destruct (Z.leb_spec (decimal (n * 10 + Strconv.digitVal c) s) 18446744073709551615);
          [lia|reflexivity].
      * apply IH; [exact Hs|lia].
Qed.

(** [strconv.ParseInt] on a number: its value when that is below 2^63, a
    range error otherwise. *)
Lemma ParseInt_number (s : string) :
  isNumber s = true ->
  Strconv.ParseInt s =
    if decimal 0 s <? 2 ^ 63 then Ok (decimal 0 s) else Err (ErrRange "ParseInt" s).
Proof.
  intros Hnum. destruct (isNumber_spec s Hnum) as [Hne Hall].
  destruct s as [|c ds]; [contradiction|].
  assert (Hc : Strconv.isDigit c = true).
  { simpl in Hall. apply andb_prop in Hall. exact (proj1 Hall). }
  unfold Strconv.ParseInt. destruct (digit_not_sign c Hc) as [-> ->]. cbn [orb].
  unfold Strconv.parseUint.
  rewrite (parseUintLoop_number "ParseInt" (String c ds) (String c ds) 0 Hall)
    by (change Strconv.maxUint64 with 18446744073709551615; lia).
  change Strconv.maxUint64 with 18446744073709551615.
  change (2 ^ 63) with 9223372036854775808.
  destruct (Z.leb_spec (decimal 0 (String c ds)) 18446744073709551615) as [Hfit|Hbig];
    cbn [bind negb andb].
  - destruct (Z.leb_spec 9223372036854775808 (decimal 0 (String c ds))) as [Hge|Hlt];
      destruct (Z.ltb_spec (decimal 0 (String c ds)) 9223372036854775808); try lia; reflexivity.
  - destruct (Z.ltb_spec (decimal 0 (String c ds)) 9223372036854775808); [lia|reflexivity].
Qed.

Lemma tokenize_one_word (w : string) : isWord w = true -> tokenize w = None.
Proof.
  intros Hw. unfold tokenize.
  rewrite (field_of_word _ w (proj2 (isWord_spec w Hw))). reflexivity.
Qed.

Lemma tokenize_two_words (w1 b1 w2 : string) :
  isWord w1 = true -> isBlanks b1 = true -> isWord w2 = true ->
  tokenize (w1 ++ b1 ++ w2) = None.
Proof.
  intros H1 Hb1 H2. unfold tokenize.
  rewrite (field_notSpace_word w1 b1 w2 H1 Hb1
             (word_not_blank_start w2 (proj1 (isWord_spec w2 H2)) (proj2 (isWord_spec w2 H2)))).
  cbv beta iota zeta.
  rewrite (field_of_word Regexp.digit w2 (proj2 (isWord_spec w2 H2))).
  rewrite (classTypeData_one_word w2 H2). reflexivity.
Qed.

Lemma tokenize_three_words (w1 b1 w2 b2 w3 : string) :
  isWord w1 = true -> isBlanks b1 = true -> isWord w2 = true -> isBlanks b2 = true ->
  isWord w3 = true ->
  tokenize (w1 ++ b1 ++ w2 ++ b2 ++ w3) = None.
Proof.
  intros H1 Hb1 H2 Hb2 H3.
  assert (Hs3 : startsIn Regexp.space w3 = false)
    by exact (word_not_blank_start w3 (proj1 (isWord_spec w3 H3)) (proj2 (isWord_spec w3 H3))).
  unfold tokenize.
  rewrite (field_notSpace_word w1 b1 (w2 ++ b2 ++ w3) H1 Hb1 (word_starts w2 _ H2)).
  cbv beta iota zeta.
  rewrite (field_digit_word w2 b2 w3 H2 Hb2 Hs3).
  rewrite (classTypeData_two_words w2 b2 w3 H2 Hb2 H3).
  destruct (allBytes Strconv.isDigit w2); [|reflexivity].
  rewrite (classTypeData_one_word w3 H3). reflexivity.
Qed.

(** A line whose second field is followed by two more fields and the data
    has a TTL field when that second field is a number. *)
Lemma tokenize_TTL_fields (w1 b1 n b2 c b3 t b4 d : string) :
  isWord w1 = true -> isBlanks b1 = true -> isNumber n = true -> isBlanks b2 = true ->
  isWord c = true -> isBlanks b3 = true -> isWord t = true -> isBlanks b4 = true ->
  isRest d = true ->
  tokenize (w1 ++ b1 ++ n ++ b2 ++ c ++ b3 ++ t ++ b4 ++ d)
  = Some {| tkName := w1; tkTTL := n; tkClass := c; tkType := t; tkData := d |}.
Proof.
  intros H1 Hb1 Hn Hb2 Hc Hb3 Ht Hb4 Hd.
  pose proof (isNumber_isWord n Hn) as Hnw.
  unfold tokenize.
  rewrite (field_notSpace_word w1 b1 _ H1 Hb1 (word_starts n _ Hnw)).
  cbv beta iota zeta.
  rewrite (field_digit_word n b2 _ Hnw Hb2 (word_starts c _ Hc)).
  rewrite (proj2 (isNumber_spec n Hn)).
  rewrite (classTypeData_fields c b3 t b4 d Hc Hb3 Ht Hb4 Hd). reflexivity.
Qed.

(** A line has no TTL field when its second field is not a number, or
    when no two fields and the blanks before the data follow that
    number. *)
Lemma tokenize_fields (w1 b1 c b2 t b3 d : string) :
  isWord w1 = true -> isBlanks b1 = true -> isWord c = true -> isBlanks b2 = true ->
  isWord t = true -> isBlanks b3 = true -> isRest d = true ->
  allBytes Strconv.isDigit c = false \/ field Regexp.notSpace d = None ->
  tokenize (w1 ++ b1 ++ c ++ b2 ++ t ++ b3 ++ d)
  = Some {| tkName := w1; tkTTL := ""; tkClass := c; tkType := t; tkData := d |}.
Proof.
  intros H1 Hb1 Hc Hb2 Ht Hb3 Hd Hno.
  unfold tokenize.
  rewrite (field_notSpace_word w1 b1 _ H1 Hb1 (word_starts c _ Hc)).
  cbv beta iota zeta.
  rewrite (field_digit_word c b2 _ Hc Hb2 (word_starts t _ Ht)).
  rewrite (classTypeData_fields c b2 t b3 d Hc Hb2 Ht Hb3 Hd).
  destruct (allBytes Strconv.isDigit c); [|reflexivity].
  destruct Hno as [Hno|Hno]; [discriminate|].
  unfold classTypeData.
  rewrite (field_notSpace_word t b3 d Ht Hb3 (proj1 (isRest_spec d Hd))), Hno. reflexivity.
Qed.

(** X2. A line of one, two or three words, with any blanks between them
    and none at either end, makes [parseRecord] panic, whatever the origin
    and the default TTL: the pattern does not match, and the nil slice is
    indexed. *)
Theorem short_line_panics (w1 b1 w2 b2 w3 zone : string) (dttl : Z) :
  isWord w1 = true -> isBlanks b1 = true -> isWord w2 = true -> isBlanks b2 = true ->
  isWord w3 = true ->
  parseRecord w1 zone dttl = Panic
  /\ parseRecord (w1 ++ b1 ++ w2) zone dttl = Panic
  /\ parseRecord (w1 ++ b1 ++ w2 ++ b2 ++ w3) zone dttl = Panic.
Proof.
  intros H1 Hb1 H2 Hb2 H3. rewrite !parseRecord_tokens.
  rewrite (tokenize_one_word w1 H1), (tokenize_two_words w1 b1 w2 H1 Hb1 H2),
    (tokenize_three_words w1 b1 w2 b2 w3 H1 Hb1 H2 Hb2 H3).
  repeat split.
Qed.

(** X3. A line of a name, a number below 2^63, a class, a type and data,
    with any blanks between them, gives the record with the resolved name,
    that number as TTL (the default TTL when the number is zero), the class,
    the type and the data (quoted for TXT data that does not start with a
    double quote), provided TXT data is not empty. *)
Theorem line_with_TTL_parses (w1 b1 n b2 c b3 t b4 d zone : string) (dttl : Z) :
  isWord w1 = true -> isBlanks b1 = true -> isNumber n = true -> isBlanks b2 = true ->
  isWord c = true -> isBlanks b3 = true -> isWord t = true -> isBlanks b4 = true ->
  isRest d = true ->
  decimal 0 n < 2 ^ 63 ->
  (t = "TXT" -> d <> "") ->
  parseRecord (w1 ++ b1 ++ n ++ b2 ++ c ++ b3 ++ t ++ b4 ++ d) zone dttl
  = Ok {| Name := resolvedName w1 zone;
          TTL := if decimal 0 n =? 0 then dttl else decimal 0 n;
          Class := c; RType := t; Data := storedData t d |}.
Proof.
  intros H1 Hb1 Hn Hb2 Hc Hb3 Ht Hb4 Hd Hfit Htxt.
  rewrite parseRecord_tokens, (tokenize_TTL_fields w1 b1 n b2 c b3 t b4 d) by assumption.
  rewrite recordOfTokens_eq. cbn [tkName tkTTL tkClass tkType tkData].
  destruct (String.eqb_spec n "") as [->|_]; [discriminate|]. cbn [negb].
  rewrite (ParseInt_number n Hn).
  destruct (Z.ltb_spec (decimal 0 n) (2 ^ 63)) as [_|Hbig]; [|lia].
  destruct (String.eqb_spec t "TXT") as [E|_]; [|reflexivity].
  destruct d as [|d0 d]; [exfalso; exact (Htxt E eq_refl)|reflexivity].
Qed.

(** X4. A line of a name, a class that is not a number, a type and data,
    with any blanks between them, gives the record with the resolved name,
    the default TTL, the class, the type and the data (quoted for TXT data
    that does not start with a double quote), provided TXT data is not
    empty. *)
Theorem line_without_TTL_parses (w1 b1 c b2 t b3 d zone : string) (dttl : Z) :
  isWord w1 = true -> isBlanks b1 = true -> isWord c = true -> isBlanks b2 = true ->
  isWord t = true -> isBlanks b3 = true -> isRest d = true ->
  isNumber c = false ->
  (t = "TXT" -> d <> "") ->
  parseRecord (w1 ++ b1 ++ c ++ b2 ++ t ++ b3 ++ d) zone dttl
  = Ok {| Name := resolvedName w1 zone; TTL := dttl; Class := c; RType := t;
          Data := storedData t d |}.
Proof.
  intros H1 Hb1 Hc Hb2 Ht Hb3 Hd Hnum Htxt.
  assert (Hdig : allBytes Strconv.isDigit c = false).
  { unfold isNumber in Hnum. unfold isWord in Hc. apply andb_prop in Hc.
    rewrite (proj1 Hc) in Hnum. exact Hnum. }
  rewrite parseRecord_tokens, (tokenize_fields w1 b1 c b2 t b3 d) by (try assumption; left; exact Hdig).
  rewrite recordOfTokens_eq. cbn [tkName tkTTL tkClass tkType tkData].
  change (negb ("" =? "")%string) with false. cbv iota.
  assert (Httl : (if dttl =? 0 then dttl else dttl) = dttl) by (destruct (dttl =? 0); reflexivity).
  rewrite Httl.
  destruct (String.eqb_spec t "TXT") as [E|_]; [|reflexivity].
  destruct d as [|d0 d]; [exfalso; exact (Htxt E eq_refl)|reflexivity].
Qed.

(** X5. A number in second place is not the TTL when only a type and one
    word of data follow it: the line has too few fields for a TTL, the
    number is the class, and the record gets the default TTL. *)
Theorem numeric_second_field_is_class (w1 b1 n b2 t b3 w4 zone : string) (dttl : Z) :
  isWord w1 = true -> isBlanks b1 = true -> isNumber n = true -> isBlanks b2 = true ->
  isWord t = true -> isBlanks b3 = true -> isWord w4 = true ->
  parseRecord (w1 ++ b1 ++ n ++ b2 ++ t ++ b3 ++ w4) zone dttl
  = Ok {| Name := resolvedName w1 zone; TTL := dttl; Class := n; RType := t;
          Data := storedData t w4 |}.
Proof.
  intros H1 Hb1 Hn Hb2 Ht Hb3 H4.
  rewrite parseRecord_tokens,
    (tokenize_fields w1 b1 n b2 t b3 w4 H1 Hb1 (isNumber_isWord n Hn) Hb2 Ht Hb3
       (isWord_isRest w4 H4)
       (or_intror (field_of_word _ w4 (proj2 (isWord_spec w4 H4))))).
  rewrite recordOfTokens_eq. cbn [tkName tkTTL tkClass tkType tkData].
  change (negb ("" =? "")%string) with false. cbv iota.
  assert (Httl : (if dttl =? 0 then dttl else dttl) = dttl) by (destruct (dttl =? 0); reflexivity).
  rewrite Httl.
  destruct (w4) as [|d0 d]; [discriminate|].
  cbn [Regexp.isEmpty]. rewrite andb_false_r. reflexivity.
Qed.

Lemma tokenize_TTL_number (line : string) (tk : tokens) :
  tokenize line = Some tk -> tkTTL tk = "" \/ isNumber (tkTTL tk) = true.
Proof.
  unfold tokenize. destruct (field Regexp.notSpace line) as [[n s1]|]; [|discriminate].
  destruct (field Regexp.digit s1) as [[t s2]|] eqn:E.
  - destruct (classTypeData s2) as [[[c ty] d]|].
    + intros H. injection H as <-. right. cbn [tkTTL].
      destruct (field_Some _ _ _ _ E) as [Hne [Hall _]]. unfold isNumber.
      destruct t; [contradiction|]. exact Hall.
    + destruct (classTypeData s1) as [[[c ty] d]|]; [|discriminate].
      intros H. injection H as <-. left. reflexivity.
  - destruct (classTypeData s1) as [[[c ty] d]|]; [|discriminate].
    intros H. injection H as <-. left. reflexivity.
Qed.

Lemma tokenize_name (line : string) (tk : tokens) :
  tokenize line = Some tk -> tkName tk = takeWhile Regexp.notSpace line.
Proof.
  unfold tokenize, field.
  destruct (startsIn Regexp.notSpace line
            && startsIn Regexp.space (dropWhile Regexp.notSpace line)); [|discriminate].
  cbv beta iota zeta.
  destruct (if startsIn Regexp.digit (dropWhile Regexp.space (dropWhile Regexp.notSpace line))
               && startsIn Regexp.space
                    (dropWhile Regexp.digit
                       (dropWhile Regexp.space (dropWhile Regexp.notSpace line)))
            then _ else _) as [[t s2]|].
  - destruct (classTypeData s2) as [[[c ty] d]|].
    + intros H. injection H as <-. reflexivity.
    + destruct (classTypeData _) as [[[c ty] d]|]; [|discriminate].
      intros H. injection H as <-. reflexivity.
  - destruct (classTypeData _) as [[[c ty] d]|]; [|discriminate].
    intros H. injection H as <-. reflexivity.
Qed.

Lemma decimal_nonneg (s : string) : allBytes Strconv.isDigit s = true -> 0 <= decimal 0 s.
Proof. intros H. apply decimal_mono; [lia|exact H]. Qed.

(** X1. The pattern of [parseRecord] matches a line exactly when a scanner
    that reads the line field by field from the left accepts it, and the
    groups are the fields the scanner finds: the first word; a number in
    second place as TTL when two more words and the blanks before the data
    follow it; the class; the type; the rest of the line after the blanks.
    [parseRecord] builds its record from these fields and panics on every
    line the scanner rejects. *)
Theorem pattern_is_field_scanner (line : string) :
  Regexp.FindStringSubmatch rex line =
    match tokenize line with
    | Some tk => line :: tkName tk :: tkTTL tk :: tkClass tk :: tkType tk :: tkData tk :: nil
    | None => nil
    end
  /\ forall zone dttl,
       parseRecord line zone dttl =
         match tokenize line with
         | Some tk => recordOfTokens tk zone dttl
         | None => Panic
         end.
Proof.
  split; [apply FindStringSubmatch_rex|]. intros zone dttl. apply parseRecord_tokens.
Qed.

Lemma parseRecord_TTL_range (line zone : string) (dttl : Z) (tk : tokens) :
  tokenize line = Some tk -> isNumber (tkTTL tk) = true -> 2 ^ 63 <= decimal 0 (tkTTL tk) ->
  parseRecord line zone dttl = Err (ErrRange "ParseInt" (tkTTL tk)).
Proof.
  intros Htk Hnum Hge. rewrite parseRecord_tokens, Htk, recordOfTokens_eq.
  destruct (String.eqb_spec (tkTTL tk) "") as [E|_]; [rewrite E in Hnum; discriminate|].
  cbn [negb]. rewrite (ParseInt_number _ Hnum).
  destruct (Z.ltb_spec (decimal 0 (tkTTL tk)) (2 ^ 63)) as [Hlt|_]; [lia|reflexivity].
Qed.

(** X6. [parseRecord] returns an error for one kind of line only: a line
    the pattern accepts whose TTL field denotes 2^63 or more; the error is
    the range error of [strconv.ParseInt] on that field. *)
Theorem parse_error_is_TTL_out_of_range (line zone : string) (dttl : Z) (e : error) :
  parseRecord line zone dttl = Err e <->
    exists tk,
      tokenize line = Some tk
      /\ isNumber (tkTTL tk) = true
      /\ 2 ^ 63 <= decimal 0 (tkTTL tk)
      /\ e = ErrRange "ParseInt" (tkTTL tk).
Proof.
  rewrite parseRecord_tokens. split.
  - destruct (tokenize line) as [tk|] eqn:Htk; [|discriminate].
    rewrite recordOfTokens_eq.
    destruct (tokenize_TTL_number line tk Htk) as [E|Hnum].
    + rewrite E. change (negb ("" =? "")%string) with false. cbv iota.
      destruct (_ && _); discriminate.
    + destruct (String.eqb_spec (tkTTL tk) "") as [E|_]; [rewrite E in Hnum; discriminate|].
      cbn [negb]. rewrite (ParseInt_number _ Hnum).
      destruct (Z.ltb_spec (decimal 0 (tkTTL tk)) (2 ^ 63)) as [Hlt|Hge].
      * destruct (_ && _); discriminate.
      * intros H. injection H as <-. exists tk. repeat split; assumption.
  - intros [tk [Htk [Hnum [Hge ->]]]]. rewrite <- parseRecord_tokens.
    exact (parseRecord_TTL_range line zone dttl tk Htk Hnum Hge).
Qed.

Lemma word_not_directive (w rest : string) :
  isWord w = true -> startsWith w "$" = false ->
  exists c s, w ++ rest = String c s /\ Ascii.eqb c "$" = false.
Proof.
  intros Hw Hd. destruct w as [|c w]; [discriminate|].
  exists c, (w ++ rest). split; [reflexivity|exact Hd].
Qed.

(** X7. A line with a TTL field of 2^63 or more is the line the loop of
    [formatZone] logs and skips: the state stays as it was and the loop goes
    on with the lines after it. *)
Theorem oversized_TTL_is_skipped (w1 b1 n b2 c b3 t b4 d : string) (st : state)
    (after : list string) :
  isWord w1 = true -> isBlanks b1 = true -> isNumber n = true -> isBlanks b2 = true ->
  isWord c = true -> isBlanks b3 = true -> isWord t = true -> isBlanks b4 = true ->
  isRest d = true ->
  startsWith w1 "$" = false ->
  2 ^ 63 <= decimal 0 n ->
  let line := w1 ++ b1 ++ n ++ b2 ++ c ++ b3 ++ t ++ b4 ++ d in
  parseRecord line (zone st) (ttl st) = Err (ErrRange "ParseInt" n)
  /\ processLine st line = Ok (st, ErrorUnparsable (ErrRange "ParseInt" n) :: nil)
  /\ scanLoop st (line :: after)
     = (ErrorUnparsable (ErrRange "ParseInt" n) :: fst (scanLoop st after),
        snd (scanLoop st after)).
Proof.
  intros H1 Hb1 Hn Hb2 Hc Hb3 Ht Hb4 Hd Hdollar Hbig line.
  assert (Hparse : parseRecord line (zone st) (ttl st) = Err (ErrRange "ParseInt" n)).
  { exact (parseRecord_TTL_range line (zone st) (ttl st) _
             (tokenize_TTL_fields w1 b1 n b2 c b3 t b4 d H1 Hb1 Hn Hb2 Hc Hb3 Ht Hb4 Hd)
             Hn Hbig). }
  split; [exact Hparse|].
  assert (Hline : processLine st line = Ok (st, ErrorUnparsable (ErrRange "ParseInt" n) :: nil)).
  { destruct (word_not_directive w1 (b1 ++ n ++ b2 ++ c ++ b3 ++ t ++ b4 ++ d) H1 Hdollar)
      as [c0 [s0 [E Hc0]]].
    unfold processLine. fold line in E. rewrite E at 1.
    cbn [byteAt String.get bind]. rewrite Hc0, Hparse. reflexivity. }
  split; [exact Hline|].
  cbn [scanLoop]. rewrite Hline. destruct (scanLoop st after). reflexivity.
Qed.

(** X8. A line that ends in blanks after the type [TXT] has empty data,
    and [parseRecord] panics on it when it reads the first byte of the data:
    with or without a TTL field, whatever the origin and the default TTL. *)
Theorem empty_TXT_data_panics (w1 b1 n b2 c b3 b4 zone : string) (dttl : Z) :
  isWord w1 = true -> isBlanks b1 = true -> isNumber n = true -> isBlanks b2 = true ->
  isWord c = true -> isBlanks b3 = true -> isBlanks b4 = true ->
  decimal 0 n < 2 ^ 63 ->
  parseRecord (w1 ++ b1 ++ c ++ b3 ++ "TXT" ++ b4) zone dttl = Panic
  /\ parseRecord (w1 ++ b1 ++ n ++ b2 ++ c ++ b3 ++ "TXT" ++ b4) zone dttl = Panic.
Proof.
  intros H1 Hb1 Hn Hb2 Hc Hb3 Hb4 Hfit.
  rewrite <- (append_empty_r b4). rewrite !parseRecord_tokens.
  rewrite (tokenize_fields w1 b1 c b3 "TXT" b4 "" H1 Hb1 Hc Hb3 eq_refl Hb4 eq_refl
             (or_intror eq_refl)).
  rewrite (tokenize_TTL_fields w1 b1 n b2 c b3 "TXT" b4 "" H1 Hb1 Hn Hb2 Hc Hb3 eq_refl Hb4
             eq_refl).
  rewrite !recordOfTokens_eq. cbn [tkName tkTTL tkClass tkType tkData].
  split; [reflexivity|].
  destruct (String.eqb_spec n "") as [->|_]; [discriminate|]. cbn [negb].
  rewrite (ParseInt_number n Hn).
  destruct (Z.ltb_spec (decimal 0 n) (2 ^ 63)) as [_|Hbig]; [reflexivity|lia].
Qed.

Lemma TrimLeftByte_suffix (s : string) (c : ascii) :
  Strings.HasSuffixByte s c = true ->
  Strings.TrimLeftByte s c = "" \/ Strings.HasSuffixByte (Strings.TrimLeftByte s c) c = true.
Proof.
  induction s as [|a s IH]; [discriminate|]. intros H. cbn [Strings.TrimLeftByte].
  destruct (Ascii.eqb a c); [|right; exact H].
  destruct s as [|a' s']; [left; reflexivity|]. apply IH. exact H.
Qed.

Lemma TrimLeftByte_start (s : string) (c : ascii) :
  startsWith (Strings.TrimLeftByte s c) c = false.
Proof.
  induction s as [|a s IH]; [reflexivity|]. cbn [Strings.TrimLeftByte].
  destruct (Ascii.eqb a c) eqn:E; [exact IH|]. cbn [startsWith]. exact E.
Qed.

Lemma resolvedName_dot (n zone : string) :
  zone = "" \/ Strings.HasSuffixByte zone "." = true ->
  resolvedName n zone = "" \/ Strings.HasSuffixByte (resolvedName n zone) "." = true.
Proof.
  intros Hzone. unfold resolvedName.
  destruct (Strings.HasSuffixByte (if (n =? "@")%string then "" else n) ".") eqn:E;
    [right; exact E|].
  apply TrimLeftByte_suffix.
  rewrite HasSuffixByte_app by discriminate.
  destruct Hzone as [->|Hz]; [reflexivity|].
  rewrite (HasSuffixByte_app "." zone "." (HasSuffixByte_nonempty zone "." Hz)). exact Hz.
Qed.

Lemma parseRecord_Ok_eq (line zone : string) (dttl : Z) (rec : record) :
  parseRecord line zone dttl = Ok rec ->
  exists tk ttl0,
    tokenize line = Some tk
    /\ (if negb (String.eqb (tkTTL tk) "") then Strconv.ParseInt (tkTTL tk) else Ok dttl)
       = Ok ttl0
    /\ rec = {| Name := resolvedName (tkName tk) zone;
                TTL := if ttl0 =? 0 then dttl else ttl0;
                Class := tkClass tk; RType := tkType tk;
                Data := storedData (tkType tk) (tkData tk) |}.
Proof.
  rewrite parseRecord_tokens. destruct (tokenize line) as [tk|]; [|discriminate].
  rewrite recordOfTokens_eq.
  destruct (if negb (tkTTL tk =? "")%string then Strconv.ParseInt (tkTTL tk) else Ok dttl)
    as [ttl0| |] eqn:Httl; try discriminate.
  destruct (_ && _); [discriminate|]. intros H. injection H as <-.
  exists tk, ttl0. repeat split. exact Httl.
Qed.

(** X9. When the origin is empty or ends in a dot, the name of every
    record that [parseRecord] returns ends in a dot or is empty; and
    whatever the origin, a name field written without a final dot never
    gives a name that begins with a dot. *)
Theorem name_is_dot_terminated (line zone : string) (dttl : Z) (rec : record) :
  parseRecord line zone dttl = Ok rec ->
  (zone = "" \/ Strings.HasSuffixByte zone "." = true ->
   Name rec = "" \/ Strings.HasSuffixByte (Name rec) "." = true)
  /\ (Strings.HasSuffixByte (takeWhile Regexp.notSpace line) "." = false ->
      startsWith (Name rec) "." = false).
Proof.
  intros Hok. destruct (parseRecord_Ok_eq _ _ _ _ Hok) as [tk [ttl0 [Htk [_ ->]]]].
  cbn [Name]. split; [apply resolvedName_dot|].
  rewrite <- (tokenize_name line tk Htk). intros Hrel. unfold resolvedName.
  destruct (String.eqb_spec (tkName tk) "@") as [E|_].
  - cbn [Strings.HasSuffixByte]. apply TrimLeftByte_start.
  - rewrite Hrel. apply TrimLeftByte_start.
Qed.

(** X10. The TTL of a record that [parseRecord] returns is the default
    TTL or a number from 1 to 2^63 - 1 read from the line; so it is
    negative only when the default TTL is. *)
Theorem TTL_is_default_or_positive (line zone : string) (dttl : Z) (rec : record) :
  parseRecord line zone dttl = Ok rec ->
  (TTL rec = dttl \/ 0 < TTL rec < 2 ^ 63)
  /\ (0 <= dttl < 2 ^ 63 -> 0 <= TTL rec < 2 ^ 63).
Proof.
  intros Hok. destruct (parseRecord_Ok_eq _ _ _ _ Hok) as [tk [ttl0 [Htk [Httl ->]]]].
  cbn [TTL].
  assert (Hcases : (if ttl0 =? 0 then dttl else ttl0) = dttl
                   \/ 0 < (if ttl0 =? 0 then dttl else ttl0) < 2 ^ 63).
  { destruct (Z.eqb_spec ttl0 0) as [_|Hnz]; [left; reflexivity|].
    destruct (tokenize_TTL_number line tk Htk) as [E|Hnum].
    - rewrite E in Httl. cbn in Httl. injection Httl as <-. left. reflexivity.
    - destruct (String.eqb_spec (tkTTL tk) "") as [E|_]; [rewrite E in Hnum; discriminate|].
      cbn [negb] in Httl. rewrite (ParseInt_number _ Hnum) in Httl.
      pose proof (decimal_nonneg _ (proj2 (isNumber_spec _ Hnum))) as Hpos.
      destruct (Z.ltb_spec (decimal 0 (tkTTL tk)) (2 ^ 63)) as [Hlt|_]; [|discriminate].
      injection Httl as <-. right. lia. }
  split; [exact Hcases|]. intros Hd. destruct Hcases as [->|H]; lia.
Qed.

(** X11. Every record that the loop of [formatZone] collects has a class
    and a type that are non-empty and hold no blank, data that does not
    begin with a blank and holds no newline, and, for the type [TXT], data
    that begins with a double quote. *)
Theorem collected_records_have_fields (input : string) (entries : list logEntry)
    (st : state) :
  scanLoop initial (Bufio.scanLines input) = (entries, Ok st) ->
  Forall fieldsFromLine (rr st).
Proof.
  intros Hrun.
  exact (scanLoop_records fieldsFromLine _ parseRecord_fields _ _ _ Hrun (List.Forall_nil _)).
Qed.

(** *** Directives without the argument they need *)

(** X12. A line that is [$ORIGIN] or [$TTL] and nothing else makes the
    loop of [formatZone] panic in every state, when it reads the second part
    of the line: an input with such a line yields no output, and the panic
    comes after what the lines before it logged. *)
Theorem directive_without_argument_panics (input : string) (before after : list string)
    (kw : string) :
  kw = "$ORIGIN" \/ kw = "$TTL" ->
  Bufio.scanLines input = (before ++ kw :: after)%list ->
  (forall st, processLine st kw = Panic)
  /\ noOutput (snd (formatZone input))
  /\ (forall entries st, scanLoop initial before = (entries, Ok st) ->
      formatZone input = (entries, Panic)).
Proof.
  intros Hkw Hlines.
  assert (Hpanic : forall st, processLine st kw = Panic)
    by (intros st; destruct Hkw as [->| ->]; reflexivity).
  split; [exact Hpanic|]. split.
  - apply formatZone_noOutput. rewrite Hlines. apply scanLoop_fatal.
    intros st'. exists Panic. split; [left; reflexivity|].
    cbn [scanLoop]. rewrite Hpanic. reflexivity.
  - intros entries st Hbefore. rewrite formatZone_scanLoop, Hlines, scanLoop_app, Hbefore.
    cbn [scanLoop]. rewrite Hpanic, app_nil_r. reflexivity.
Qed.

Lemma leadingInt_number (s : string) :
  forall x,
    allBytes Strconv.isDigit s = true -> 0 <= x <= Time.two63 ->
    Time.leadingInt s x = if decimal x s <=? Time.two63 then Some (decimal x s, "") else None.
Proof.
  change Time.two63 with 9223372036854775808.
  induction s as [|c s IH]; intros x Hall Hx.
  - cbn [Time.leadingInt decimal].
    destruct (Z.leb_spec x 9223372036854775808); [reflexivity|lia].
  - simpl in Hall. apply andb_prop in Hall. destruct Hall as [Hc Hs].
    pose proof (isDigit_val c Hc) as Hv. cbn [decimal].
    assert (Hstep : x * 10 + Strconv.digitVal c <= decimal (x * 10 + Strconv.digitVal c) s)
      by (apply decimal_mono; [lia|exact Hs]).
    cbn [Time.leadingInt]. rewrite Hc. cbn [negb].
    change (Time.two63 / 10) with 922337203685477580.
    change Time.two63 with 9223372036854775808.
    destruct (Z.ltb_spec 922337203685477580 x) as [Hbig|Hsmall].
    + destruct (Z.leb_spec (decimal (x * 10 + Strconv.digitVal c) s) 9223372036854775808);
        [lia|reflexivity].
    + destruct (Z.ltb_spec 9223372036854775808 (x * 10 + Strconv.digitVal c)) as [Hbig|Hfit].
      * destruct (Z.leb_spec (decimal (x * 10 + Strconv.digitVal c) s) 9223372036854775808);
          [lia|reflexivity].
      * apply IH; [exact Hs|lia].
Qed.

(** [time.ParseDuration] on a number without a unit. *)
Lemma ParseDuration_number (s : string) :
  isNumber s = true -> s <> "0" ->
  Time.ParseDuration s =
    Err (if decimal 0 s <=? 2 ^ 63 then ErrMissingUnit s else ErrInvalidDuration s).
Proof.
  intros Hnum Hzero. destruct (isNumber_spec s Hnum) as [Hne Hall].
  destruct s as [|c ds]; [contradiction|].
  assert (Hc : Strconv.isDigit c = true).
  { simpl in Hall. apply andb_prop in Hall. exact (proj1 Hall). }
  unfold Time.ParseDuration. destruct (digit_not_sign c Hc) as [Hplus Hminus].
  rewrite Hplus, Hminus. cbn [orb].
  destruct (String.eqb_spec (String c ds) "0") as [E|_]; [contradiction|].
  cbn [Regexp.isEmpty String.length Time.parseTerms].
  rewrite Hc, orb_true_r. cbn [negb].
  rewrite (leadingInt_number (String c ds) 0 Hall)
    by (change Time.two63 with 9223372036854775808; lia).
  change Time.two63 with (2 ^ 63).
  destruct (decimal 0 (String c ds) <=? 2 ^ 63); reflexivity.
Qed.

(** X13. A [$TTL] directive whose argument is a number without a unit,
    other than the single digit 0, is fatal: [time.ParseDuration] reports a
    missing unit (an invalid duration when the number exceeds 2^63), the
    loop returns that error in every state, and an input with such a line
    yields no output. *)
Theorem TTL_without_unit_is_fatal (input : string) (before after : list string)
    (n : string) :
  isNumber n = true -> n <> "0" ->
  Bufio.scanLines input = (before ++ ("$TTL " ++ n)%string :: after)%list ->
  let e := if decimal 0 n <=? 2 ^ 63 then ErrMissingUnit n else ErrInvalidDuration n in
  (forall st, processLine st ("$TTL " ++ n) = Err e)
  /\ noOutput (snd (formatZone input))
  /\ (forall entries st, scanLoop initial before = (entries, Ok st) ->
      formatZone input = (entries, Err e)).
Proof.
  intros Hnum Hzero Hlines e.
  assert (Hfatal : forall st, processLine st ("$TTL " ++ n) = Err e)
    by (intros st; rewrite processLine_TTL, (ParseDuration_number n Hnum Hzero); reflexivity).
  split; [exact Hfatal|]. split.
  - apply formatZone_noOutput. rewrite Hlines. apply scanLoop_fatal.
    intros st'. exists (Err e). split; [right; eexists; reflexivity|].
    cbn [scanLoop]. rewrite Hfatal. reflexivity.
  - intros entries st Hbefore. rewrite formatZone_scanLoop, Hlines, scanLoop_app, Hbefore.
    cbn [scanLoop]. rewrite Hfatal, app_nil_r. reflexivity.
Qed.

(** *** What the scanner delivers *)

Lemma rawLines_nonempty (s : string) : s <> "" -> Bufio.rawLines s <> nil.
Proof.
  destruct s as [|c s]; [contradiction|]. intros _. cbn [Bufio.rawLines].
  destruct (Ascii.eqb c newline); [discriminate|].
  destruct (Bufio.rawLines s); discriminate.
Qed.

Lemma rawLines_app (head x : string) :
  wholeLines head ->
  Bufio.rawLines (head ++ x) = (Bufio.rawLines head ++ Bufio.rawLines x)%list.
Proof.
  intros [->|H]; [reflexivity|].
  induction head as [|c h IH]; [discriminate|].
  change (String c h ++ x) with (String c (h ++ x)). cbn [Bufio.rawLines].
  destruct h as [|c' h'].
  - cbn in H. rewrite H. reflexivity.
  - assert (IH' : Bufio.rawLines (String c' h' ++ x)
                  = (Bufio.rawLines (String c' h') ++ Bufio.rawLines x)%list)
      by (apply IH; exact H).
    rewrite IH'. destruct (Ascii.eqb c newline); [reflexivity|].
    destruct (Bufio.rawLines (String c' h')) as [|l ls] eqn:E; [|reflexivity].
    exfalso. exact (rawLines_nonempty (String c' h') ltac:(discriminate) E).
Qed.

Lemma rawLines_last (l : string) :
  l <> "" -> noByte newline l = true -> Bufio.rawLines l = l :: nil.
Proof.
  induction l as [|c l IH]; [contradiction|]. intros _ H.
  cbn [noByte] in H. apply andb_prop in H. destruct H as [Hc Hl].
  apply negb_true_iff in Hc. cbn [Bufio.rawLines]. rewrite Hc.
  destruct l as [|c' l']; [reflexivity|].
  rewrite (IH ltac:(discriminate) Hl). reflexivity.
Qed.

Lemma takeFitting_app (ls more : list string) (l : string) :
  Bufio.fits l = false -> Bufio.takeFitting (ls ++ l :: more) = Bufio.takeFitting ls.
Proof.
  intros Hl. induction ls as [|a ls IH]; cbn [List.app Bufio.takeFitting].
  - rewrite Hl. reflexivity.
  - rewrite IH. reflexivity.
Qed.

Lemma formatZone_scanLines (input input' : string) :
  Bufio.scanLines input = Bufio.scanLines input' -> formatZone input = formatZone input'.
Proof. intros H. unfold formatZone. rewrite H. reflexivity. Qed.

(** X14. A line of 65536 bytes or more ends the input without an error:
    after whole lines, such a line and everything that follows it are not
    delivered by the scanner, and [formatZone] returns what it returns for
    the lines before. *)
Theorem long_line_ends_input (head long rest : string) :
  wholeLines head ->
  noByte newline long = true ->
  Bufio.MaxScanTokenSize <= len long ->
  rest = "" \/ startsWith rest newline = true ->
  Bufio.scanLines (head ++ long ++ rest) = Bufio.scanLines head
  /\ formatZone (head ++ long ++ rest) = formatZone head.
Proof.
  intros Hhead Hline Hlong Hrest.
  assert (Hscan : Bufio.scanLines (head ++ long ++ rest) = Bufio.scanLines head).
  { unfold Bufio.scanLines. rewrite (rawLines_app head _ Hhead).
    assert (Hfits : Bufio.fits long = false).
    { unfold Bufio.fits. unfold len in Hlong. apply Z.ltb_ge. exact Hlong. }
    assert (Hraw : exists more, Bufio.rawLines (long ++ rest) = long :: more).
    { destruct Hrest as [->|Hnl].
      - rewrite append_empty_r. exists nil. apply rawLines_last; [|exact Hline].
        intros ->. unfold len in Hlong. cbn in Hlong.
        change Bufio.MaxScanTokenSize with 65536 in Hlong. lia.
      - destruct rest as [|c r]; [discriminate|]. cbn [startsWith] in Hnl.
        apply Ascii.eqb_eq in Hnl. subst c. eexists. apply rawLines_line. exact Hline. }
    destruct Hraw as [more ->]. rewrite (takeFitting_app _ more long Hfits). reflexivity. }
  split; [exact Hscan|]. apply formatZone_scanLines. exact Hscan.
Qed.

Lemma dropCR_app (l : string) : Bufio.dropCR (l ++ cr) = l.
Proof.
  induction l as [|c l IH]; [reflexivity|].
  change (String c l ++ cr) with (String c (l ++ cr)).
  destruct (l ++ cr) as [|c' rest] eqn:E.
  - destruct l; discriminate.
  - change (Bufio.dropCR (String c (String c' rest)))
      with (String c (Bufio.dropCR (String c' rest))).
    rewrite IH. reflexivity.
Qed.

Lemma map_id_in {X : Type} (f : X -> X) (l : list X) :
  (forall x, In x l -> f x = x) -> List.map f l = l.
Proof.
  intros H. induction l as [|x l IH]; [reflexivity|]. cbn [List.map].
  rewrite (H x (or_introl eq_refl)), IH; [reflexivity|].
  intros y Hy. apply H. right. exact Hy.
Qed.

(** X15. A text whose lines end in a carriage return and a newline is
    read like the text whose lines end in a newline: the scanner delivers
    the same lines and [formatZone] returns the same, for lines that do not
    themselves end in a carriage return and fit the scanner with their line
    end. *)
Theorem CRLF_is_read_as_LF (ls : list string) :
  Forall (fun l => noByte newline l = true
                   /\ Strings.HasSuffixByte l carriageReturn = false
                   /\ len l + 1 < Bufio.MaxScanTokenSize) ls ->
  Bufio.scanLines (String.concat "" (List.map (fun l => l ++ crlf) ls)) = ls
  /\ Bufio.scanLines (String.concat "" (List.map (fun l => l ++ lf) ls)) = ls
  /\ formatZone (String.concat "" (List.map (fun l => l ++ crlf) ls))
     = formatZone (String.concat "" (List.map (fun l => l ++ lf) ls)).
Proof.
  intros Hls. rewrite List.Forall_forall in Hls.
  assert (Hdos : Bufio.scanLines (String.concat "" (List.map (fun l => l ++ crlf) ls)) = ls).
  { unfold Bufio.scanLines.
    rewrite (concat_map_ext (fun l => l ++ crlf) (fun l => (l ++ cr) ++ lf))
      by (intros l _; rewrite append_assoc; reflexivity).
    rewrite <- (List.map_map (fun l => l ++ cr) (fun l => l ++ lf)).
    rewrite rawLines_concat.
    - rewrite takeFitting_all.
      + rewrite List.map_map. apply map_id_in. intros l _. apply dropCR_app.
      + rewrite List.Forall_forall. intros x Hx. apply in_map_iff in Hx.
        destruct Hx as [l [<- Hl]]. destruct (Hls l Hl) as [_ [_ Hfit]].
        unfold Bufio.fits. unfold len in Hfit. rewrite length_append.
        change (String.length cr) with 1%nat. apply Z.ltb_lt. lia.
    - rewrite List.Forall_forall. intros x Hx. apply in_map_iff in Hx.
      destruct Hx as [l [<- Hl]]. rewrite noByte_app, (proj1 (Hls l Hl)). reflexivity. }
  assert (Hunix : Bufio.scanLines (String.concat "" (List.map (fun l => l ++ lf) ls)) = ls).
  { unfold Bufio.scanLines. rewrite rawLines_concat.
    - rewrite takeFitting_all.
      + apply map_id_in. intros l Hl. apply dropCR_keeps. exact (proj1 (proj2 (Hls l Hl))).
      + rewrite List.Forall_forall. intros l Hl. destruct (Hls l Hl) as [_ [_ Hfit]].
        unfold Bufio.fits. unfold len in Hfit. apply Z.ltb_lt. lia.
    - rewrite List.Forall_forall. intros l Hl. exact (proj1 (Hls l Hl)). }
  split; [exact Hdos|]. split; [exact Hunix|].
  apply formatZone_scanLines. rewrite Hdos, Hunix. reflexivity.
Qed.

(** X16. The newline after the last line is optional: after whole lines,
    a last line that is not empty is read the same with and without its
    newline. *)
Theorem final_newline_is_optional (head l : string) :
  wholeLines head ->
  l <> "" -> noByte newline l = true ->
  Bufio.scanLines (head ++ l) = Bufio.scanLines (head ++ l ++ lf)
  /\ formatZone (head ++ l) = formatZone (head ++ l ++ lf).
Proof.
  intros Hhead Hne Hl.
  assert (Hscan : Bufio.scanLines (head ++ l) = Bufio.scanLines (head ++ l ++ lf)).
  { unfold Bufio.scanLines. rewrite !(rawLines_app head _ Hhead).
    unfold lf. rewrite (rawLines_line l "" Hl), (rawLines_last l Hne Hl). reflexivity. }
  split; [exact Hscan|]. apply formatZone_scanLines. exact Hscan.
Qed.

(** *** Record lines in another order *)

Lemma processLine_record_line (st : state) (l : string) :
  startsWith l "$" = false ->
  processLine st l =
    match l with
    | "" => Panic
    | _ =>
        match parseRecord l (zone st) (ttl st) with
        | Ok rec =>
            Ok ({| zone := zone st; ttl := ttl st; rr := (rr st ++ rec :: nil)%list |}, nil)
        | Err e => Ok (st, ErrorUnparsable e :: nil)
        | Panic => Panic
        end
    end.
Proof.
  destruct l as [|c l]; [reflexivity|]. cbn [startsWith]. intros H.
  unfold processLine. cbn [byteAt String.get bind]. rewrite H. reflexivity.
Qed.

Lemma scanLoop_record_lines (lines : list string) :
  forall st,
    Forall (fun l => startsWith l "$" = false) lines ->
    Forall (readable (zone st) (ttl st)) lines ->
    scanLoop st lines
    = (entriesOf (zone st) (ttl st) lines,
       Ok {| zone := zone st; ttl := ttl st;
             rr := (rr st ++ recordsOf (zone st) (ttl st) lines)%list |}).
Proof.
  induction lines as [|l lines IH]; intros st Hd Hr.
  - cbn. rewrite app_nil_r. destruct st; reflexivity.
  - apply Forall_cons_iff in Hd, Hr. destruct Hd as [Hd Hds], Hr as [[Hne Hp] Hrs].
    cbn [scanLoop]. rewrite (processLine_record_line st l Hd).
    unfold recordsOf, entriesOf. cbn [List.flat_map].
    fold (recordsOf (zone st) (ttl st) lines). fold (entriesOf (zone st) (ttl st) lines).
    destruct l as [|c l']; [contradiction|].
    destruct (parseRecord (String c l') (zone st) (ttl st)) as [rec|e|]; [| |contradiction].
    + rewrite (IH {| zone := zone st; ttl := ttl st; rr := (rr st ++ rec :: nil)%list |}
                 Hds Hrs).
      cbn [zone ttl rr List.app]. rewrite <- app_assoc. reflexivity.
    + rewrite (IH st Hds Hrs). reflexivity.
Qed.

Lemma scanLoop_record_lines_Ok (lines : list string) :
  forall st entries st',
    Forall (fun l => startsWith l "$" = false) lines ->
    scanLoop st lines = (entries, Ok st') ->
    Forall (readable (zone st) (ttl st)) lines.
Proof.
  induction lines as [|l lines IH]; intros st entries st' Hd Hrun; [constructor|].
  apply Forall_cons_iff in Hd. destruct Hd as [Hd Hds].
  cbn [scanLoop] in Hrun. rewrite (processLine_record_line st l Hd) in Hrun.
  destruct l as [|c l']; [discriminate|].
  destruct (parseRecord (String c l') (zone st) (ttl st)) as [rec|e|] eqn:E;
    [| |discriminate].
  - destruct (scanLoop _ lines) as [later final] eqn:E'. injection Hrun as _ ->.
    constructor.
    + split; [discriminate|]. rewrite E. discriminate.
    + exact (IH _ _ _ Hds E').
  - destruct (scanLoop _ lines) as [later final] eqn:E'. injection Hrun as _ ->.
    constructor.
    + split; [discriminate|]. rewrite E. discriminate.
    + exact (IH _ _ _ Hds E').
Qed.

(** Two sorts of the same records agree when no two records tie. *)
Lemma sortRecords_perm (l l' : list record) :
  GoSort.sorts sortImpl -> Permutation l l' -> noTies sorting l ->
  sortRecords l = sortRecords l'.
Proof.
  intros Hsort Hperm Hties. unfold sortRecords.
  destruct (Hsort record (Less sorting) l) as [Hp Hasc].
  destruct (Hsort record (Less sorting) l') as [Hp' Hasc'].
  specialize (Hasc Less_strictWeak). specialize (Hasc' Less_strictWeak).
  apply (StronglySorted_unique_strong (fun a b => Less sorting b a = false));
    [|exact Hasc|exact Hasc'|].
  - intros x1 x2 Hx1 Hx2 H12 H21. apply list_elem_of_In in Hx1, Hx2.
    apply not_Less_spec in H12, H21.
    apply (Permutation_in _ (Permutation_sym Hp)) in Hx1.
    apply (Permutation_in _ (Permutation_sym Hp')) in Hx2.
    apply (Permutation_in _ (Permutation_sym Hperm)) in Hx2.
    destruct H12 as [H12|[E12 L12]], H21 as [H21|[E21 L21]]; try lia.
    apply Hties; [exact Hx1|exact Hx2|exact E12|apply leb_antisym_eq; assumption].
  - rewrite <- Hp, <- Hp'. exact Hperm.
Qed.

(** X17. The order of the record lines that follow the last directive
    does not matter when no two records tie: for two inputs with the same
    lines up to there and the same record lines after, in any order, a run
    that goes through on one goes through on the other with the same output,
    and logs the same entries, in the order of the lines. *)
Theorem record_order_is_immaterial (input input' : string) (header lines lines' : list string)
    (entries : list logEntry) (st : state) :
  GoSort.sorts sortImpl ->
  Bufio.scanLines input = (header ++ lines)%list ->
  Bufio.scanLines input' = (header ++ lines')%list ->
  Permutation lines lines' ->
  Forall (fun l => startsWith l "$" = false) lines ->
  scanLoop initial (Bufio.scanLines input) = (entries, Ok st) ->
  noTies sorting (rr st) ->
  exists entries',
    formatZone input = (entries, Ok (render (sortRecords (rr st))))
    /\ formatZone input' = (entries', Ok (render (sortRecords (rr st))))
    /\ Permutation entries entries'.
Proof.
  intros Hsort Hin Hin' Hperm Hd Hrun Hties.
  assert (Hd' : Forall (fun l => startsWith l "$" = false) lines')
    by exact (Forall_perm _ _ _ Hperm Hd).
  rewrite !formatZone_scanLoop, Hrun, Hin'. rewrite Hin in Hrun.
  rewrite scanLoop_app in Hrun |- *.
  destruct (scanLoop initial header) as [entries0 [st0| |]]; try discriminate.
  destruct (scanLoop st0 lines) as [later final] eqn:E. injection Hrun as <- ->.
  pose proof (scanLoop_record_lines_Ok lines st0 later st Hd E) as Hr.
  rewrite (scanLoop_record_lines lines st0 Hd Hr) in E. injection E as <- <-.
  cbn [rr] in Hties |- *.
  rewrite (scanLoop_record_lines lines' st0 Hd' (Forall_perm _ _ _ Hperm Hr)).
  eexists. split; [reflexivity|]. split.
  - cbn [rr]. f_equal. f_equal. f_equal. symmetry. apply sortRecords_perm; [exact Hsort| |exact Hties].
    apply Permutation_app_head. unfold recordsOf. apply Permutation_flat_map. exact Hperm.
  - apply Permutation_app_head. unfold entriesOf. apply Permutation_flat_map. exact Hperm.
Qed.

(** *** The interface of [sort.Sort] *)

(** X18. [Less] is a strict weak order, as [sort.Sort] requires: of two
    records at most one is less than the other, and neither is exactly when
    they have the same score and the same name. *)
Theorem Less_is_strict_weak_order :
  GoSort.strictWeak (Less sorting)
  /\ (forall a b, Less sorting a b = true -> Less sorting b a = false)
  /\ (forall a b,
        Less sorting a b = false /\ Less sorting b a = false
        <-> score sorting a = score sorting b /\ Name a = Name b).
Proof.
  split; [exact Less_strictWeak|]. split.
  - intros a b Hab. destruct (Less sorting b a) eqn:Hba; [|reflexivity].
    pose proof (GoSort.sw_trans _ Less_strictWeak a b a Hab Hba) as Haa.
    rewrite (GoSort.sw_irrefl _ Less_strictWeak a) in Haa. discriminate.
  - intros a b. split.
    + intros [Hab Hba]. apply not_Less_spec in Hab, Hba.
      destruct Hab as [Hab|[Eab Lab]], Hba as [Hba|[Eba Lba]]; try lia.
      split; [exact Eba|]. apply leb_antisym_eq; assumption.
    + intros [Hs Hn]. split; apply not_Less_spec; right.
      * split; [symmetry; exact Hs|]. rewrite Hn. apply leb_refl.
      * split; [exact Hs|]. rewrite Hn. apply leb_refl.
Qed.

Lemma elemAt_in_range (r : list record) (i : Z) :
  0 <= i < Len r ->
  exists x, r !! Z.to_nat i = Some x /\ elemAt r i = Ok x.
Proof.
  intros Hi. unfold elemAt.
  destruct (Z.leb_spec 0 i); [|lia]. destruct (Z.ltb_spec i (Len r)); [|lia]. cbn [andb].
  destruct (lookup_lt_is_Some_2 r (Z.to_nat i)) as [x Hx]; [unfold Len in Hi; lia|].
  exists x. rewrite Hx. split; reflexivity.
Qed.

Lemma elemAt_out_of_range (r : list record) (i : Z) :
  ~ (0 <= i < Len r) -> elemAt r i = Panic.
Proof.
  intros Hi. unfold elemAt.
  destruct (Z.leb_spec 0 i); [|reflexivity]. destruct (Z.ltb_spec i (Len r)); [lia|reflexivity].
Qed.

Lemma elemAt_lookup (r : list record) (i : Z) (x : record) :
  0 <= i < Len r -> r !! Z.to_nat i = Some x -> elemAt r i = Ok x.
Proof.
  intros Hi Hx. destruct (elemAt_in_range r i Hi) as [y [Hy ->]]. congruence.
Qed.

(** X19. [Swap] with both indices in range exchanges the two elements
    and leaves the others in place: the result is a permutation of the same
    length, and a second [Swap] of the same indices gives the slice back.
    With an index out of range it panics. *)
Theorem Swap_exchanges (r : list record) (i j : Z) :
  (0 <= i < Len r -> 0 <= j < Len r ->
   exists r',
     Swap r i j = Ok r'
     /\ Permutation r r'
     /\ Len r' = Len r
     /\ elemAt r' i = elemAt r j
     /\ elemAt r' j = elemAt r i
     /\ (forall k, k <> i -> k <> j -> elemAt r' k = elemAt r k)
     /\ Swap r' i j = Ok r)
  /\ (~ (0 <= i < Len r /\ 0 <= j < Len r) -> Swap r i j = Panic).
Proof.
  split.
  - intros Hi Hj.
    destruct (elemAt_in_range r i Hi) as [ri [Hri Ei]].
    destruct (elemAt_in_range r j Hj) as [rj [Hrj Ej]].
    assert (Hni : (Z.to_nat i < length r)%nat) by (unfold Len in Hi; lia).
    assert (Hnj : (Z.to_nat j < length r)%nat) by (unfold Len in Hj; lia).
    set (r' := <[Z.to_nat j := ri]> (<[Z.to_nat i := rj]> r)).
    assert (Hlen : Len r' = Len r)
      by (unfold Len, r'; rewrite !length_insert; reflexivity).
    assert (Hj' : r' !! Z.to_nat j = Some ri)
      by (unfold r'; apply list_lookup_insert_eq; rewrite length_insert; exact Hnj).
    assert (Hi' : r' !! Z.to_nat i = Some rj).
    { unfold r'. destruct (decide (Z.to_nat j = Z.to_nat i)) as [E|Hne].
      - rewrite E, list_lookup_insert_eq by (rewrite length_insert; exact Hni).
        rewrite E in Hrj. congruence.
      - rewrite list_lookup_insert_ne by exact Hne.
        apply list_lookup_insert_eq. exact Hni. }
    exists r'. split; [unfold Swap; rewrite Ej, Ei; reflexivity|].
    split; [symmetry; exact (Permutation_insert_swap r _ _ ri rj Hri Hrj)|].
    split; [exact Hlen|].
    split; [rewrite Ej; apply elemAt_lookup; [rewrite Hlen; exact Hi|exact Hi']|].
    split; [rewrite Ei; apply elemAt_lookup; [rewrite Hlen; exact Hj|exact Hj']|].
    split.
    + intros k Hki Hkj. unfold elemAt. rewrite Hlen.
      destruct ((0 <=? k) && (k <? Len r)) eqn:Hk; [|reflexivity].
      apply andb_prop in Hk. destruct Hk as [Hk0 Hk1]. apply Z.leb_le in Hk0.
      unfold r'. rewrite !list_lookup_insert_ne by lia. reflexivity.
    + unfold Swap.
      rewrite (elemAt_lookup r' j ri) by (rewrite ?Hlen; assumption).
      rewrite (elemAt_lookup r' i rj) by (rewrite ?Hlen; assumption).
      cbn [bind]. f_equal. unfold r'.
      destruct (decide (Z.to_nat i = Z.to_nat j)) as [E|Hne].
      * rewrite E in *. rewrite !list_insert_insert_eq. apply list_insert_id. exact Hrj.
      * rewrite (list_insert_insert_ne _ (Z.to_nat i) (Z.to_nat j)) by exact Hne.
        rewrite list_insert_insert_eq.
        rewrite list_insert_insert_eq.
        rewrite (list_insert_id r (Z.to_nat i) ri Hri).
        apply list_insert_id. exact Hrj.
  - intros Hout. unfold Swap.
    destruct (Z.le_gt_cases 0 j) as [Hj0|Hj0];
      [destruct (Z.lt_ge_cases j (Len r)) as [Hj1|Hj1]|];
      try (rewrite (elemAt_out_of_range r j) by lia; reflexivity).
    destruct (elemAt_in_range r j (conj Hj0 Hj1)) as [rj [_ ->]]. cbn [bind].
    rewrite (elemAt_out_of_range r i) by lia. reflexivity.
Qed.

(** *** The [--sort] flag *)

Lemma Split_one (e : string) (c : ascii) :
  noByte c e = true -> Strings.Split e c = e :: nil.
Proof.
  induction e as [|a e IH]; [reflexivity|]. cbn [noByte]. intros H.
  apply andb_prop in H. destruct H as [Ha He]. apply negb_true_iff in Ha.
  cbn [Strings.Split]. rewrite Ha, (IH He). reflexivity.
Qed.

Lemma Split_cons (e rest : string) (c : ascii) :
  noByte c e = true -> Strings.Split (e ++ String c rest) c = e :: Strings.Split rest c.
Proof.
  induction e as [|a e IH].
  - intros _. cbn [String.append Strings.Split]. rewrite Ascii.eqb_refl. reflexivity.
  - cbn [noByte]. intros H. apply andb_prop in H. destruct H as [Ha He].
    apply negb_true_iff in Ha.
    change (String a e ++ String c rest) with (String a (e ++ String c rest)).
    cbn [Strings.Split]. rewrite Ha, (IH He). reflexivity.
Qed.

(** Splitting what was joined gives the parts back. *)
Lemma Split_Join (entries : list string) :
  entries <> nil ->
  Forall (fun e => noByte "," e = true) entries ->
  Strings.Split (Strings.Join entries ",") "," = entries.
Proof.
  intros Hne Hall. induction Hall as [|e entries He Hes IH]; [contradiction|].
  destruct entries as [|e' entries].
  - cbn [Strings.Join]. apply Split_one. exact He.
  - change (Strings.Join (e :: e' :: entries) ",")
      with (e ++ String "," (Strings.Join (e' :: entries) ",")).
    rewrite (Split_cons e _ "," He), IH by discriminate. reflexivity.
Qed.

Lemma ParseUint_number (s : string) :
  isNumber s = true ->
  Strconv.ParseUint s =
    if decimal 0 s <? 2 ^ 64 then Ok (decimal 0 s) else Err (ErrRange "ParseUint" s).
Proof.
  intros Hnum. destruct (isNumber_spec s Hnum) as [Hne Hall].
  destruct s as [|c ds]; [contradiction|].
  unfold Strconv.ParseUint, Strconv.parseUint.
  rewrite (parseUintLoop_number "ParseUint" (String c ds) (String c ds) 0 Hall)
    by (change Strconv.maxUint64 with 18446744073709551615; lia).
  change Strconv.maxUint64 with 18446744073709551615.
  change (2 ^ 64) with 18446744073709551616.
  destruct (Z.leb_spec (decimal 0 (String c ds)) 18446744073709551615);
    destruct (Z.ltb_spec (decimal 0 (String c ds)) 18446744073709551616); try lia; reflexivity.
Qed.

Lemma parseUintLoop_not_number (fn orig : string) (s : string) :
  allBytes Strconv.isDigit s = false ->
  forall n, exists e, Strconv.parseUintLoop fn orig s n = Err e.
Proof.
  induction s as [|c s IH]; [discriminate|]. cbn [allBytes]. intros H n.
  cbn [Strconv.parseUintLoop]. destruct (Strconv.isDigit c); cbn [negb andb] in H |- *.
  - destruct (_ <=? n); [eexists; reflexivity|].
    destruct (_ <? _); [eexists; reflexivity|]. apply IH. exact H.
  - eexists; reflexivity.
Qed.

(** [strconv.ParseUint] fails on everything but a number below 2^64. *)
Lemma ParseUint_fails (s : string) :
  isNumber s = false \/ 2 ^ 64 <= decimal 0 s ->
  exists e, Strconv.ParseUint s = Err e.
Proof.
  destruct (isNumber s) eqn:Hnum.
  - intros [H|Hbig]; [discriminate|]. rewrite (ParseUint_number s Hnum).
    destruct (Z.ltb_spec (decimal 0 s) (2 ^ 64)); [lia|]. eexists; reflexivity.
  - intros _. unfold Strconv.ParseUint, Strconv.parseUint.
    destruct s as [|c ds]; [eexists; reflexivity|].
    apply parseUintLoop_not_number. exact Hnum.
Qed.

Lemma ParseUint_FormatUint (v : Z) :
  0 <= v < 2 ^ 64 -> Strconv.ParseUint (Strconv.FormatUint v) = Ok v.
Proof.
  intros Hv. destruct (FormatUint_digits v (proj1 Hv)) as [Hall [Hval [c [ds [E _]]]]].
  rewrite ParseUint_number by (unfold isNumber; rewrite Hall, E; reflexivity).
  rewrite Hval. destruct (Z.ltb_spec v (2 ^ 64)); [reflexivity|lia].
Qed.

Lemma applyScore_entry (table : gmap string N) (k : string) (v : Z) :
  noByte "=" k = true -> 0 <= v < 2 ^ 64 ->
  applyScore table (entryText (Some (k, v))) = Returns (<[k := Z.to_N v]> table).
Proof.
  intros Hk Hv. unfold applyScore, entryText.
  assert (Hne : ((k ++ "=" ++ Strconv.FormatUint v) =? "")%string = false)
    by (destruct k; reflexivity).
  rewrite Hne. unfold Strings.SplitN2.
  change (k ++ "=" ++ Strconv.FormatUint v) with (k ++ String "=" (Strconv.FormatUint v)).
  rewrite (cutByte_first "=" k _ Hk). cbn [index nth_error].
  rewrite (ParseUint_FormatUint v Hv). reflexivity.
Qed.

Lemma applyScores_app (table : gmap string N) (l1 l2 : list string) :
  applyScores table (l1 ++ l2) =
    match applyScores table l1 with
    | Returns table' => applyScores table' l2
    | stopped => stopped
    end.
Proof.
  revert table. induction l1 as [|e l1 IH]; intros table; [reflexivity|].
  cbn [List.app applyScores]. destruct (applyScore table e); try reflexivity. apply IH.
Qed.

Lemma applyScores_items (items : list (option (string * Z))) :
  Forall goodItem items ->
  forall table,
    applyScores table (List.map entryText items) = Returns (overlay (scoresOf items) table).
Proof.
  induction 1 as [|item items Hitem Hitems IH]; intros table; [reflexivity|].
  cbn [List.map applyScores]. destruct item as [[k v]|].
  - destruct Hitem as [_ [Hk Hv]]. rewrite (applyScore_entry table k v Hk Hv). apply IH.
  - cbn [entryText]. unfold applyScore. cbn [String.eqb]. apply IH.
Qed.

Lemma entryText_no_comma (item : option (string * Z)) :
  goodItem item -> noByte "," (entryText item) = true.
Proof.
  destruct item as [[k v]|]; [|reflexivity]. intros [Hk [_ Hv]]. cbn [entryText].
  rewrite !noByte_app, Hk. cbn [noByte andb].
  apply (noByte_of_all Strconv.isDigit); [reflexivity|].
  exact (proj1 (FormatUint_digits v (proj1 Hv))).
Qed.

Lemma find_snoc {X : Type} (f : X -> bool) (l : list X) (x : X) :
  List.find f (l ++ x :: nil) =
    match List.find f l with
    | Some y => Some y
    | None => if f x then Some x else None
    end.
Proof.
  induction l as [|a l IH]; [reflexivity|]. cbn [List.app List.find].
  destruct (f a); [reflexivity|exact IH].
Qed.

(** Reading the table after the pairs are written: the last pair of a
    type decides, and a type without a pair keeps its entry. *)
Lemma overlay_lookup (pairs : list (string * Z)) :
  forall (table : gmap string N) (k : string),
    overlay pairs table !! k =
      match List.find (fun p => String.eqb (fst p) k) (List.rev pairs) with
      | Some p => Some (Z.to_N (snd p))
      | None => table !! k
      end.
Proof.
  induction pairs as [|p pairs IH]; intros table k; [reflexivity|].
  cbn [overlay List.fold_left List.rev]. fold (overlay pairs (<[fst p := Z.to_N (snd p)]> table)).
  rewrite IH, find_snoc.
  destruct (List.find _ (List.rev pairs)); [reflexivity|].
  destruct (String.eqb_spec (fst p) k) as [->|Hne].
  - apply lookup_insert_eq.
  - apply lookup_insert_ne. exact Hne.
Qed.

(** X20. The [--sort] flag overlays the built-in table: for a flag that
    lists entries of a type, the sign [=] and a score below 2^64, with
    commas between them and possibly nothing between two commas, [init]
    returns the built-in table with the entries written into it in their
    order; so the last entry of a type gives its score, and a type without
    an entry keeps its built-in score or has none. *)
Theorem sort_flag_overlays_defaults (version : string) (cfg : config)
    (items : list (option (string * Z))) :
  VersionAndExit cfg = false ->
  SpecialSort cfg = flagOf items ->
  Forall goodItem items ->
  init version (Some cfg) = Returns (overlay (scoresOf items) defaultSorting)
  /\ forall k,
       overlay (scoresOf items) defaultSorting !! k =
         match List.find (fun p => String.eqb (fst p) k) (List.rev (scoresOf items)) with
         | Some p => Some (Z.to_N (snd p))
         | None => defaultSorting !! k
         end.
Proof.
  intros Hversion Hflag Hitems. split; [|intros k; apply overlay_lookup].
  unfold init. rewrite Hversion, Hflag. unfold flagOf.
  destruct items as [|item items]; [reflexivity|].
  rewrite Split_Join.
  - apply applyScores_items. exact Hitems.
  - discriminate.
  - rewrite List.Forall_forall in Hitems |- *. intros e He. apply in_map_iff in He.
    destruct He as [it [<- Hit]]. apply entryText_no_comma. exact (Hitems it Hit).
Qed.

(** X21. An entry of the [--sort] flag that is not empty and holds no
    sign [=] makes [init] panic when it reads the second part of the entry,
    whatever follows it in the flag, once the entries before it are
    accepted. *)
Theorem sort_entry_without_equals_panics (version : string) (cfg : config)
    (before : list (option (string * Z))) (entry : string) (after : list string) :
  VersionAndExit cfg = false ->
  Forall goodItem before ->
  entry <> "" -> noByte "=" entry = true -> noByte "," entry = true ->
  Forall (fun e => noByte "," e = true) after ->
  SpecialSort cfg = Strings.Join (List.map entryText before ++ entry :: after) "," ->
  init version (Some cfg) = Crash.
Proof.
  intros Hversion Hbefore Hne Heq Hcomma Hafter Hflag.
  unfold init. rewrite Hversion, Hflag. rewrite Split_Join.
  - rewrite applyScores_app, (applyScores_items before Hbefore).
    cbn [applyScores]. unfold applyScore.
    destruct (String.eqb_spec entry "") as [E|_]; [contradiction|].
    unfold Strings.SplitN2. rewrite (cutByte_none "=" entry Heq). reflexivity.
  - destruct (List.map entryText before); discriminate.
  - apply Forall_app. split; [|constructor; assumption].
    rewrite List.Forall_forall in Hbefore |- *. intros e He. apply in_map_iff in He.
    destruct He as [it [<- Hit]]. apply entryText_no_comma. exact (Hbefore it Hit).
Qed.

(** X22. An entry of the [--sort] flag whose score is not a number below
    2^64 (it is empty, holds a byte that is not a digit, or is too large)
    is fatal: [init] ends the process with status 1 and the message that the
    scoring entry is broken, with the error of [strconv.ParseUint], once the
    entries before it are accepted. *)
Theorem sort_entry_with_bad_score_is_fatal (version : string) (cfg : config)
    (before : list (option (string * Z))) (k v : string) (after : list string) :
  VersionAndExit cfg = false ->
  Forall goodItem before ->
  noByte "=" k = true -> noByte "," k = true -> noByte "," v = true ->
  isNumber v = false \/ 2 ^ 64 <= decimal 0 v ->
  Forall (fun e => noByte "," e = true) after ->
  SpecialSort cfg
  = Strings.Join (List.map entryText before ++ (k ++ "=" ++ v)%string :: after) "," ->
  exists e,
    Strconv.ParseUint v = Err e
    /\ init version (Some cfg) = Exit 1 (ScoringEntryBroken (k ++ "=" ++ v) e).
Proof.
  intros Hversion Hbefore Heq Hcomma Hv Hbad Hafter Hflag.
  destruct (ParseUint_fails v Hbad) as [e He]. exists e. split; [exact He|].
  unfold init. rewrite Hversion, Hflag. rewrite Split_Join.
  - rewrite applyScores_app, (applyScores_items before Hbefore).
    cbn [applyScores]. unfold applyScore.
    assert (Hne : ((k ++ "=" ++ v) =? "")%string = false) by (destruct k; reflexivity).
    rewrite Hne. unfold Strings.SplitN2.
    change (k ++ "=" ++ v) with (k ++ String "=" v).
    rewrite (cutByte_first "=" k v Heq). cbn [index nth_error]. rewrite He. reflexivity.
  - destruct (List.map entryText before); discriminate.
  - apply Forall_app. split; [|constructor; [|assumption]].
    + rewrite List.Forall_forall in Hbefore |- *. intros x Hx. apply in_map_iff in Hx.
      destruct Hx as [it [<- Hit]]. apply entryText_no_comma. exact (Hbefore it Hit).
    + rewrite !noByte_app, Hcomma, Hv. reflexivity.
Qed.

(** *** The loop over the files *)

Lemma concat_cons (x : string) (xs : list string) :
  String.concat "" (x :: xs) = x ++ String.concat "" xs.
Proof.
  destruct xs as [|y xs]; [cbn; rewrite append_empty_r; reflexivity|reflexivity].
Qed.

Lemma formatFiles_app (cfg : config) (w : world) (l1 l2 : list string) :
  formatFiles cfg w (l1 ++ l2) =
    match formatFiles cfg w l1 with
    | (w', Returns _) => formatFiles cfg w' l2
    | stopped => stopped
    end.
Proof.
  revert w. induction l1 as [|zf l1 IH]; intros w; [reflexivity|].
  cbn [List.app formatFiles].
  destruct (formatFile cfg w zf) as [w' [u|status said|]]; try reflexivity. apply IH.
Qed.

Lemma formatFile_read_only (cfg : config) (w : world) (zf : string) :
  WriteBack cfg = false -> files (fst (formatFile cfg w zf)) = files w.
Proof.
  intros Hw. unfold formatFile. destruct (files w !! zf) as [f|]; [|reflexivity].
  destruct (formatZone (content f)) as [entries [out|e|]]; try reflexivity.
  rewrite Hw. reflexivity.
Qed.

Lemma formatFiles_read_only (cfg : config) (zfs : list string) :
  WriteBack cfg = false ->
  forall w, files (fst (formatFiles cfg w zfs)) = files w.
Proof.
  intros Hw. induction zfs as [|zf zfs IH]; intros w; [reflexivity|].
  cbn [formatFiles]. pose proof (formatFile_read_only cfg w zf Hw) as Hone.
  destruct (formatFile cfg w zf) as [w' [u|status said|]]; cbn [fst] in Hone |- *;
    try exact Hone.
  rewrite IH. exact Hone.
Qed.

Lemma formatFiles_prints (cfg : config) (zfs : list string) :
  WriteBack cfg = false ->
  forall w,
    Forall (formats (files w)) zfs ->
    formatFiles cfg w zfs
    = ({| files := files w;
          stdout := stdout w ++ String.concat "" (List.map (outputOf (files w)) zfs);
          stderr := (stderr w ++ List.concat (List.map (entriesFor (files w)) zfs))%list |},
       Returns tt).
Proof.
  intros Hw. induction zfs as [|zf zfs IH]; intros w Hall.
  - cbn. rewrite append_empty_r, app_nil_r. destruct w; reflexivity.
  - apply Forall_cons_iff in Hall. destruct Hall as [[f [out [Hf Hout]]] Hall].
    cbn [formatFiles List.map List.concat]. rewrite concat_cons.
    unfold formatFile, outputOf at 1, entriesFor at 1. rewrite Hf.
    destruct (formatZone (content f)) as [entries zoneResult]. cbn [snd fst] in Hout |- *.
    rewrite Hout, Hw.
    match goal with |- formatFiles _ ?w1 _ = _ => rewrite (IH w1 Hall) end.
    cbn [files stdout stderr].
    rewrite append_assoc, <- app_assoc. reflexivity.
Qed.

(** X23. Without [--write-file], [main] never changes a file, however
    the run ends; and when [formatZone] returns a text for every file named
    on the command line, [main] returns after printing those texts on
    standard output in the order of the command line. *)
Theorem main_prints_without_write_back (cfg : config) (prog : string) (zfs : list string)
    (w : world) :
  WriteBack cfg = false ->
  files (fst (main cfg (prog :: zfs) w)) = files w
  /\ (Forall (formats (files w)) zfs ->
      main cfg (prog :: zfs) w
      = ({| files := files w;
            stdout := stdout w ++ String.concat "" (List.map (outputOf (files w)) zfs);
            stderr := (stderr w ++ List.concat (List.map (entriesFor (files w)) zfs))%list |},
         Returns tt)).
Proof.
  intros Hw. cbn [main]. split; [apply formatFiles_read_only; exact Hw|].
  apply formatFiles_prints. exact Hw.
Qed.

Lemma formatFile_silent (cfg : config) (w : world) (zf : string) :
  WriteBack cfg = true -> stdout (fst (formatFile cfg w zf)) = stdout w.
Proof.
  intros Hw. unfold formatFile. destruct (files w !! zf) as [f|]; [|reflexivity].
  destruct (formatZone (content f)) as [entries [out|e|]]; try reflexivity.
  rewrite Hw. destruct (writable f); reflexivity.
Qed.

Lemma formatFiles_silent (cfg : config) (zfs : list string) :
  WriteBack cfg = true ->
  forall w, stdout (fst (formatFiles cfg w zfs)) = stdout w.
Proof.
  intros Hw. induction zfs as [|zf zfs IH]; intros w; [reflexivity|].
  cbn [formatFiles]. pose proof (formatFile_silent cfg w zf Hw) as Hone.
  destruct (formatFile cfg w zf) as [w' [u|status said|]]; cbn [fst] in Hone |- *;
    try exact Hone.
  rewrite IH. exact Hone.
Qed.

Lemma formatFile_other (cfg : config) (w : world) (zf path : string) :
  path <> zf -> files (fst (formatFile cfg w zf)) !! path = files w !! path.
Proof.
  intros Hne. unfold formatFile. destruct (files w !! zf) as [f|]; [|reflexivity].
  destruct (formatZone (content f)) as [entries [out|e|]]; try reflexivity.
  destruct (WriteBack cfg); [|reflexivity]. destruct (writable f); [|reflexivity].
  cbn [fst files]. apply lookup_insert_ne. congruence.
Qed.

Lemma formatFiles_other (cfg : config) (zfs : list string) (path : string) :
  ~ In path zfs ->
  forall w, files (fst (formatFiles cfg w zfs)) !! path = files w !! path.
Proof.
  induction zfs as [|zf zfs IH]; intros Hnot w; [reflexivity|].
  cbn [formatFiles].
  pose proof (formatFile_other cfg w zf path
                ltac:(intros ->; apply Hnot; left; reflexivity)) as Hone.
  destruct (formatFile cfg w zf) as [w' [u|status said|]]; cbn [fst] in Hone |- *;
    try exact Hone.
  rewrite IH; [exact Hone|]. intros Hin. apply Hnot. right. exact Hin.
Qed.

Lemma formatFiles_writes (cfg : config) (zfs : list string) :
  WriteBack cfg = true ->
  List.NoDup zfs ->
  forall w,
    Forall (fun zf => formats (files w) zf
                      /\ forall f, files w !! zf = Some f -> writable f = true) zfs ->
    exists w',
      formatFiles cfg w zfs = (w', Returns tt)
      /\ forall zf, In zf zfs ->
           files w' !! zf = Some {| content := outputOf (files w) zf; writable := true |}.
Proof.
  intros Hw Hnodup. induction Hnodup as [|zf zfs Hnot Hnodup IH]; intros w Hall.
  - exists w. split; [reflexivity|]. intros zf [].
  - apply Forall_cons_iff in Hall. destruct Hall as [[[f [out [Hf Hout]]] Hwr] Hall].
    cbn [formatFiles].
    assert (Hone : formatFile cfg w zf
                   = ({| files := <[zf := {| content := out; writable := true |}]> (files w);
                         stdout := stdout w;
                         stderr := (stderr w ++ fst (formatZone (content f)))%list |},
                      Returns tt)).
    { unfold formatFile. rewrite Hf.
      destruct (formatZone (content f)) as [entries zoneResult]. cbn [snd fst] in Hout |- *.
      rewrite Hout, Hw, (Hwr f Hf). reflexivity. }
    rewrite Hone.
    set (w1 := {| files := <[zf := {| content := out; writable := true |}]> (files w);
                  stdout := stdout w;
                  stderr := (stderr w ++ fst (formatZone (content f)))%list |}).
    assert (Hsame : forall zf', In zf' zfs -> files w1 !! zf' = files w !! zf').
    { intros zf' Hin. unfold w1. cbn [files]. apply lookup_insert_ne.
      intros ->. exact (Hnot Hin). }
    destruct (IH w1) as [w' [Hrun Hfiles]].
    { rewrite List.Forall_forall in Hall |- *. intros zf' Hin.
      destruct (Hall zf' Hin) as [[f' [out' [Hf' Hout']]] Hwr'].
      split.
      - exists f', out'. rewrite (Hsame zf' Hin). split; assumption.
      - intros f0. rewrite (Hsame zf' Hin). apply Hwr'. }
    exists w'. split; [exact Hrun|].
    intros zf' [<-|Hin].
    + pose proof (formatFiles_other cfg zfs zf Hnot w1) as Hkeep.
      rewrite Hrun in Hkeep. cbn [fst] in Hkeep. rewrite Hkeep.
      unfold w1. cbn [files]. rewrite lookup_insert_eq.
      unfold outputOf. rewrite Hf, Hout. reflexivity.
    + rewrite (Hfiles zf' Hin). unfold outputOf. rewrite (Hsame zf' Hin). reflexivity.
Qed.

(** X24. With [--write-file], [main] prints nothing on standard output
    and changes no file that is not named on the command line; and when the
    files named there are different files that can be written and
    [formatZone] returns a text for each, [main] returns with each of them
    holding the text [formatZone] returned for its former content. *)
Theorem main_writes_back (cfg : config) (prog : string) (zfs : list string) (w : world) :
  WriteBack cfg = true ->
  stdout (fst (main cfg (prog :: zfs) w)) = stdout w
  /\ (forall path, ~ In path zfs ->
      files (fst (main cfg (prog :: zfs) w)) !! path = files w !! path)
  /\ (List.NoDup zfs ->
      Forall (fun zf => formats (files w) zf
                        /\ forall f, files w !! zf = Some f -> writable f = true) zfs ->
      exists w',
        main cfg (prog :: zfs) w = (w', Returns tt)
        /\ forall zf, In zf zfs ->
             files w' !! zf
             = Some {| content := outputOf (files w) zf; writable := true |}).
Proof.
  intros Hw. cbn [main]. split; [apply formatFiles_silent; exact Hw|].
  split; [intros path Hnot; apply formatFiles_other; exact Hnot|].
  intros Hnodup Hall. apply formatFiles_writes; assumption.
Qed.

Lemma formatFile_fails (cfg : config) (w : world) (zf : string) :
  fails cfg (files w) zf ->
  snd (formatFile cfg w zf) <> Returns tt
  /\ files (fst (formatFile cfg w zf)) = files w
  /\ stdout (fst (formatFile cfg w zf)) = stdout w.
Proof.
  unfold fails, formatFile. destruct (files w !! zf) as [f|].
  - destruct (formatZone (content f)) as [entries [out|e|]]; cbn [snd fst].
    + intros [-> ->]. repeat split. discriminate.
    + intros _. repeat split. discriminate.
    + intros _. repeat split. discriminate.
  - intros _. repeat split. discriminate.
Qed.

(** X25. [main] stops at the first file it cannot go on after (the path
    names no file, [formatZone] returns an error or panics, or the file is
    to be written back and cannot be written): it ends as the turn of the
    loop on that file ends, which is not a return; that file is left as it
    was, nothing is printed for it, and the files after it on the command
    line are not read. *)
Theorem main_stops_at_first_failure (cfg : config) (prog zf : string)
    (before after : list string) (w w1 : world) :
  formatFiles cfg w before = (w1, Returns tt) ->
  fails cfg (files w1) zf ->
  main cfg (prog :: before ++ zf :: after) w = formatFile cfg w1 zf
  /\ snd (main cfg (prog :: before ++ zf :: after) w) <> Returns tt
  /\ files (fst (main cfg (prog :: before ++ zf :: after) w)) = files w1
  /\ stdout (fst (main cfg (prog :: before ++ zf :: after) w)) = stdout w1.
Proof.
  intros Hbefore Hfails.
  destruct (formatFile_fails cfg w1 zf Hfails) as [Hstop [Hfiles Hout]].
  assert (Hmain : main cfg (prog :: before ++ zf :: after) w = formatFile cfg w1 zf).
  { cbn [main]. rewrite formatFiles_app, Hbefore. cbn [formatFiles].
    destruct (formatFile cfg w1 zf) as [w2 [[]|status said|]]; cbn [snd] in Hstop;
      [contradiction|reflexivity|reflexivity]. }
  rewrite Hmain. repeat split; assumption.
Qed.

(** *** Whole seconds in binary64 *)

Lemma digits_iter_xO (p d : positive) :
  Z.pos (digits2_pos (Pos.iter xO p d)) = Z.pos (digits2_pos p) + Z.pos d
  /\ Z.pos (Pos.iter xO p d) = Z.pos p * 2 ^ Z.pos d.
Proof.
  induction d as [|d [IH1 IH2]] using Pos.peano_ind.
  - cbn [Pos.iter digits2_pos]. split; lia.
  - rewrite Pos.iter_succ. cbn [digits2_pos]. rewrite !Pos2Z.inj_succ. split; [lia|].
    rewrite Z.pow_succ_r by lia. rewrite Pos2Z.inj_xO. lia.
Qed.

(** A mantissa of 53 bits with an exponent in range is not rounded. *)
Lemma binary_round_aux_exact (sx : bool) (m : positive) (e : Z) :
  Z.pos (digits2_pos m) = 53 -> -1074 <= e <= 971 ->
  binary_round_aux Float64.prec Float64.emax sx (Z.pos m) e loc_Exact = S754_finite sx m e.
Proof.
  intros Hd He. unfold binary_round_aux, shr_fexp.
  cbn [shr_record_of_loc Zdigits2]. rewrite Hd.
  assert (Hf : fexp Float64.prec Float64.emax (53 + e) - e = 0).
  { unfold fexp, emin, Float64.prec, Float64.emax. lia. }
  rewrite Hf. cbn [shr shr_m loc_of_shr_record round_nearest_even Zdigits2 shr_record_of_loc].
  rewrite Hd, Hf. cbn [shr shr_m].
  unfold Float64.emax, Float64.prec.
  destruct (Z.leb_spec e (1024 - 53)); [reflexivity|lia].
Qed.

Lemma digits2_pos_lower (p : positive) : 2 ^ (Z.pos (digits2_pos p) - 1) <= Z.pos p.
Proof.
  induction p as [p IH|p IH|]; cbn [digits2_pos]; [| |cbn; lia].
  - rewrite Pos2Z.inj_succ.
    replace (Z.succ (Z.pos (digits2_pos p)) - 1) with (Z.succ (Z.pos (digits2_pos p) - 1)) by lia.
    rewrite Z.pow_succ_r by lia. lia.
  - rewrite Pos2Z.inj_succ.
    replace (Z.succ (Z.pos (digits2_pos p)) - 1) with (Z.succ (Z.pos (digits2_pos p) - 1)) by lia.
    rewrite Z.pow_succ_r by lia. lia.
Qed.

(** An integer of at most 53 bits is a binary64 number. *)
Lemma toInt_ofInt (i : Z) : 0 <= i < 2 ^ 53 -> Float64.toInt (Float64.ofInt i) = i.
Proof.
  intros Hi. destruct i as [|p|p]; [reflexivity| |lia].
  assert (Hdig : Z.pos (digits2_pos p) <= 53).
  { destruct (Z.le_gt_cases (Z.pos (digits2_pos p)) 53) as [H|H]; [exact H|exfalso].
    pose proof (digits2_pos_lower p) as Hlow.
    assert (2 ^ 53 <= 2 ^ (Z.pos (digits2_pos p) - 1)) by (apply Z.pow_le_mono_r; lia).
    lia. }
  unfold Float64.ofInt, binary_normalize, binary_round.
  assert (Hf : fexp Float64.prec Float64.emax (Z.pos (digits2_pos p) + 0)
               = Z.pos (digits2_pos p) - 53).
  { unfold fexp, emin, Float64.prec, Float64.emax. lia. }
  rewrite Hf. unfold shl_align.
  destruct (Z.pos (digits2_pos p) - 53 - 0) as [|d|d] eqn:E; [|lia|].
  - rewrite binary_round_aux_exact by lia. cbn [Float64.toInt]. cbn. lia.
  - destruct (digits_iter_xO p d) as [H1 H2].
    rewrite binary_round_aux_exact by lia.
    cbn [Float64.toInt].
    destruct (Z.leb_spec 0 (Z.pos (digits2_pos p) - 53)) as [Hge|_]; [lia|].
    replace (- (Z.pos (digits2_pos p) - 53)) with (Z.pos d) by lia.
    change (Z.pos (PosDef.Pos.iter xO p d)) with (Z.pos (Pos.iter xO p d)).
    rewrite H2. apply Z.div_mul. apply Z.pow_nonzero; lia.
Qed.

(** The seconds of a duration of whole seconds. *)
Lemma toInt_Seconds (n : Z) :
  0 <= n < 2 ^ 53 -> Float64.toInt (Time.Seconds (n * Time.Second)) = n.
Proof.
  intros Hn. unfold Time.Seconds.
  rewrite Z.quot_mul by (unfold Time.Second; lia).
  rewrite Z.rem_mul by (unfold Time.Second; lia).
  change (Float64.div (Float64.ofInt 0) (Float64.ofInt Time.Second)) with (S754_zero false).
  assert (Hadd : Float64.add (Float64.ofInt n) (S754_zero false) = Float64.ofInt n).
  { destruct n as [|p|p]; [reflexivity| |lia].
    pose proof (toInt_ofInt (Z.pos p) Hn) as Hval.
    destruct (Float64.ofInt (Z.pos p)) as [s|s| |s m e]; try reflexivity.
    cbn in Hval. discriminate. }
  rewrite Hadd. apply toInt_ofInt. exact Hn.
Qed.


(** *** Durations of whole seconds *)

Lemma leadingInt_app (ds tail : string) :
  forall x,
    allBytes Strconv.isDigit ds = true -> startsIn Strconv.isDigit tail = false ->
    0 <= x -> decimal x ds <= Time.two63 ->
    Time.leadingInt (ds ++ tail) x = Some (decimal x ds, tail).
Proof.
  change Time.two63 with 9223372036854775808.
  induction ds as [|c ds IH]; intros x Hall Htail Hx Hfit.
  - cbn [String.append decimal]. destruct tail as [|t tail]; [reflexivity|].
    cbn [startsIn] in Htail. cbn [Time.leadingInt]. rewrite Htail. reflexivity.
  - simpl in Hall. apply andb_prop in Hall. destruct Hall as [Hc Hs].
    pose proof (isDigit_val c Hc) as Hv. cbn [decimal] in Hfit |- *.
    assert (Hstep : x * 10 + Strconv.digitVal c <= decimal (x * 10 + Strconv.digitVal c) ds)
      by (apply decimal_mono; [lia|exact Hs]).
    change (String c ds ++ tail) with (String c (ds ++ tail)).
    cbn [Time.leadingInt]. rewrite Hc. cbn [negb].
    change (Time.two63 / 10) with 922337203685477580.
    change Time.two63 with 9223372036854775808.
    destruct (Z.ltb_spec 922337203685477580 x) as [Hbig|_]; [lia|].
    destruct (Z.ltb_spec 9223372036854775808 (x * 10 + Strconv.digitVal c)) as [Hbig|_]; [lia|].
    apply IH; [exact Hs|exact Htail|lia|exact Hfit].
Qed.

Lemma unitText_stop (rest : string) :
  rest = "" \/ startsIn Strconv.isDigit rest = true -> Time.unitText rest = ("", rest).
Proof.
  intros [->|H]; [reflexivity|]. destruct rest as [|c rest]; [discriminate|].
  cbn [startsIn] in H. cbn [Time.unitText]. rewrite H, orb_true_r. reflexivity.
Qed.

Lemma durationText_start (terms : list (string * wholeUnit)) :
  Forall (fun t => isNumber (fst t) = true) terms ->
  durationText terms = "" \/ startsIn Strconv.isDigit (durationText terms) = true.
Proof.
  intros Hall. destruct Hall as [|[ds u] terms Hds _]; [left; reflexivity|right].
  cbn [durationText List.fold_right fst snd]. cbn [fst] in Hds.
  destruct (isNumber_spec ds Hds) as [Hne Hdig].
  rewrite (startsIn_app _ ds _ Hne). exact (startsIn_all _ ds Hne Hdig).
Qed.

Lemma durationSeconds_nonneg (terms : list (string * wholeUnit)) :
  Forall (fun t => isNumber (fst t) = true) terms -> 0 <= durationSeconds terms.
Proof.
  induction 1 as [|[ds u] terms Hds _ IH]; [cbn; lia|].
  cbn [durationSeconds List.fold_right fst snd]. fold (durationSeconds terms).
  pose proof (decimal_nonneg ds (proj2 (isNumber_spec ds Hds))).
  assert (0 < unitSeconds u) by (destruct u; cbn; lia). nia.
Qed.

Lemma unitText_whole (u : wholeUnit) (rest : string) :
  rest = "" \/ startsIn Strconv.isDigit rest = true ->
  Time.unitText (unitName u ++ rest) = (unitName u, rest).
Proof.
  intros H. destruct u; cbn [unitName String.append Time.unitText];
    rewrite (unitText_stop rest H); reflexivity.
Qed.

Lemma unitMap_whole (u : wholeUnit) :
  Time.unitMap (unitName u) = Some (unitSeconds u * Time.Second).
Proof. destruct u; reflexivity. Qed.

Lemma no_fraction {X : Type} (u : wholeUnit) (rest : string) (A : string -> X) (B : X) :
  match unitName u ++ rest with
  | String "."%char s1' => A s1'
  | _ => B
  end = B.
Proof. destruct u; reflexivity. Qed.

(** One turn of the loop of [ParseDuration] on a number with its unit. *)
Lemma parseTerms_term (fuel : nat) (orig ds : string) (u : wholeUnit) (rest : string)
    (d : Z) :
  isNumber ds = true ->
  rest = "" \/ startsIn Strconv.isDigit rest = true ->
  0 <= d -> d + decimal 0 ds * unitSeconds u * Time.Second <= Time.two63 ->
  Time.parseTerms (S fuel) orig (ds ++ unitName u ++ rest) d
  = Time.parseTerms fuel orig rest (d + decimal 0 ds * unitSeconds u * Time.Second).
Proof.
  intros Hnum Hrest Hd Hfit. destruct (isNumber_spec ds Hnum) as [Hne Hall].
  pose proof (decimal_nonneg ds Hall) as Hv.
  assert (Hu : 0 < unitSeconds u) by (destruct u; cbn; lia).
  assert (Hlead : Time.leadingInt (ds ++ unitName u ++ rest) 0
                  = Some (decimal 0 ds, unitName u ++ rest)).
  { apply leadingInt_app; [exact Hall|destruct u; reflexivity|lia|].
    unfold Time.Second in Hfit. nia. }
  destruct ds as [|c ds']; [contradiction|].
  assert (Hc : Strconv.isDigit c = true).
  { simpl in Hall. apply andb_prop in Hall. exact (proj1 Hall). }
  change (String c ds' ++ unitName u ++ rest) with (String c (ds' ++ unitName u ++ rest)) in *.
  cbn [Time.parseTerms]. rewrite Hc, orb_true_r. cbn [negb]. rewrite Hlead.
  assert (Hpre : (String.length (String c (ds' ++ unitName u ++ rest))
                  =? String.length (unitName u ++ rest))%nat = false).
  { apply Nat.eqb_neq. cbn [String.length]. rewrite !length_append. lia. }
  rewrite Hpre. cbn [negb andb].
  set (v := decimal 0 (String c ds')) in *.
  rewrite no_fraction. cbv beta iota zeta.
  rewrite (unitText_whole u rest Hrest). cbv beta iota zeta.
  assert (Hname : Regexp.isEmpty (unitName u) = false) by (destruct u; reflexivity).
  rewrite Hname, unitMap_whole.
  change (0 <? 0) with false. cbv iota.
  change Time.two63 with 9223372036854775808 in Hfit |- *.
  change Time.two64 with 18446744073709551616.
  assert (Hunit : 0 < unitSeconds u * Time.Second) by (unfold Time.Second; lia).
  assert (Hv1 : 0 <= v * (unitSeconds u * Time.Second)) by nia.
  assert (Hle : v * (unitSeconds u * Time.Second) <= 9223372036854775808) by nia.
  destruct (Z.ltb_spec (9223372036854775808 / (unitSeconds u * Time.Second)) v) as [Hbig|_].
  { exfalso.
    assert (v <= 9223372036854775808 / (unitSeconds u * Time.Second))
      by (apply Z.div_le_lower_bound; [exact Hunit|lia]).
    lia. }
  destruct (Z.ltb_spec 9223372036854775808 (v * (unitSeconds u * Time.Second))) as [Hbig|_];
    [lia|].
  rewrite Z.mod_small by lia.
  destruct (Z.ltb_spec 9223372036854775808 (d + v * (unitSeconds u * Time.Second)))
    as [Hbig|_]; [lia|].
  f_equal. lia.
Qed.

Lemma parseTerms_terms (orig : string) (terms : list (string * wholeUnit)) :
  Forall (fun t => isNumber (fst t) = true) terms ->
  forall fuel d,
    (String.length (durationText terms) <= fuel)%nat ->
    0 <= d -> d + durationSeconds terms * Time.Second <= Time.two63 ->
    Time.parseTerms fuel orig (durationText terms) d
    = Ok (d + durationSeconds terms * Time.Second).
Proof.
  induction 1 as [|[ds u] terms Hds Hterms IH]; intros fuel d Hfuel Hd Hfit.
  - cbn [durationText durationSeconds List.fold_right]. destruct fuel; cbn; f_equal; lia.
  - cbn [durationText durationSeconds List.fold_right fst snd] in *.
    fold (durationText terms) in *. fold (durationSeconds terms) in *.
    pose proof (durationSeconds_nonneg terms Hterms) as Hrest.
    pose proof (decimal_nonneg ds (proj2 (isNumber_spec ds Hds))) as Hv.
    assert (Hu : 0 < unitSeconds u) by (destruct u; cbn; lia).
    rewrite !length_append in Hfuel.
    assert (Hname : String.length (unitName u) = 1%nat) by (destruct u; reflexivity).
    destruct fuel as [|fuel]; [lia|].
    rewrite (parseTerms_term fuel orig ds u (durationText terms) d Hds
               (durationText_start terms Hterms) Hd)
      by (unfold Time.Second in *; nia).
    rewrite IH by (try lia; unfold Time.Second in *; nia).
    f_equal. lia.
Qed.

(** [time.ParseDuration] on numbers with units of whole seconds. *)
Lemma ParseDuration_whole (terms : list (string * wholeUnit)) :
  terms <> nil ->
  Forall (fun t => isNumber (fst t) = true) terms ->
  durationSeconds terms * Time.Second < 2 ^ 63 ->
  Time.ParseDuration (durationText terms) = Ok (durationSeconds terms * Time.Second).
Proof.
  intros Hne Hall Hfit.
  pose proof (parseTerms_terms (durationText terms) terms Hall
                (String.length (durationText terms)) 0 (Nat.le_refl _) (Z.le_refl 0)) as Hloop.
  destruct terms as [|[ds u] terms]; [contradiction|].
  pose proof (Forall_inv Hall) as Hds. cbn [fst] in Hds.
  destruct (isNumber_spec ds Hds) as [Hdne Hdig].
  destruct ds as [|c ds']; [contradiction|].
  assert (Hc : Strconv.isDigit c = true).
  { simpl in Hdig. apply andb_prop in Hdig. exact (proj1 Hdig). }
  unfold Time.ParseDuration.
  assert (Htext : exists tail, durationText ((String c ds', u) :: terms) = String c tail
                               /\ tail <> "").
  { exists (ds' ++ unitName u ++ durationText terms). split; [reflexivity|].
    destruct ds'; [destruct u; discriminate|discriminate]. }
  destruct Htext as [tail [Htext Htail]]. rewrite Htext in *.
  destruct (digit_not_sign c Hc) as [Hplus Hminus]. rewrite Hplus, Hminus. cbn [orb].
  assert (Hzero : (String c tail =? "0")%string = false).
  { cbn [String.eqb]. destruct tail; [contradiction|]. apply andb_false_r. }
  rewrite Hzero. cbn [Regexp.isEmpty].
  rewrite Hloop by (change Time.two63 with (2 ^ 63); lia).
  cbn [bind]. change (Time.two63 - 1) with (2 ^ 63 - 1).
  destruct (Z.ltb_spec (2 ^ 63 - 1) (0 + durationSeconds ((String c ds', u) :: terms)
                                         * Time.Second)); [lia|].
  f_equal.
Qed.

(** X26. A [$TTL] directive whose argument is written as numbers with
    the units [h], [m] and [s], as in [1h30m], sets the default TTL to
    exactly that many seconds, as long as the duration stays below 2^63
    nanoseconds: the conversion through [float64] loses nothing. *)
Theorem TTL_of_whole_seconds (st : state) (terms : list (string * wholeUnit)) :
  terms <> nil ->
  Forall (fun t => isNumber (fst t) = true) terms ->
  durationSeconds terms * Time.Second < 2 ^ 63 ->
  Time.ParseDuration (durationText terms) = Ok (durationSeconds terms * Time.Second)
  /\ processLine st ("$TTL " ++ durationText terms)
     = Ok ({| zone := zone st; ttl := durationSeconds terms; rr := rr st |}, nil).
Proof.
  intros Hne Hall Hfit.
  pose proof (ParseDuration_whole terms Hne Hall Hfit) as Hparse.
  split; [exact Hparse|].
  rewrite processLine_TTL, Hparse, toInt_Seconds; [reflexivity|].
  pose proof (durationSeconds_nonneg terms Hall). unfold Time.Second in Hfit.
  change (2 ^ 63) with 9223372036854775808 in Hfit.
  change (2 ^ 53) with 9007199254740992. lia.
Qed.

(** *** Where errors and panics come from *)

Lemma cutByte_sound (s : string) (c : ascii) (before after : string) :
  Strings.cutByte s c = Some (before, after) -> s = before ++ String c after.
Proof.
  revert before. induction s as [|a s IH]; intros before; [discriminate|].
  cbn [Strings.cutByte]. destruct (Ascii.eqb_spec a c) as [->|Hne].
  - intros H. injection H as <- <-. reflexivity.
  - destruct (Strings.cutByte s c) as [[b a']|]; [|discriminate].
    intros H. injection H as <- <-. rewrite (IH b eq_refl). reflexivity.
Qed.

Lemma parseTerms_no_panic (fuel : nat) :
  forall orig s d, Time.parseTerms fuel orig s d <> Panic.
Proof.
  induction fuel as [|fuel IH]; intros orig s d; destruct s as [|c s];
    cbn [Time.parseTerms]; try discriminate.
  repeat match goal with
         | |- Err _ <> Panic => discriminate
         | |- Time.parseTerms _ _ _ _ <> Panic => apply IH
         | |- context [if ?b then _ else _] => destruct b
         | |- context [match ?x with _ => _ end] => destruct x
         end.
Qed.

Lemma ParseDuration_no_panic (orig : string) : Time.ParseDuration orig <> Panic.
Proof.
  unfold Time.ParseDuration.
  destruct (match orig with
            | "" => (false, orig)
            | String c s' =>
                if Ascii.eqb c "-" || Ascii.eqb c "+" then (Ascii.eqb c "-", s') else (false, orig)
            end) as [neg s].
  destruct (String.eqb s "0"); [discriminate|].
  destruct (Regexp.isEmpty s); [discriminate|].
  pose proof (parseTerms_no_panic (String.length s) orig s 0) as Hloop.
  destruct (Time.parseTerms (String.length s) orig s 0) as [d|e|]; cbn [bind];
    [|discriminate|contradiction].
  destruct neg; [discriminate|]. destruct (_ <? d); discriminate.
Qed.

(** A line that begins with [$]: what the loop does with it. *)
Lemma processLine_directive (st : state) (text : string) :
  startsWith text "$" = true ->
  processLine st text =
    match Strings.cutByte text " " with
    | Some (kw, arg) =>
        if String.eqb kw "$ORIGIN" then Ok ({| zone := arg; ttl := ttl st; rr := rr st |}, nil)
        else if String.eqb kw "$TTL" then
          match Time.ParseDuration arg with
          | Ok t =>
              Ok ({| zone := zone st; ttl := Float64.toInt (Time.Seconds t); rr := rr st |}, nil)
          | Err e => Err e
          | Panic => Panic
          end
        else Ok (st, WarnUnknownDirective text :: nil)
    | None =>
        if String.eqb text "$ORIGIN" || String.eqb text "$TTL" then Panic
        else Ok (st, WarnUnknownDirective text :: nil)
    end.
Proof.
  destruct text as [|c text]; [discriminate|]. cbn [startsWith]. intros Hc.
  unfold processLine. cbn [byteAt String.get bind]. rewrite Hc. unfold Strings.SplitN2.
  destruct (Strings.cutByte (String c text) " ") as [[kw arg]|]; cbn [index nth_error bind].
  - destruct (String.eqb kw "$ORIGIN"); [reflexivity|].
    destruct (String.eqb kw "$TTL"); [|reflexivity].
    destruct (Time.ParseDuration arg); reflexivity.
  - destruct (String.eqb (String c text) "$ORIGIN"); [reflexivity|].
    destruct (String.eqb (String c text) "$TTL"); reflexivity.
Qed.

Lemma processLine_Err (st : state) (text : string) (e : error) :
  processLine st text = Err e ->
  exists arg, text = "$TTL " ++ arg /\ Time.ParseDuration arg = Err e.
Proof.
  destruct (startsWith text "$") eqn:Hd.
  - rewrite (processLine_directive st text Hd).
    destruct (Strings.cutByte text " ") as [[kw arg]|] eqn:Hcut.
    + destruct (String.eqb kw "$ORIGIN"); [discriminate|].
      destruct (String.eqb_spec kw "$TTL") as [->|_]; [|discriminate].
      destruct (Time.ParseDuration arg) as [t|e0|] eqn:Hparse; try discriminate.
      intros H. injection H as <-. exists arg. split; [|exact Hparse].
      exact (cutByte_sound text " " "$TTL" arg Hcut).
    + destruct (_ || _); discriminate.
  - rewrite (processLine_record_line st text Hd). destruct text; [discriminate|].
    destruct (parseRecord _ _ _); discriminate.
Qed.

Lemma scanLoop_Err (lines : list string) :
  forall st entries e,
    scanLoop st lines = (entries, Err e) ->
    exists before arg after st',
      lines = (before ++ ("$TTL " ++ arg)%string :: after)%list
      /\ Time.ParseDuration arg = Err e
      /\ scanLoop st before = (entries, Ok st').
Proof.
  induction lines as [|text lines IH]; intros st entries e Hrun; [discriminate|].
  cbn [scanLoop] in Hrun.
  destruct (processLine st text) as [[st1 lg]|e0|] eqn:Hline; [| |discriminate].
  - destruct (scanLoop st1 lines) as [later final] eqn:Hrest. injection Hrun as <- ->.
    destruct (IH st1 later e Hrest) as [before [arg [after [st' [-> [Hparse Hbefore]]]]]].
    exists (text :: before), arg, after, st'. split; [reflexivity|]. split; [exact Hparse|].
    cbn [scanLoop]. rewrite Hline, Hbefore. reflexivity.
  - injection Hrun as <- <-. destruct (processLine_Err st text e0 Hline) as [arg [-> Hparse]].
    exists nil, arg, lines, st. repeat split. exact Hparse.
Qed.

(** X27. An error of [formatZone] is always the error of
    [time.ParseDuration] on the argument of a [$TTL] directive: when
    [formatZone] returns an error, the input has a line [$TTL] with an
    argument that does not parse, the lines before it went through, and the
    log holds what they logged. *)
Theorem error_comes_from_TTL (input : string) (entries : list logEntry) (e : error) :
  formatZone input = (entries, Err e) ->
  exists before arg after st,
    Bufio.scanLines input = (before ++ ("$TTL " ++ arg)%string :: after)%list
    /\ Time.ParseDuration arg = Err e
    /\ scanLoop initial before = (entries, Ok st).
Proof.
  rewrite formatZone_scanLoop.
  destruct (scanLoop initial (Bufio.scanLines input)) as [lg [st| |]] eqn:Hrun;
    try discriminate.
  intros H. injection H as <- <-. exact (scanLoop_Err _ _ _ _ Hrun).
Qed.

(** X28. The loop of [formatZone] panics on exactly these lines: the
    empty line; a line that is [$ORIGIN] or [$TTL] and nothing else; and a
    line without [$] in front that the pattern rejects, or that has the type
    [TXT], empty data, and no TTL field of 2^63 or more. *)
Theorem loop_panics_exactly_when (st : state) (text : string) :
  processLine st text = Panic <->
    text = "" \/ text = "$ORIGIN" \/ text = "$TTL"
    \/ (startsWith text "$" = false
        /\ text <> ""
        /\ match tokenize text with
           | Some tk => tkType tk = "TXT" /\ tkData tk = "" /\ decimal 0 (tkTTL tk) < 2 ^ 63
           | None => True
           end).
Proof.
  destruct (startsWith text "$") eqn:Hd.
  - rewrite (processLine_directive st text Hd).
    destruct (Strings.cutByte text " ") as [[kw arg]|] eqn:Hcut.
    + pose proof (cutByte_sound text " " kw arg Hcut) as Htext.
      assert (Hsp : noByte " " text = false).
      { rewrite Htext, noByte_app. cbn [noByte]. rewrite Ascii.eqb_refl.
        apply andb_false_r. }
      split.
      * destruct (String.eqb kw "$ORIGIN"); [discriminate|].
        destruct (String.eqb kw "$TTL"); [|discriminate].
        pose proof (ParseDuration_no_panic arg) as Hnp.
        destruct (Time.ParseDuration arg); [discriminate|discriminate|contradiction].
      * intros [->|[->|[->|[H _]]]]; discriminate.
    + destruct (String.eqb_spec text "$ORIGIN") as [->|H1]; cbn [orb].
      * split; [intros _; right; left; reflexivity|reflexivity].
      * destruct (String.eqb_spec text "$TTL") as [->|H2].
        -- split; [intros _; right; right; left; reflexivity|reflexivity].
        -- split; [discriminate|]. intros [->|[E|[E|[H _]]]]; try discriminate; contradiction.
  - rewrite (processLine_record_line st text Hd). destruct text as [|c text].
    + split; [intros _; left; reflexivity|reflexivity].
    + rewrite parseRecord_tokens.
      destruct (tokenize (String c text)) as [tk|] eqn:Htk.
      * rewrite recordOfTokens_eq.
        assert (Hcases :
          match (if negb (tkTTL tk =? "")%string then Strconv.ParseInt (tkTTL tk)
                 else Ok (ttl st)) with
          | Ok _ => decimal 0 (tkTTL tk) < 2 ^ 63
          | Err _ => 2 ^ 63 <= decimal 0 (tkTTL tk)
          | Panic => False
          end).
        { destruct (tokenize_TTL_number _ tk Htk) as [E|Hnum].
          - rewrite E. cbn. reflexivity.
          - destruct (String.eqb_spec (tkTTL tk) "") as [E|_];
              [rewrite E in Hnum; discriminate|].
            cbn [negb]. rewrite (ParseInt_number _ Hnum).
            destruct (Z.ltb_spec (decimal 0 (tkTTL tk)) (2 ^ 63)); assumption. }
        destruct (if negb (tkTTL tk =? "")%string then Strconv.ParseInt (tkTTL tk)
                  else Ok (ttl st)) as [ttl0|e|]; [| |contradiction].
        -- destruct (String.eqb_spec (tkType tk) "TXT") as [Ety|Hty]; cbn [andb].
           ++ destruct (tkData tk) as [|d0 d] eqn:Hdata; cbn [Regexp.isEmpty].
              ** split; [intros _|reflexivity]. right. right. right.
                 repeat split; try assumption. discriminate.
              ** split; [discriminate|].
                 intros [E|[E|[E|[_ [_ [_ [E _]]]]]]];
                   try discriminate E; rewrite E in Hd; discriminate Hd.
           ++ split; [discriminate|].
              intros [E|[E|[E|[_ [_ [E _]]]]]];
                try discriminate E; try contradiction; rewrite E in Hd; discriminate Hd.
        -- split; [discriminate|].
           intros [E|[E|[E|[_ [_ [_ [_ Hlt]]]]]]];
             try discriminate E; try lia; rewrite E in Hd; discriminate Hd.
      * split; [intros _|reflexivity]. right. right. right.
        repeat split. discriminate.
Qed.

(** *** The width of the name column in a run *)










(** *** The TTL of a record *)

(** C6. Every record that [parseRecord] returns for a line comes from
    the fields that the pattern finds in it.  When the line has no TTL
    field the record has the default TTL.  When it has one, the field is a
    decimal number below 2^63 and the record has the value of that number,
    or the default TTL when the value is zero.  So the TTL of the record is
    the nonzero number written on the line, or else the default TTL.  The
    TTL field is the second field of a line of a name, a number, a class, a
    type and data; a line of a name, a class that is not a number, a type
    and data has none. *)
Theorem record_TTL_resolution (line zone : string) (dttl : Z) (rec : record) :
  parseRecord line zone dttl = Ok rec ->
  exists tk,
    tokenize line = Some tk
    /\ (tkTTL tk = "" -> TTL rec = dttl)
    /\ (tkTTL tk <> "" ->
        isNumber (tkTTL tk) = true
        /\ decimal 0 (tkTTL tk) < 2 ^ 63
        /\ TTL rec = if decimal 0 (tkTTL tk) =? 0 then dttl else decimal 0 (tkTTL tk))
    /\ (TTL rec = dttl
        \/ (tkTTL tk <> "" /\ decimal 0 (tkTTL tk) <> 0 /\ TTL rec = decimal 0 (tkTTL tk)))
    /\ (forall w1 b1 n b2 c b3 t b4 d : string,
        isWord w1 = true -> isBlanks b1 = true -> isNumber n = true -> isBlanks b2 = true ->
        isWord c = true -> isBlanks b3 = true -> isWord t = true -> isBlanks b4 = true ->
        isRest d = true ->
        line = (w1 ++ b1 ++ n ++ b2 ++ c ++ b3 ++ t ++ b4 ++ d)%string ->
        tkTTL tk = n /\ TTL rec = if decimal 0 n =? 0 then dttl else decimal 0 n)
    /\ (forall w1 b1 c b2 t b3 d : string,
        isWord w1 = true -> isBlanks b1 = true -> isWord c = true -> isBlanks b2 = true ->
        isWord t = true -> isBlanks b3 = true -> isRest d = true ->
        isNumber c = false ->
        line = (w1 ++ b1 ++ c ++ b2 ++ t ++ b3 ++ d)%string ->
        tkTTL tk = "" /\ TTL rec = dttl).
Proof.
  intros Hok. destruct (parseRecord_Ok_eq _ _ _ _ Hok) as [tk [ttl0 [Htk [Httl Hrec]]]].
  exists tk. split; [exact Htk|].
  assert (HT : TTL rec = if ttl0 =? 0 then dttl else ttl0) by (rewrite Hrec; reflexivity).
  assert (Habsent : tkTTL tk = "" -> TTL rec = dttl).
  { intros E. rewrite E in Httl. cbn in Httl. injection Httl as <-.
    rewrite HT. destruct (dttl =? 0); reflexivity. }
  assert (Hpresent : tkTTL tk <> "" ->
                     isNumber (tkTTL tk) = true
                     /\ decimal 0 (tkTTL tk) < 2 ^ 63
                     /\ TTL rec = if decimal 0 (tkTTL tk) =? 0 then dttl
                                  else decimal 0 (tkTTL tk)).
  { intros E. destruct (tokenize_TTL_number line tk Htk) as [E0|Hnum]; [contradiction|].
    destruct (String.eqb_spec (tkTTL tk) "") as [E0|_]; [contradiction|]. cbn [negb] in Httl.
    rewrite (ParseInt_number _ Hnum) in Httl.
    destruct (Z.ltb_spec (decimal 0 (tkTTL tk)) (2 ^ 63)) as [Hfit|_]; [|discriminate].
    injection Httl as <-. repeat split; [exact Hnum|exact Hfit|exact HT]. }
  split; [exact Habsent|]. split; [exact Hpresent|]. split; [|split].
  - destruct (String.eqb_spec (tkTTL tk) "") as [E|E]; [left; exact (Habsent E)|].
    destruct (Hpresent E) as [_ [_ Hval]].
    destruct (Z.eqb_spec (decimal 0 (tkTTL tk)) 0) as [Z0|Z0]; [left; exact Hval|].
    right. repeat split; assumption.
  - intros w1 b1 n b2 c b3 t b4 d H1 Hb1 Hn Hb2 Hc Hb3 Ht Hb4 Hd Hline.
    rewrite Hline, (tokenize_TTL_fields w1 b1 n b2 c b3 t b4 d) in Htk by assumption.
    injection Htk as <-. cbn [tkTTL] in *.
    split; [reflexivity|]. apply Hpresent.
    intros E. rewrite E in Hn. discriminate Hn.
  - intros w1 b1 c b2 t b3 d H1 Hb1 Hc Hb2 Ht Hb3 Hd Hnum Hline.
    assert (Hdig : allBytes Strconv.isDigit c = false).
    { unfold isNumber in Hnum. unfold isWord in Hc. apply andb_prop in Hc.
      rewrite (proj1 Hc) in Hnum. exact Hnum. }
    rewrite Hline, (tokenize_fields w1 b1 c b2 t b3 d) in Htk
      by (try assumption; left; exact Hdig).
    injection Htk as <-. cbn [tkTTL] in *.
    split; [reflexivity|]. apply Habsent. reflexivity.
Qed.

(** *** The default TTL that a directive sets *)





(** *** The columns of a line *)

(** A rune takes at least one byte. *)
Lemma runeCountFrom_le (s : string) :
  forall skip, (Utf8.runeCountFrom s skip <= String.length s)%nat.
Proof.
  induction s as [|c s IH]; intros skip; cbn [Utf8.runeCountFrom String.length]; [lia|].
  destruct skip as [|k]; [apply le_n_S, IH|specialize (IH k); lia].
Qed.

Lemma get_spaces (k i : nat) (c : ascii) :
  String.get i (Fmt.spaces k) = Some c -> c = " "%char.
Proof.
  revert i. induction k as [|k IH]; intros i; [destruct i; discriminate|].
  destruct i as [|i]; [intros H; injection H as <-; reflexivity|exact (IH i)].
Qed.

Lemma get_length (s : string) :
  forall i c, String.get i s = Some c -> (i < String.length s)%nat.
Proof.
  induction s as [|a s IH]; intros i c; [destruct i; discriminate|].
  destruct i as [|i]; cbn [String.get String.length]; [lia|].
  intros H. specialize (IH i c H). lia.
Qed.

Lemma get_app_spaces (s : string) (k : nat) :
  forall i c, String.get i (s ++ Fmt.spaces k) = Some c ->
              String.get i s = Some c \/ (String.get i s = None /\ c = " "%char).
Proof.
  induction s as [|a s IH]; intros i c H.
  - right. split; [destruct i; reflexivity|]. exact (get_spaces k i c H).
  - destruct i as [|i]; [left; exact H|]. exact (IH i c H).
Qed.

Lemma get_app_left (s t : string) :
  forall i c, String.get i s = Some c -> String.get i (s ++ t) = Some c.
Proof.
  induction s as [|a s IH]; intros i c; [destruct i; discriminate|].
  destruct i as [|i]; [intros H; exact H|exact (IH i c)].
Qed.

(** A space is no continuation byte: spaces after [s] do not change the
    runes of [s]. *)
Lemma contIn_app_spaces (s : string) (k i : nat) (lo hi : Z) :
  128 <= lo -> Utf8.contIn (s ++ Fmt.spaces k) i lo hi = Utf8.contIn s i lo hi.
Proof.
  intros Hlo. unfold Utf8.contIn.
  destruct (String.get i s) as [c|] eqn:E.
  - rewrite (get_app_left s _ i c E). reflexivity.
  - destruct (String.get i (s ++ Fmt.spaces k)) as [c|] eqn:E'; [|reflexivity].
    destruct (get_app_spaces s k i c E') as [H|[_ ->]]; [congruence|].
    change (byteZ " ") with 32.
    destruct (Z.leb_spec lo 32); [lia|reflexivity].
Qed.

Lemma contIn_length (s : string) (i : nat) (lo hi v : Z) :
  Utf8.contIn s i lo hi = Some v -> (i < String.length s)%nat.
Proof.
  unfold Utf8.contIn. destruct (String.get i s) as [c|] eqn:E; [|discriminate].
  intros _. exact (get_length s i c E).
Qed.

Lemma Decode_app_spaces (c : ascii) (s : string) (k : nat) :
  Utf8.DecodeRuneInString (String c (s ++ Fmt.spaces k))
  = Utf8.DecodeRuneInString (String c s).
Proof.
  unfold Utf8.DecodeRuneInString.
  change (String c (s ++ Fmt.spaces k)) with (String c s ++ Fmt.spaces k).
  cbv zeta.
  rewrite !contIn_app_spaces by (repeat match goal with
                                        | |- context [if ?b then _ else _] => destruct b
                                        end; lia).
  reflexivity.
Qed.

Lemma Decode_width (s : string) :
  (snd (Utf8.DecodeRuneInString s) <= String.length s)%nat
  /\ (Nat.pred (snd (Utf8.DecodeRuneInString s)) <= Nat.pred (String.length s))%nat.
Proof.
  assert (H : (snd (Utf8.DecodeRuneInString s) <= String.length s)%nat); [|split; [exact H|lia]].
  destruct s as [|c s]; [cbn; lia|].
  unfold Utf8.DecodeRuneInString. cbv zeta.
  repeat match goal with
         | |- context [match Utf8.contIn ?a ?b ?c ?d with _ => _ end] =>
             let E := fresh "E" in
             destruct (Utf8.contIn a b c d) eqn:E; [apply contIn_length in E|]
         | |- context [if ?b then _ else _] => destruct b
         end; cbn [snd String.length] in *; lia.
Qed.

Lemma runeCount_spaces (k : nat) : forall skip, skip = 0%nat ->
  Utf8.runeCountFrom (Fmt.spaces k) skip = k.
Proof.
  induction k as [|k IH]; intros skip ->; [reflexivity|].
  change (Fmt.spaces (S k)) with (String " " (Fmt.spaces k)).
  cbn [Utf8.runeCountFrom]. f_equal. apply IH. reflexivity.
Qed.

(** Every space after [s] is one more rune. *)
Lemma runeCountFrom_app_spaces (s : string) (k : nat) :
  forall skip, (skip <= String.length s)%nat ->
    Utf8.runeCountFrom (s ++ Fmt.spaces k) skip = (Utf8.runeCountFrom s skip + k)%nat.
Proof.
  induction s as [|c s IH]; intros skip Hskip.
  - cbn [String.length] in Hskip. cbn [String.append Utf8.runeCountFrom].
    apply runeCount_spaces. lia.
  - change (String c s ++ Fmt.spaces k) with (String c (s ++ Fmt.spaces k)).
    cbn [Utf8.runeCountFrom]. destruct skip as [|j].
    + rewrite Decode_app_spaces.
      pose proof (proj2 (Decode_width (String c s))) as Hw. cbn [String.length Nat.pred] in Hw.
      rewrite (IH _ Hw). reflexivity.
    + cbn [String.length] in Hskip. apply IH. lia.
Qed.

Lemma runes_le_len (s : string) : 0 <= runes s <= len s.
Proof.
  unfold runes, len, Utf8.RuneCountInString. pose proof (runeCountFrom_le s 0). lia.
Qed.

(** The widths of a padded field, in runes and in bytes. *)
Lemma runes_padRight (w : Z) (s : string) : runes (padRight w s) = Z.max w (runes s).
Proof.
  unfold runes, padRight, Utf8.RuneCountInString.
  rewrite runeCountFrom_app_spaces by lia. lia.
Qed.

Lemma len_padRight (w : Z) (s : string) :
  len (padRight w s) = len s + Z.max 0 (w - runes s).
Proof.
  unfold padRight, len, runes. rewrite length_append.
  unfold Fmt.spaces. rewrite length_repeatByte. lia.
Qed.

Lemma len_padLeft (w : Z) (s : string) :
  len (padLeft w s) = len s + Z.max 0 (w - runes s).
Proof.
  unfold padLeft, len, runes. rewrite length_append.
  unfold Fmt.spaces. rewrite length_repeatByte. lia.
Qed.

Lemma runes_ascii (s : string) : allBytes asciiByte s = true -> runes s = len s.
Proof. intros H. unfold runes, len. rewrite (runeCount_ascii s H). reflexivity. Qed.

Lemma isDigit_ascii (c : ascii) : Strconv.isDigit c = true -> asciiByte c = true.
Proof.
  unfold Strconv.isDigit, asciiByte. intros H. apply andb_prop in H. destruct H as [_ H].
  apply Z.leb_le in H. apply Z.ltb_lt. lia.
Qed.

Lemma FormatInt_ascii (i : Z) : allBytes asciiByte (Strconv.FormatInt i) = true.
Proof.
  unfold Strconv.FormatInt. destruct (Z.ltb_spec i 0) as [Hneg|Hpos].
  - cbn [allBytes]. change (asciiByte "-") with true. cbn [andb].
    apply (allBytes_impl Strconv.isDigit); [exact isDigit_ascii|].
    exact (proj1 (FormatUint_digits (- i) ltac:(lia))).
  - apply (allBytes_impl Strconv.isDigit); [exact isDigit_ascii|].
    exact (proj1 (FormatUint_digits i Hpos)).
Qed.

(** The number of digits of a number. *)
Lemma decimal_bounds (s : string) :
  forall acc, 0 <= acc -> allBytes Strconv.isDigit s = true ->
    acc * 10 ^ len s <= decimal acc s < (acc + 1) * 10 ^ len s.
Proof.
  induction s as [|c s IH]; intros acc Hacc Hall.
  - cbn [decimal]. change (len "") with 0. lia.
  - simpl in Hall. apply andb_prop in Hall. destruct Hall as [Hc Hs].
    pose proof (isDigit_val c Hc) as Hv. cbn [decimal].
    specialize (IH (acc * 10 + Strconv.digitVal c) ltac:(lia) Hs).
    assert (Hlen : len (String c s) = Z.succ (len s)) by (unfold len; cbn [String.length]; lia).
    rewrite Hlen, Z.pow_succ_r by (unfold len; lia).
    assert (Hp : 0 < 10 ^ len s) by (apply Z.pow_pos_nonneg; unfold len; lia).
    nia.
Qed.

Lemma FormatInt_length (i : Z) :
  0 <= i -> 1 <= len (Strconv.FormatInt i)
  /\ i < 10 ^ len (Strconv.FormatInt i)
  /\ (0 < i -> 10 ^ (len (Strconv.FormatInt i) - 1) <= i).
Proof.
  intros Hi. unfold Strconv.FormatInt. destruct (Z.ltb_spec i 0) as [Hneg|_]; [lia|].
  destruct (FormatUint_digits i Hi) as [Hall [Hval [c [ds [Hds Hlead]]]]].
  rewrite Hds in *. simpl in Hall. apply andb_prop in Hall. destruct Hall as [Hc Hs].
  pose proof (isDigit_val c Hc) as Hv. cbn [decimal] in Hval.
  pose proof (decimal_bounds ds (0 * 10 + Strconv.digitVal c) ltac:(lia) Hs) as Hb.
  rewrite Hval in Hb.
  assert (Hlen : len (String c ds) = Z.succ (len ds)) by (unfold len; cbn [String.length]; lia).
  assert (Hp : 0 < 10 ^ len ds) by (apply Z.pow_pos_nonneg; unfold len; lia).
  rewrite Hlen. replace (Z.succ (len ds) - 1) with (len ds) by lia.
  rewrite Z.pow_succ_r by (unfold len; lia).
  split; [unfold len; lia|]. split; [nia|].
  intros Hpos. specialize (Hlead Hpos). nia.
Qed.

Lemma FormatInt_five (i : Z) :
  0 <= i -> (len (Strconv.FormatInt i) <= 5 <-> i <= 99999).
Proof.
  intros Hi. destruct (FormatInt_length i Hi) as [H1 [Hup Hlow]]. split.
  - intros Hle.
    assert (10 ^ len (Strconv.FormatInt i) <= 10 ^ 5) by (apply Z.pow_le_mono_r; lia).
    change (10 ^ 5) with 100000 in *. lia.
  - intros Hle. destruct (Z.le_gt_cases (len (Strconv.FormatInt i)) 5) as [H|H]; [exact H|exfalso].
    assert (Hpos : 0 < i).
    { destruct (Z.eq_dec i 0) as [->|]; [|lia]. vm_compute in H. discriminate H. }
    specialize (Hlow Hpos).
    assert (10 ^ 5 <= 10 ^ (len (Strconv.FormatInt i) - 1)) by (apply Z.pow_le_mono_r; lia).
    change (10 ^ 5) with 100000 in *. lia.
Qed.

(** C8. The renderer writes one line per record, in the order of the
    list, and nothing else, so no records give the empty text.  A line is
    the name followed by spaces up to [w] runes, where [w] is the largest
    length in bytes of a name of the list; a space; the TTL in decimal
    preceded by spaces up to five bytes; a space; the class; a space; the
    type followed by spaces up to five runes; a space; the data; a newline.
    So the name column counts exactly [w] runes, which are [w] bytes for a
    name of ASCII bytes and more for any other name.  Five is the least
    width of the TTL and of the type, not their width: the TTL column is
    five bytes wide exactly for the TTLs from 0 to 99999 and as wide as the
    number for larger ones, and the type column is as wide as a type of
    more than five runes. *)
Theorem render_columns (records : list record) :
  maxNameLen records <= 1000000 ->
  render records = String.concat "" (List.map (columns (maxNameLen records)) records)
  /\ render nil = ""
  /\ (forall r, In r records -> len (Name r) <= maxNameLen records)
  /\ (records <> nil -> exists r, In r records /\ len (Name r) = maxNameLen records)
  /\ (forall w r,
      columns w r
      = Name r ++ Fmt.spaces (Z.to_nat (w - runes (Name r))) ++ " "
        ++ Fmt.spaces (Z.to_nat (5 - len (Strconv.FormatInt (TTL r))))
        ++ Strconv.FormatInt (TTL r) ++ " "
        ++ Class r ++ " "
        ++ RType r ++ Fmt.spaces (Z.to_nat (5 - runes (RType r))) ++ " "
        ++ Data r ++ lf)
  /\ (forall r, In r records ->
      runes (padRight (maxNameLen records) (Name r)) = maxNameLen records
      /\ len (padRight (maxNameLen records) (Name r))
         = maxNameLen records + (len (Name r) - runes (Name r))
      /\ (allBytes asciiByte (Name r) = true ->
          len (padRight (maxNameLen records) (Name r)) = maxNameLen records))
  /\ (forall i,
      len (padLeft 5 (Strconv.FormatInt i)) = Z.max 5 (len (Strconv.FormatInt i))
      /\ (0 <= i -> (len (padLeft 5 (Strconv.FormatInt i)) = 5 <-> i <= 99999)))
  /\ (forall s,
      runes (padRight 5 s) = Z.max 5 (runes s)
      /\ (allBytes asciiByte s = true -> len (padRight 5 s) = Z.max 5 (len s))).
Proof.
  intros Hfit. destruct (maxNameLen_spec records) as [Hpos [Hle Hmax]].
  split; [|split; [reflexivity|split; [exact Hle|split; [exact Hmax|split; [|split; [|split]]]]]].
  - unfold render. apply concat_map_ext. intros r _. apply renderLine_columns. lia.
  - intros w r. unfold columns, padRight, padLeft.
    fold (runes (Name r)). fold (runes (RType r)). fold (runes (Strconv.FormatInt (TTL r))).
    rewrite (runes_ascii _ (FormatInt_ascii (TTL r))).
    rewrite !append_assoc. reflexivity.
  - intros r Hr. specialize (Hle r Hr). pose proof (runes_le_len (Name r)) as Hrunes.
    rewrite runes_padRight, len_padRight. repeat split; [lia|lia|].
    intros Hascii. rewrite (runes_ascii _ Hascii). lia.
  - intros i. pose proof (FormatInt_ascii i) as Hascii.
    assert (Hlen : len (padLeft 5 (Strconv.FormatInt i)) = Z.max 5 (len (Strconv.FormatInt i))).
    { rewrite len_padLeft, (runes_ascii _ Hascii). unfold len. lia. }
    split; [exact Hlen|]. intros Hi. rewrite Hlen.
    pose proof (FormatInt_five i Hi) as Hfive. split; intros H; [apply Hfive; lia|].
    apply Hfive in H. lia.
  - intros s. split; [apply runes_padRight|].
    intros Hascii. rewrite len_padRight, (runes_ascii _ Hascii). unfold len. lia.
Qed.

End Program.


(** * The theorems at concrete inputs *)

(** An empty line between two records. *)
Lemma empty_line_out_of_range_witness :
  Bufio.scanLines ("a IN A 1.2.3.4" ++ lf ++ lf ++ "b IN A 1.2.3.4" ++ lf)
  = "a IN A 1.2.3.4" :: "" :: "b IN A 1.2.3.4" :: nil
  /\ formatZone defaultSorting noWideRunes GoSort.insertionSort
       ("a IN A 1.2.3.4" ++ lf ++ lf ++ "b IN A 1.2.3.4" ++ lf)
     = (nil, Panic).
Proof.
  split; [reflexivity|].
  apply (proj2 (proj2 (empty_line_out_of_range defaultSorting noWideRunes GoSort.insertionSort
                         ("a IN A 1.2.3.4" ++ lf ++ lf ++ "b IN A 1.2.3.4" ++ lf)
                         ("a IN A 1.2.3.4" :: nil) ("b IN A 1.2.3.4" :: nil) eq_refl))
           nil
           {| zone := ""; ttl := 0;
              rr := {| Name := "a."; TTL := 0; Class := "IN"; RType := "A"; Data := "1.2.3.4" |}
                    :: nil |}).
  reflexivity.
Defined.



(** Under a default of one hour: a record with the TTL 300 written out
    keeps it, a record with the TTL 0 written out and a record without a
    TTL field get the default. *)
Lemma record_TTL_resolution_witness :
  (parseRecord noWideRunes "www 300 IN A 10.0.0.1" "example.com." 3600
   = Ok {| Name := "www.example.com."; TTL := 300; Class := "IN"; RType := "A";
           Data := "10.0.0.1" |}
   /\ exists tk,
        tokenize "www 300 IN A 10.0.0.1" = Some tk
        /\ tkTTL tk = "300"
        /\ decimal 0 (tkTTL tk) < 2 ^ 63
        /\ 300 = if decimal 0 (tkTTL tk) =? 0 then 3600 else decimal 0 (tkTTL tk))
  /\ (parseRecord noWideRunes "www 0 IN A 10.0.0.1" "example.com." 3600
      = Ok {| Name := "www.example.com."; TTL := 3600; Class := "IN"; RType := "A";
              Data := "10.0.0.1" |}
      /\ exists tk,
           tokenize "www 0 IN A 10.0.0.1" = Some tk
           /\ tkTTL tk = "0"
           /\ 3600 = if decimal 0 (tkTTL tk) =? 0 then 3600 else decimal 0 (tkTTL tk))
  /\ (parseRecord noWideRunes "www IN A 10.0.0.1" "example.com." 3600
      = Ok {| Name := "www.example.com."; TTL := 3600; Class := "IN"; RType := "A";
              Data := "10.0.0.1" |}
      /\ exists tk, tokenize "www IN A 10.0.0.1" = Some tk /\ tkTTL tk = "").
Proof.
  split; [|split].
  - split; [reflexivity|].
    destruct (record_TTL_resolution noWideRunes "www 300 IN A 10.0.0.1" "example.com." 3600
                {| Name := "www.example.com."; TTL := 300; Class := "IN"; RType := "A";
                   Data := "10.0.0.1" |} eq_refl)
      as [tk [Htk [_ [Hpresent [_ [Hfields _]]]]]].
    destruct (Hfields "www" " " "300" " " "IN" " " "A" " " "10.0.0.1"
                eq_refl eq_refl eq_refl eq_refl eq_refl eq_refl eq_refl eq_refl eq_refl eq_refl)
      as [Hn _].
    assert (Hne : tkTTL tk <> "") by (rewrite Hn; discriminate).
    destruct (Hpresent Hne) as [_ [Hfit Hval]].
    exists tk. repeat split; [exact Htk|exact Hn|exact Hfit|exact Hval].
  - split; [reflexivity|].
    destruct (record_TTL_resolution noWideRunes "www 0 IN A 10.0.0.1" "example.com." 3600
                {| Name := "www.example.com."; TTL := 3600; Class := "IN"; RType := "A";
                   Data := "10.0.0.1" |} eq_refl)
      as [tk [Htk [_ [_ [_ [Hfields _]]]]]].
    destruct (Hfields "www" " " "0" " " "IN" " " "A" " " "10.0.0.1"
                eq_refl eq_refl eq_refl eq_refl eq_refl eq_refl eq_refl eq_refl eq_refl eq_refl)
      as [Hn Hval].
    exists tk. repeat split; [exact Htk|exact Hn|rewrite Hn; exact Hval].
  - split; [reflexivity|].
    destruct (record_TTL_resolution noWideRunes "www IN A 10.0.0.1" "example.com." 3600
                {| Name := "www.example.com."; TTL := 3600; Class := "IN"; RType := "A";
                   Data := "10.0.0.1" |} eq_refl)
      as [tk [Htk [_ [_ [_ [_ Hplain]]]]]].
    destruct (Hplain "www" " " "IN" " " "A" " " "10.0.0.1"
                eq_refl eq_refl eq_refl eq_refl eq_refl eq_refl eq_refl eq_refl eq_refl)
      as [Hn _].
    exists tk. split; [exact Htk|exact Hn].
Defined.

(** The four types of the specification's example, under the default table. *)
Lemma records_sorted_by_score_then_name_witness :
  GoSort.sorts GoSort.insertionSort
  /\ Permutation
       ({| Name := "example.com."; TTL := 300; Class := "IN"; RType := "MX"; Data := "10 mail" |}
        :: {| Name := "www.example.com."; TTL := 300; Class := "IN"; RType := "A"; Data := "10.0.0.1" |}
        :: {| Name := "example.com."; TTL := 300; Class := "IN"; RType := "SOA"; Data := "ns1 root 1 2 3 4 5" |}
        :: {| Name := "example.com."; TTL := 300; Class := "IN"; RType := "NS"; Data := "ns1" |}
        :: nil)
       ({| Name := "example.com."; TTL := 300; Class := "IN"; RType := "SOA"; Data := "ns1 root 1 2 3 4 5" |}
        :: {| Name := "example.com."; TTL := 300; Class := "IN"; RType := "NS"; Data := "ns1" |}
        :: {| Name := "example.com."; TTL := 300; Class := "IN"; RType := "MX"; Data := "10 mail" |}
        :: {| Name := "www.example.com."; TTL := 300; Class := "IN"; RType := "A"; Data := "10.0.0.1" |}
        :: nil).
Proof.
  split; [exact insertionSort_sorts|].
  exact (proj1 (proj2 (proj2 (proj2
           (records_sorted_by_score_then_name defaultSorting GoSort.insertionSort
              ({| Name := "example.com."; TTL := 300; Class := "IN"; RType := "MX"; Data := "10 mail" |}
               :: {| Name := "www.example.com."; TTL := 300; Class := "IN"; RType := "A"; Data := "10.0.0.1" |}
               :: {| Name := "example.com."; TTL := 300; Class := "IN"; RType := "SOA"; Data := "ns1 root 1 2 3 4 5" |}
               :: {| Name := "example.com."; TTL := 300; Class := "IN"; RType := "NS"; Data := "ns1" |}
               :: nil)
              insertionSort_sorts))))).
Defined.

(** Names of three, seven and one bytes; a TTL of six digits and a type
    of six letters. *)
Lemma render_columns_witness :
  maxNameLen
    ({| Name := "ns."; TTL := 3600; Class := "IN"; RType := "A"; Data := "10.0.0.1" |}
     :: {| Name := "mail-a."; TTL := 604800; Class := "IN"; RType := "AAAA"; Data := "::1" |}
     :: {| Name := "."; TTL := 5; Class := "IN"; RType := "DNSKEY"; Data := "257 3 8 AwEAAa" |}
     :: nil) <= 1000000
  /\ render
       ({| Name := "ns."; TTL := 3600; Class := "IN"; RType := "A"; Data := "10.0.0.1" |}
        :: {| Name := "mail-a."; TTL := 604800; Class := "IN"; RType := "AAAA"; Data := "::1" |}
        :: {| Name := "."; TTL := 5; Class := "IN"; RType := "DNSKEY"; Data := "257 3 8 AwEAAa" |}
        :: nil)
     = "ns.      3600 IN A     10.0.0.1" ++ lf
       ++ "mail-a. 604800 IN AAAA  ::1" ++ lf
       ++ ".           5 IN DNSKEY 257 3 8 AwEAAa" ++ lf
  /\ runes (padRight 7 "ns.") = 7
  /\ len (padRight 7 "ns.") = 7
  /\ len (padLeft 5 (Strconv.FormatInt 3600)) = 5
  /\ len (padLeft 5 (Strconv.FormatInt 604800)) = 6
  /\ len (padRight 5 "AAAA") = 5
  /\ len (padRight 5 "DNSKEY") = 6.
Proof.
  split; [intros H; discriminate H|].
  destruct (render_columns
              ({| Name := "ns."; TTL := 3600; Class := "IN"; RType := "A";
                  Data := "10.0.0.1" |}
               :: {| Name := "mail-a."; TTL := 604800; Class := "IN"; RType := "AAAA";
                     Data := "::1" |}
               :: {| Name := "."; TTL := 5; Class := "IN"; RType := "DNSKEY";
                     Data := "257 3 8 AwEAAa" |}
               :: nil)
              ltac:(intros H; discriminate H))
    as [Hrender [_ [_ [_ [_ [Hname [Httl Htype]]]]]]].
  split; [rewrite Hrender; reflexivity|].
  destruct (Hname {| Name := "ns."; TTL := 3600; Class := "IN"; RType := "A";
                     Data := "10.0.0.1" |} ltac:(left; reflexivity))
    as [Hrunes [_ Hbytes]].
  split; [exact Hrunes|]. split; [exact (Hbytes eq_refl)|].
  split; [exact (proj2 (proj2 (Httl 3600) ltac:(discriminate)) ltac:(discriminate))|].
  split; [exact (proj1 (Httl 604800))|].
  split; [exact (proj2 (Htype "AAAA") eq_refl)|exact (proj2 (Htype "DNSKEY") eq_refl)].
Defined.

(** A TTL of six digits and a type of six letters take six columns, and
    what follows them on the line moves to the right; a name of three
    bytes and two runes, the longest of its list, is followed by a space of
    padding and so takes four bytes. *)
Lemma fixed_width_counterexample :
  formatZone defaultSorting noWideRunes GoSort.insertionSort
    ("a. 604800 IN A 1.2.3.4" ++ lf ++ "b. 300 IN DNSKEY 257" ++ lf)
  = (nil, Ok ("a. 604800 IN A     1.2.3.4" ++ lf
              ++ "b.   300 IN DNSKEY 257" ++ lf))
  /\ len (Strconv.FormatInt 604800) = 6
  /\ len "DNSKEY" = 6
  /\ formatZone defaultSorting noWideRunes GoSort.insertionSort
       ((eAcute ++ ".") ++ " 5 IN A 1.2.3.4" ++ lf)
     = (nil, Ok ((eAcute ++ "." ++ " ") ++ " " ++ "    5" ++ " IN A     1.2.3.4" ++ lf))
  /\ len (eAcute ++ ".") = 3
  /\ len (eAcute ++ "." ++ " ") = 4.
Proof. vm_compute. repeat split. Defined.

(** The apex of the zone [example.com.]. *)
Lemma record_name_resolution_witness :
  parseRecord noWideRunes "@ 300 IN SOA ns1.example.com. root.example.com. 1 2 3 4 5"
    "example.com." 3600
  = Ok {| Name := "example.com."; TTL := 300; Class := "IN"; RType := "SOA";
          Data := "ns1.example.com. root.example.com. 1 2 3 4 5" |}
  /\ exists tk,
       tokenize "@ 300 IN SOA ns1.example.com. root.example.com. 1 2 3 4 5" = Some tk
       /\ (tkName tk = "@" -> startsWith "example.com." "." = false ->
           "example.com." = "example.com.").
Proof.
  split; [reflexivity|].
  destruct (record_name_resolution noWideRunes
              "@ 300 IN SOA ns1.example.com. root.example.com. 1 2 3 4 5" "example.com." 3600
              {| Name := "example.com."; TTL := 300; Class := "IN"; RType := "SOA";
                 Data := "ns1.example.com. root.example.com. 1 2 3 4 5" |} eq_refl)
    as [tk [Htk [_ [_ [Hapex _]]]]].
  exists tk. split; [exact Htk|exact Hapex].
Defined.

(** C4, as stated, fails for the root origin: both dots of [..] are
    removed and the name is empty, not the origin. *)
Lemma apex_of_root_origin_counterexample :
  parseRecord noWideRunes "@ IN NS a.root-servers.net." "." 3600
  = Ok {| Name := ""; TTL := 3600; Class := "IN"; RType := "NS";
          Data := "a.root-servers.net." |}
  /\ "" <> ".".
Proof. split; [reflexivity|discriminate]. Defined.

(** TXT data without quotes. *)
Lemma txt_data_quoted_witness :
  parseRecord noWideRunes "txt IN TXT hello world" "example.com." 3600
  = Ok {| Name := "txt.example.com."; TTL := 3600; Class := "IN"; RType := "TXT";
          Data := dq ++ "hello world" ++ dq |}
  /\ exists tk,
       tokenize "txt IN TXT hello world" = Some tk
       /\ (startsWith (tkData tk) quoteChar = false ->
           allBytes plainByte (tkData tk) = true ->
           dq ++ "hello world" ++ dq = String quoteChar (tkData tk ++ String quoteChar "")).
Proof.
  split; [reflexivity|].
  destruct (txt_data_quoted noWideRunes "txt IN TXT hello world" "example.com." 3600
              {| Name := "txt.example.com."; TTL := 3600; Class := "IN"; RType := "TXT";
                 Data := dq ++ "hello world" ++ dq |} eq_refl eq_refl)
    as [tk [Htk [_ [_ [Hplain _]]]]].
  exists tk. split; [exact Htk|].
  intros Hq Hall. exact (proj2 (Hplain Hq) Hall).
Defined.

(** C2, as stated, fails for data with a double quote inside: the
    quotes of the data are escaped, so the result is not the data between two
    double quotes. *)
Lemma txt_inner_quotes_counterexample :
  parseRecord noWideRunes ("txt IN TXT say " ++ dq ++ "hi" ++ dq) "example.com." 3600
  = Ok {| Name := "txt.example.com."; TTL := 3600; Class := "IN"; RType := "TXT";
          Data := dq ++ "say " ++ bs ++ dq ++ "hi" ++ bs ++ dq ++ dq |}
  /\ dq ++ "say " ++ bs ++ dq ++ "hi" ++ bs ++ dq ++ dq
     <> dq ++ ("say " ++ dq ++ "hi" ++ dq) ++ dq.
Proof. split; [reflexivity|discriminate]. Defined.

(** An unknown directive. *)
Lemma directive_cut_at_first_space_witness :
  startsWith "$INCLUDE" "$" = true
  /\ noByte " " "$INCLUDE" = true
  /\ processLine noWideRunes initial "$INCLUDE other.zone"
     = Ok (initial, WarnUnknownDirective "$INCLUDE other.zone" :: nil).
Proof.
  split; [reflexivity|]. split; [reflexivity|].
  exact (proj1 (proj2 (directive_cut_at_first_space noWideRunes initial)
                  "$INCLUDE" " other.zone" eq_refl eq_refl (or_intror eq_refl)
                  ltac:(discriminate) ltac:(discriminate))).
Defined.

(** C9, as stated, fails for a tab: the line is not cut at it, the
    whole line is taken for an unknown keyword and the origin stays as it
    was. *)
Lemma origin_after_tab_counterexample :
  processLine noWideRunes initial ("$ORIGIN" ++ String tab "example.com.")
  = Ok (initial, WarnUnknownDirective ("$ORIGIN" ++ String tab "example.com.") :: nil)
  /\ zone initial <> "example.com.".
Proof. split; [reflexivity|discriminate]. Defined.

(** A zone with an origin and a default TTL: the second run returns the
    text of the first. *)
Lemma format_output_again_witness :
  formatZone defaultSorting noWideRunes GoSort.insertionSort
    ("$ORIGIN example.com." ++ lf ++ "$TTL 1h" ++ lf
     ++ "www IN A 10.0.0.1" ++ lf ++ "@ IN NS ns1.example.com." ++ lf)
  = (nil, Ok ("example.com.      3600 IN NS    ns1.example.com." ++ lf
              ++ "www.example.com.  3600 IN A     10.0.0.1" ++ lf))
  /\ formatZone defaultSorting noWideRunes GoSort.insertionSort
       ("example.com.      3600 IN NS    ns1.example.com." ++ lf
        ++ "www.example.com.  3600 IN A     10.0.0.1" ++ lf)
     = (nil, Ok ("example.com.      3600 IN NS    ns1.example.com." ++ lf
                 ++ "www.example.com.  3600 IN A     10.0.0.1" ++ lf)).
Proof.
  destruct (format_output_again defaultSorting noWideRunes GoSort.insertionSort
              ("$ORIGIN example.com." ++ lf ++ "$TTL 1h" ++ lf
               ++ "www IN A 10.0.0.1" ++ lf ++ "@ IN NS ns1.example.com." ++ lf)
              nil
              {| zone := "example.com."; ttl := 3600;
                 rr := {| Name := "www.example.com."; TTL := 3600; Class := "IN";
                          RType := "A"; Data := "10.0.0.1" |}
                       :: {| Name := "example.com."; TTL := 3600; Class := "IN";
                             RType := "NS"; Data := "ns1.example.com." |} :: nil |}
              insertionSort_sorts (or_introl insertionSort_keepsAscending))
    as [out [Hfirst [Hout Hsecond]]].
  - vm_compute. reflexivity.
  - repeat constructor; vm_compute; congruence.
  - repeat constructor; vm_compute; congruence.
  - rewrite Hout in Hfirst, Hsecond. split; [exact Hfirst|exact Hsecond].
Defined.

(** C3, as stated, fails for the apex of a zone without origin: the
    name is empty, the rendered line begins with a blank, and formatting the
    output again panics. *)
Lemma format_twice_counterexample :
  formatZone defaultSorting noWideRunes GoSort.insertionSort ("@ IN A 1.2.3.4" ++ lf)
  = (nil, Ok ("     0 IN A     1.2.3.4" ++ lf))
  /\ formatZone defaultSorting noWideRunes GoSort.insertionSort ("     0 IN A     1.2.3.4" ++ lf)
     = (nil, Panic).
Proof. split; reflexivity. Defined.

(** Lines of one, two and three words. *)
Lemma short_line_panics_witness :
  parseRecord noWideRunes "www" "example.com." 3600 = Panic
  /\ parseRecord noWideRunes "www IN" "example.com." 3600 = Panic
  /\ parseRecord noWideRunes "www IN  A" "example.com." 3600 = Panic.
Proof.
  exact (short_line_panics noWideRunes "www" " " "IN" "  " "A" "example.com." 3600
           eq_refl eq_refl eq_refl eq_refl eq_refl).
Defined.

(** A line with all five fields. *)
Lemma line_with_TTL_parses_witness :
  parseRecord noWideRunes "www 300 IN A 10.0.0.1" "example.com." 3600
  = Ok {| Name := "www.example.com."; TTL := 300; Class := "IN"; RType := "A";
          Data := "10.0.0.1" |}.
Proof.
  exact (line_with_TTL_parses noWideRunes "www" " " "300" " " "IN" " " "A" " " "10.0.0.1"
           "example.com." 3600 eq_refl eq_refl eq_refl eq_refl eq_refl eq_refl eq_refl eq_refl
           eq_refl eq_refl ltac:(discriminate)).
Defined.

(** A comment of four words is a record. *)
Lemma line_without_TTL_parses_witness :
  parseRecord noWideRunes "; this is a comment" "example.com." 3600
  = Ok {| Name := ";.example.com."; TTL := 3600; Class := "this"; RType := "is";
          Data := "a comment" |}.
Proof.
  exact (line_without_TTL_parses noWideRunes ";" " " "this" " " "is" " " "a comment"
           "example.com." 3600 eq_refl eq_refl eq_refl eq_refl eq_refl eq_refl eq_refl eq_refl
           ltac:(discriminate)).
Defined.

(** A TTL without data after the type. *)
Lemma numeric_second_field_is_class_witness :
  parseRecord noWideRunes "www 300 IN A" "example.com." 3600
  = Ok {| Name := "www.example.com."; TTL := 3600; Class := "300"; RType := "IN";
          Data := "A" |}.
Proof.
  exact (numeric_second_field_is_class noWideRunes "www" " " "300" " " "IN" " " "A"
           "example.com." 3600 eq_refl eq_refl eq_refl eq_refl eq_refl eq_refl eq_refl).
Defined.

(** A TTL of 2^63. *)
Lemma oversized_TTL_is_skipped_witness :
  parseRecord noWideRunes "www 9223372036854775808 IN A 10.0.0.1" "" 0
  = Err (ErrRange "ParseInt" "9223372036854775808")
  /\ processLine noWideRunes initial "www 9223372036854775808 IN A 10.0.0.1"
     = Ok (initial, ErrorUnparsable (ErrRange "ParseInt" "9223372036854775808") :: nil).
Proof.
  destruct (oversized_TTL_is_skipped noWideRunes "www" " " "9223372036854775808" " " "IN" " "
              "A" " " "10.0.0.1" initial nil eq_refl eq_refl eq_refl eq_refl eq_refl eq_refl
              eq_refl eq_refl eq_refl eq_refl ltac:(vm_compute; discriminate))
    as [Hparse [Hline _]].
  exact (conj Hparse Hline).
Defined.

(** A TXT record with a blank after the type and nothing else. *)
Lemma empty_TXT_data_panics_witness :
  parseRecord noWideRunes "txt IN TXT " "example.com." 3600 = Panic
  /\ parseRecord noWideRunes "txt 300 IN TXT " "example.com." 3600 = Panic.
Proof.
  exact (empty_TXT_data_panics noWideRunes "txt" " " "300" " " "IN" " " " " "example.com." 3600
           eq_refl eq_refl eq_refl eq_refl eq_refl eq_refl eq_refl eq_refl).
Defined.

(** A relative name under an origin that ends in a dot. *)
Lemma name_is_dot_terminated_witness :
  (Name {| Name := "www.example.com."; TTL := 3600; Class := "IN"; RType := "A";
           Data := "10.0.0.1" |} = ""
   \/ Strings.HasSuffixByte
        (Name {| Name := "www.example.com."; TTL := 3600; Class := "IN"; RType := "A";
                 Data := "10.0.0.1" |}) "." = true)
  /\ startsWith (Name {| Name := "www.example.com."; TTL := 3600; Class := "IN"; RType := "A";
                         Data := "10.0.0.1" |}) "." = false.
Proof.
  destruct (name_is_dot_terminated noWideRunes "www IN A 10.0.0.1" "example.com." 3600
              {| Name := "www.example.com."; TTL := 3600; Class := "IN"; RType := "A";
                 Data := "10.0.0.1" |} eq_refl) as [Hdot Hstart].
  split; [apply Hdot; right; reflexivity|apply Hstart; reflexivity].
Defined.

(** A TTL field under a default TTL. *)
Lemma TTL_is_default_or_positive_witness :
  0 <= TTL {| Name := "www.example.com."; TTL := 300; Class := "IN"; RType := "A";
              Data := "10.0.0.1" |} < 2 ^ 63.
Proof.
  apply (proj2 (TTL_is_default_or_positive noWideRunes "www 300 IN A 10.0.0.1" "example.com."
                  3600
                  {| Name := "www.example.com."; TTL := 300; Class := "IN"; RType := "A";
                     Data := "10.0.0.1" |} eq_refl)).
  lia.
Defined.

(** The records of a zone of two lines. *)
Lemma collected_records_have_fields_witness :
  Forall fieldsFromLine
    ({| Name := "www.example.com."; TTL := 0; Class := "IN"; RType := "A";
        Data := "10.0.0.1" |} :: nil).
Proof.
  exact (collected_records_have_fields noWideRunes
           ("$ORIGIN example.com." ++ lf ++ "www IN A 10.0.0.1" ++ lf) nil
           {| zone := "example.com."; ttl := 0;
              rr := {| Name := "www.example.com."; TTL := 0; Class := "IN"; RType := "A";
                       Data := "10.0.0.1" |} :: nil |}
           eq_refl).
Defined.

(** An [$ORIGIN] without a name. *)
Lemma directive_without_argument_panics_witness :
  formatZone defaultSorting noWideRunes GoSort.insertionSort
    ("$ORIGIN" ++ lf ++ "www IN A 10.0.0.1" ++ lf)
  = (nil, Panic).
Proof.
  exact (proj2 (proj2 (directive_without_argument_panics defaultSorting noWideRunes
                         GoSort.insertionSort
                         ("$ORIGIN" ++ lf ++ "www IN A 10.0.0.1" ++ lf)
                         nil ("www IN A 10.0.0.1" :: nil) "$ORIGIN" (or_introl eq_refl) eq_refl))
           nil initial eq_refl).
Defined.

(** The default TTL as zone files usually give it. *)
Lemma TTL_without_unit_is_fatal_witness :
  formatZone defaultSorting noWideRunes GoSort.insertionSort
    ("$TTL 3600" ++ lf ++ "www IN A 10.0.0.1" ++ lf)
  = (nil, Err (ErrMissingUnit "3600")).
Proof.
  exact (proj2 (proj2 (TTL_without_unit_is_fatal defaultSorting noWideRunes
                         GoSort.insertionSort
                         ("$TTL 3600" ++ lf ++ "www IN A 10.0.0.1" ++ lf)
                         nil ("www IN A 10.0.0.1" :: nil) "3600" eq_refl
                         ltac:(discriminate) eq_refl))
           nil initial eq_refl).
Defined.

(** A line of 65536 bytes between two records. *)
Lemma long_line_ends_input_witness :
  formatZone defaultSorting noWideRunes GoSort.insertionSort
    (("a. IN A 1.2.3.4" ++ lf) ++ repeatByte "x" (Z.to_nat 65536)
     ++ (lf ++ "b. IN A 1.2.3.4" ++ lf))
  = formatZone defaultSorting noWideRunes GoSort.insertionSort ("a. IN A 1.2.3.4" ++ lf).
Proof.
  apply (long_line_ends_input defaultSorting noWideRunes GoSort.insertionSort
           ("a. IN A 1.2.3.4" ++ lf) (repeatByte "x" (Z.to_nat 65536))
           (lf ++ "b. IN A 1.2.3.4" ++ lf)).
  - right. reflexivity.
  - vm_compute. reflexivity.
  - vm_compute. discriminate.
  - right. reflexivity.
Defined.

(** A zone with the line ends of DOS. *)
Lemma CRLF_is_read_as_LF_witness :
  formatZone defaultSorting noWideRunes GoSort.insertionSort
    ("$ORIGIN example.com." ++ crlf ++ "www IN A 10.0.0.1" ++ crlf)
  = formatZone defaultSorting noWideRunes GoSort.insertionSort
      ("$ORIGIN example.com." ++ lf ++ "www IN A 10.0.0.1" ++ lf).
Proof.
  apply (CRLF_is_read_as_LF defaultSorting noWideRunes GoSort.insertionSort
           ("$ORIGIN example.com." :: "www IN A 10.0.0.1" :: nil)).
  repeat constructor.
Defined.

(** A zone whose last line has no newline. *)
Lemma final_newline_is_optional_witness :
  formatZone defaultSorting noWideRunes GoSort.insertionSort
    (("a. IN A 1.2.3.4" ++ lf) ++ "b. IN A 1.2.3.4")
  = formatZone defaultSorting noWideRunes GoSort.insertionSort
      (("a. IN A 1.2.3.4" ++ lf) ++ "b. IN A 1.2.3.4" ++ lf).
Proof.
  apply (final_newline_is_optional defaultSorting noWideRunes GoSort.insertionSort
           ("a. IN A 1.2.3.4" ++ lf) "b. IN A 1.2.3.4").
  - right. reflexivity.
  - discriminate.
  - reflexivity.
Defined.

(** Two records in either order. *)
Lemma record_order_is_immaterial_witness :
  snd (formatZone defaultSorting noWideRunes GoSort.insertionSort
         ("$ORIGIN example.com." ++ lf ++ "mail IN A 10.0.0.2" ++ lf ++ "www IN A 10.0.0.1" ++ lf))
  = snd (formatZone defaultSorting noWideRunes GoSort.insertionSort
           ("$ORIGIN example.com." ++ lf ++ "www IN A 10.0.0.1" ++ lf ++ "mail IN A 10.0.0.2"
            ++ lf)).
Proof.
  destruct (record_order_is_immaterial defaultSorting noWideRunes GoSort.insertionSort
              ("$ORIGIN example.com." ++ lf ++ "www IN A 10.0.0.1" ++ lf ++ "mail IN A 10.0.0.2"
               ++ lf)
              ("$ORIGIN example.com." ++ lf ++ "mail IN A 10.0.0.2" ++ lf ++ "www IN A 10.0.0.1"
               ++ lf)
              ("$ORIGIN example.com." :: nil)
              ("www IN A 10.0.0.1" :: "mail IN A 10.0.0.2" :: nil)
              ("mail IN A 10.0.0.2" :: "www IN A 10.0.0.1" :: nil)
              nil
              {| zone := "example.com."; ttl := 0;
                 rr := {| Name := "www.example.com."; TTL := 0; Class := "IN"; RType := "A";
                          Data := "10.0.0.1" |}
                       :: {| Name := "mail.example.com."; TTL := 0; Class := "IN";
                             RType := "A"; Data := "10.0.0.2" |} :: nil |}
              insertionSort_sorts eq_refl eq_refl (perm_swap _ _ _))
    as [entries' [Hfirst [Hsecond _]]].
  - repeat constructor.
  - vm_compute. reflexivity.
  - intros a b [<-|[<-|[]]] [<-|[<-|[]]] _ Hname; try reflexivity; discriminate.
  - rewrite Hfirst, Hsecond. reflexivity.
Defined.

(** The flag [A=5,,NS=1]. *)
Lemma sort_flag_overlays_defaults_witness :
  init "dev" (Some {| SpecialSort := "A=5,,NS=1"; WriteBack := false;
                      VersionAndExit := false |})
  = Returns (overlay (("A", 5) :: ("NS", 1) :: nil) defaultSorting)
  /\ overlay (("A", 5) :: ("NS", 1) :: nil) defaultSorting !! "A" = Some 5%N
  /\ overlay (("A", 5) :: ("NS", 1) :: nil) defaultSorting !! "NS" = Some 1%N
  /\ overlay (("A", 5) :: ("NS", 1) :: nil) defaultSorting !! "SOA" = Some 0%N
  /\ overlay (("A", 5) :: ("NS", 1) :: nil) defaultSorting !! "TXT" = None.
Proof.
  destruct (sort_flag_overlays_defaults "dev"
              {| SpecialSort := "A=5,,NS=1"; WriteBack := false; VersionAndExit := false |}
              (Some ("A", 5) :: None :: Some ("NS", 1) :: nil) eq_refl eq_refl)
    as [Hinit Hlookup].
  - repeat constructor; lia.
  - split; [exact Hinit|]. repeat split; apply Hlookup.
Defined.

(** The flag [A=5,MX]. *)
Lemma sort_entry_without_equals_panics_witness :
  init "dev" (Some {| SpecialSort := "A=5,MX"; WriteBack := false; VersionAndExit := false |})
  = Crash.
Proof.
  apply (sort_entry_without_equals_panics "dev"
           {| SpecialSort := "A=5,MX"; WriteBack := false; VersionAndExit := false |}
           (Some ("A", 5) :: nil) "MX" nil eq_refl).
  - repeat constructor; lia.
  - discriminate.
  - reflexivity.
  - reflexivity.
  - constructor.
  - reflexivity.
Defined.

(** The flag [A=five]. *)
Lemma sort_entry_with_bad_score_is_fatal_witness :
  init "dev" (Some {| SpecialSort := "A=five"; WriteBack := false; VersionAndExit := false |})
  = Exit 1 (ScoringEntryBroken "A=five" (ErrSyntax "ParseUint" "five")).
Proof.
  destruct (sort_entry_with_bad_score_is_fatal "dev"
              {| SpecialSort := "A=five"; WriteBack := false; VersionAndExit := false |}
              nil "A" "five" nil eq_refl (List.Forall_nil _) eq_refl eq_refl eq_refl
              (or_introl eq_refl) (List.Forall_nil _) eq_refl)
    as [e [He Hinit]].
  injection He as <-. exact Hinit.
Defined.

(** [zonefmt zone.db]. *)
Lemma main_prints_without_write_back_witness :
  main defaultSorting noWideRunes GoSort.insertionSort
    {| SpecialSort := ""; WriteBack := false; VersionAndExit := false |}
    ("zonefmt" :: "zone.db" :: nil) someFiles
  = ({| files := files someFiles;
        stdout := "a.     0 IN A     1.2.3.4" ++ lf ++ "b.     0 IN A     1.2.3.4" ++ lf;
        stderr := nil |}, Returns tt).
Proof.
  rewrite (proj2 (main_prints_without_write_back defaultSorting noWideRunes
                    GoSort.insertionSort
                    {| SpecialSort := ""; WriteBack := false; VersionAndExit := false |}
                    "zonefmt" ("zone.db" :: nil) someFiles eq_refl)).
  - vm_compute. reflexivity.
  - constructor; [|constructor].
    exists zoneDb, ("a.     0 IN A     1.2.3.4" ++ lf ++ "b.     0 IN A     1.2.3.4" ++ lf).
    split; vm_compute; reflexivity.
Defined.

(** [zonefmt -w zone.db]. *)
Lemma main_writes_back_witness :
  files (fst (main defaultSorting noWideRunes GoSort.insertionSort
                {| SpecialSort := ""; WriteBack := true; VersionAndExit := false |}
                ("zonefmt" :: "zone.db" :: nil) someFiles)) !! "zone.db"
  = Some {| content := "a.     0 IN A     1.2.3.4" ++ lf ++ "b.     0 IN A     1.2.3.4" ++ lf;
            writable := true |}.
Proof.
  destruct (proj2 (proj2 (main_writes_back defaultSorting noWideRunes GoSort.insertionSort
                            {| SpecialSort := ""; WriteBack := true; VersionAndExit := false |}
                            "zonefmt" ("zone.db" :: nil) someFiles eq_refl)))
    as [w' [Hrun Hfiles]].
  - constructor; [intros []|constructor].
  - constructor; [|constructor]. split.
    + exists zoneDb, ("a.     0 IN A     1.2.3.4" ++ lf ++ "b.     0 IN A     1.2.3.4" ++ lf).
      split; vm_compute; reflexivity.
    + intros f Hf. vm_compute in Hf. injection Hf as <-. reflexivity.
  - rewrite Hrun. cbn [fst]. rewrite (Hfiles "zone.db" (or_introl eq_refl)).
    vm_compute. reflexivity.
Defined.

(** [zonefmt -w zone.db bad.db zone.db]: the run ends in a panic on the
    second file, which is left as it was. *)
Lemma main_stops_at_first_failure_witness :
  snd (main defaultSorting noWideRunes GoSort.insertionSort
         {| SpecialSort := ""; WriteBack := true; VersionAndExit := false |}
         ("zonefmt" :: "zone.db" :: "bad.db" :: "zone.db" :: nil) someFiles)
  = Crash
  /\ files (fst (main defaultSorting noWideRunes GoSort.insertionSort
                   {| SpecialSort := ""; WriteBack := true; VersionAndExit := false |}
                   ("zonefmt" :: "zone.db" :: "bad.db" :: "zone.db" :: nil) someFiles))
     !! "bad.db"
     = Some badDb.
Proof.
  destruct (main_stops_at_first_failure defaultSorting noWideRunes GoSort.insertionSort
              {| SpecialSort := ""; WriteBack := true; VersionAndExit := false |}
              "zonefmt" "bad.db" ("zone.db" :: nil) ("zone.db" :: nil) someFiles
              (fst (formatFiles defaultSorting noWideRunes GoSort.insertionSort
                      {| SpecialSort := ""; WriteBack := true; VersionAndExit := false |}
                      someFiles ("zone.db" :: nil))))
    as [Hmain [_ [Hfiles _]]].
  - vm_compute. reflexivity.
  - vm_compute. exact I.
  - cbn [List.app] in Hmain, Hfiles. split.
    + rewrite Hmain. vm_compute. reflexivity.
    + rewrite Hfiles. vm_compute. reflexivity.
Defined.

(** One hour and a half. *)
Lemma TTL_of_whole_seconds_witness :
  processLine noWideRunes initial "$TTL 1h30m"
  = Ok ({| zone := ""; ttl := 5400; rr := nil |}, nil).
Proof.
  exact (proj2 (TTL_of_whole_seconds noWideRunes initial
                  (("1", Hours) :: ("30", Minutes) :: nil)
                  ltac:(discriminate)
                  ltac:(repeat constructor)
                  eq_refl)).
Defined.

(** A [$TTL] that does not parse, after a record. *)
Lemma error_comes_from_TTL_witness :
  exists before arg after st,
    Bufio.scanLines ("a. IN A 1.2.3.4" ++ lf ++ "$TTL soon" ++ lf)
    = (before ++ ("$TTL " ++ arg)%string :: after)%list
    /\ Time.ParseDuration arg = Err (ErrInvalidDuration "soon")
    /\ scanLoop noWideRunes initial before = (nil, Ok st).
Proof.
  exact (error_comes_from_TTL defaultSorting noWideRunes GoSort.insertionSort
           ("a. IN A 1.2.3.4" ++ lf ++ "$TTL soon" ++ lf) nil (ErrInvalidDuration "soon")
           eq_refl).
Defined.

